(** * patchlint: warning normalisation, process registry, build and boot jobs

    A shallow embedding of [patchlint.py].  Python [str] values are lists of
    Unicode code points, regular expressions are terms of a small syntax run
    by a backtracking matcher that follows the order in which CPython's [re]
    explores alternatives, and the stateful part of the program (the child
    process registry, the shutdown flag, log files) is a state-and-exception
    monad over an explicit world. *)

From Stdlib Require Import NArith ZArith String Ascii DecimalString Lia.
From stdpp Require Import base tactics option list sorting gmap strings.

Local Open Scope N_scope.
Local Open Scope list_scope.

(** ** Python strings *)

Module Py.

(** A [str] is a sequence of code points. *)
Abbreviation char := N (only parsing).
Abbreviation str := (list N) (only parsing).

Definition of_string (s : string) : str :=
  map N_of_ascii (list_ascii_of_string s).

Definition inb (lo hi c : N) : bool := (lo <=? c) && (c <=? hi).

(** [str.isspace] for one code point, which is also [\s] of [re] on [str]
    patterns. *)
Definition is_space (c : N) : bool :=
  inb 9 13 c || inb 28 32 c || (c =? 133) || (c =? 160) || (c =? 5760)
  || inb 8192 8202 c || (c =? 8232) || (c =? 8233) || (c =? 8239)
  || (c =? 8287) || (c =? 12288).

(** Line boundaries of [str.splitlines]. *)
Definition is_linebreak (c : N) : bool :=
  inb 10 13 c || inb 28 30 c || (c =? 133) || (c =? 8232) || (c =? 8233).

(** First code points of the blocks of ten decimal digits (category Nd) of
    the Unicode database; [\d] of [re] matches exactly the members of
    these blocks.  The mathematical digits U+1D7CE..U+1D7FF are five blocks
    in a row. *)
Definition decimal_blocks : list N :=
  [48; 1632; 1776; 1984; 2406; 2534; 2662; 2790; 2918; 3046; 3174; 3302;
   3430; 3558; 3664; 3792; 3872; 4160; 4240; 6112; 6160; 6470; 6608; 6784;
   6800; 6992; 7088; 7232; 7248; 42528; 43216; 43264; 43472; 43504; 43600;
   44016; 65296; 66720; 68912; 69734; 69872; 69942; 70096; 70384; 70736;
   70864; 71248; 71360; 71472; 71904; 72016; 72784; 73040; 73120; 92768;
   92864; 93008; 120782; 120792; 120802; 120812; 120822; 123200; 123632;
   125264; 130032].

Definition is_decimal (c : N) : bool :=
  existsb (fun lo => inb lo (lo + 9) c) decimal_blocks.

(** The classes [[0-9]] and [[A-Za-z]]. *)
Definition is_digit09 (c : N) : bool := inb 48 57 c.
Definition is_alpha (c : N) : bool := inb 65 90 c || inb 97 122 c.

(** [s.rstrip()], [s.lstrip()] and [s.strip()] with no argument. *)
Fixpoint rstrip (s : str) : str :=
  match s with
  | [] => []
  | c :: t =>
      match rstrip t with
      | [] => if is_space c then [] else [c]
      | t' => c :: t'
      end
  end.

Fixpoint lstrip (s : str) : str :=
  match s with
  | [] => []
  | c :: t => if is_space c then lstrip t else s
  end.

Definition strip (s : str) : str := rstrip (lstrip s).

(** [s.splitlines()]: the lines without their boundaries; [\r\n] is one
    boundary, and a final boundary opens no empty last line. *)
Fixpoint splitlines_aux (cur : str) (s : str) : list str :=
  match s with
  | [] => match cur with [] => [] | _ => [rev cur] end
  | c :: t =>
      if is_linebreak c then
        match t with
        | d :: t' =>
            if (c =? 13) && (d =? 10)
            then rev cur :: splitlines_aux [] t'
            else rev cur :: splitlines_aux [] t
        | [] => [rev cur]
        end
      else splitlines_aux (c :: cur) t
  end.

Definition splitlines (s : str) : list str := splitlines_aux [] s.

(** Iterating a text file opened with the default [newline=None]: [\r\n]
    and [\r] are read as [\n], and every line keeps its [\n]. *)
Fixpoint readlines_aux (cur : str) (s : str) : list str :=
  match s with
  | [] => match cur with [] => [] | _ => [rev cur] end
  | c :: t =>
      if c =? 10 then rev (10 :: cur) :: readlines_aux [] t
      else if c =? 13 then
        match t with
        | d :: t' =>
            if d =? 10 then rev (10 :: cur) :: readlines_aux [] t'
            else rev (10 :: cur) :: readlines_aux [] t
        | [] => [rev (10 :: cur)]
        end
      else readlines_aux (c :: cur) t
  end.

Definition readlines (s : str) : list str := readlines_aux [] s.

(** Comparison of [str] values: lexicographic on code points. *)
Fixpoint str_leb (a b : str) : bool :=
  match a, b with
  | [], _ => true
  | _ :: _, [] => false
  | x :: a', y :: b' => (x <? y) || ((x =? y) && str_leb a' b')
  end.

Definition str_le (a b : str) : Prop := str_leb a b = true.

Global Instance str_le_dec a b : Decision (str_le a b).
Proof. unfold str_le. apply _. Defined.

End Py.

Import Py.

(** ** Regular expressions *)

Module Re.

(** The fragment of [re] syntax the program uses.  [Chr p] is any atom that
    matches one character (a literal, a class, [\s], [\d], [.]); [Star p] is
    the greedy repetition [X*] of such an atom. *)
Inductive re : Type :=
| Eps
| Bol                      (* ^ *)
| Eol                      (* $ *)
| Chr (p : N -> bool)
| Star (p : N -> bool)
| Seq (a b : re)
| Alt (a b : re)           (* a|b, a tried first *)
| Grp (i : nat) (a : re).  (* capturing group number i *)

Definition Plus (p : N -> bool) : re := Seq (Chr p) (Star p).   (* X+ *)
Definition Opt (a : re) : re := Alt a Eps.                      (* (?:a)? *)
Definition cat (l : list re) : re := foldr Seq Eps l.

(** The cursor of a match attempt: whether it stands at the start of the
    subject (for [^]), the text ahead, and the groups closed so far. *)
Record cursor : Type := Cursor {
  c_bol : bool;
  c_rest : str;
  c_caps : list (nat * str)
}.

Definition consumed (from to : str) : str :=
  take (length from - length to)%nat from.

Section Exec.
Context {A : Type}.

(** Greedy loop of [X*]: take one more character while the class allows
    and the rest of the pattern then succeeds, else stop here. *)
Fixpoint star_loop (p : N -> bool) (k : bool -> str -> option A)
      (b : bool) (s : str) : option A :=
    match s with
    | c :: t =>
        if p c then
          match star_loop p k false t with
          | Some r => Some r
          | None => k b s
          end
        else k b s
    | [] => k b s
    end.

(** Backtracking matcher in continuation-passing style: [k] is the rest of
    the pattern, and the first success in priority order is returned. *)
Fixpoint exec (r : re) (c : cursor) (k : cursor -> option A) : option A :=
    match r with
    | Eps => k c
    | Bol => if c_bol c then k c else None
    | Eol =>
        match c_rest c with
        | [] => k c
        | [x] => if x =? 10 then k c else None
        | _ => None
        end
    | Chr p =>
        match c_rest c with
        | x :: t => if p x then k (Cursor false t (c_caps c)) else None
        | [] => None
        end
    | Star p =>
        star_loop p (fun b s => k (Cursor b s (c_caps c))) (c_bol c) (c_rest c)
    | Seq a b => exec a c (fun c' => exec b c' k)
    | Alt a b =>
        match exec a c k with
        | Some x => Some x
        | None => exec b c k
        end
    | Grp i a =>
        exec a c (fun c' =>
          k (Cursor (c_bol c') (c_rest c')
               ((i, consumed (c_rest c) (c_rest c')) :: c_caps c')))
    end.
End Exec.

(** A match attempt at one position: its length and its groups. *)
Definition match_at (r : re) (bol : bool) (s : str)
    : option (nat * list (nat * str)) :=
  exec r (Cursor bol s [])
    (fun c => Some ((length s - length (c_rest c))%nat, c_caps c)).

(** [re.match]: an attempt at the start of the subject. *)
Definition re_match (r : re) (s : str) : bool :=
  bool_decide (is_Some (match_at r true s)).

(** [re.search]: the attempts from left to right. *)
Fixpoint search_from (r : re) (bol : bool) (s : str) : bool :=
  match match_at r bol s with
  | Some _ => true
  | None =>
      match s with
      | [] => false
      | _ :: t => search_from r false t
      end
  end.

Definition re_search (r : re) (s : str) : bool := search_from r true s.

(** Replacement templates: literal text and group references. *)
Inductive tpl_item : Type :=
| TLit (s : str)
| TRef (i : nat).

Fixpoint group (i : nat) (caps : list (nat * str)) : str :=
  match caps with
  | [] => []
  | (j, s) :: rest => if Nat.eqb i j then s else group i rest
  end.

Definition expand (tpl : list tpl_item) (caps : list (nat * str)) : str :=
  concat (map (fun it => match it with
                         | TLit s => s
                         | TRef i => group i caps
                         end) tpl).

(** [re.sub]: matches are found left to right and do not overlap; [skip]
    counts the characters of the current match still to be dropped.  An empty
    match is replaced and the scan moves one character on. *)
Fixpoint sub_scan (r : re) (tpl : list tpl_item) (skip : nat) (bol : bool)
    (s : str) {struct s} : str :=
  match s with
  | [] =>
      match skip with
      | O => match match_at r bol [] with
             | Some (_, caps) => expand tpl caps
             | None => []
             end
      | S _ => []
      end
  | x :: t =>
      match skip with
      | S n => sub_scan r tpl n false t
      | O =>
          match match_at r bol s with
          | Some (O, caps) => expand tpl caps ++ x :: sub_scan r tpl 0 false t
          | Some (S n, caps) => expand tpl caps ++ sub_scan r tpl n false t
          | None => x :: sub_scan r tpl 0 false t
          end
      end
  end.

Definition re_sub (r : re) (tpl : list tpl_item) (s : str) : str :=
  sub_scan r tpl 0 true s.

(** A literal character, and a literal under [re.IGNORECASE]: both cases of
    an ASCII letter, and the four non-ASCII characters that fold onto ASCII
    letters (U+0130 and U+0131 onto i, U+017F onto s, U+212A onto k). *)
Definition is_chr (x : N) : N -> bool := fun c => c =? x.

Definition ci_chr (x : N) : N -> bool := fun c =>
  (c =? x)
  || (inb 97 122 x && (c =? x - 32))
  || (inb 65 90 x && (c =? x + 32))
  || (((x =? 105) || (x =? 73)) && ((c =? 304) || (c =? 305)))
  || (((x =? 115) || (x =? 83)) && (c =? 383))
  || (((x =? 107) || (x =? 75)) && (c =? 8490)).

Definition lit (s : string) : re := cat (map (fun x => Chr (is_chr x)) (of_string s)).
Definition lit_ci (s : string) : re := cat (map (fun x => Chr (ci_chr x)) (of_string s)).

(** [rejects r x]: every atom of [r] refuses the character [x] and [r]
    does not use [$]. *)
Fixpoint rejects (r : re) (x : N) : bool :=
  match r with
  | Eps | Bol => true
  | Eol => false
  | Chr p | Star p => negb (p x)
  | Seq a b | Alt a b => rejects a x && rejects b x
  | Grp _ a => rejects a x
  end.

(** Groups and templates whose characters all satisfy [Q]. *)
Definition caps_ok (Q : N -> Prop) (caps : list (nat * str)) : Prop :=
  Forall (fun ig => Forall Q ig.2) caps.

Definition tpl_ok (Q : N -> Prop) (tpl : list tpl_item) : Prop :=
  Forall (fun it => match it with TLit s => Forall Q s | TRef _ => True end) tpl.

(** A character at which no attempt of [r] can start. *)
Definition dead (r : re) (x : N) : Prop :=
  forall b t, match_at r b (x :: t) = None.

End Re.

Import Re.

(** ** Warning extraction and normalisation *)

Definition ESC : N := 27.

Definition is_nonspace (c : N) : bool := negb (is_space c).
Definition is_dot (c : N) : bool := negb (c =? 10).          (* . *)
Definition is_ansi_param (c : N) : bool := is_digit09 c || (c =? 59).  (* [0-9;] *)

(** [ANSI_RE = \x1B\[[0-9;]*[A-Za-z]] *)
Definition ANSI_RE : re :=
  cat [Chr (is_chr ESC); Chr (is_chr 91); Star is_ansi_param; Chr is_alpha].

(** [COMPILER_WARNING_RE = \S+:\d+(?::\d+)?:\s+warning:], ignoring case. *)
Definition COMPILER_WARNING_RE : re :=
  cat [Plus is_nonspace; Chr (ci_chr 58); Plus is_decimal;
       Opt (cat [Chr (ci_chr 58); Plus is_decimal]);
       Chr (ci_chr 58); Plus is_space; lit_ci "warning:"].

(** The tail [\s*:\s*warning:] shared by the two location patterns. *)
Definition MARKER : re :=
  cat [Star is_space; Chr (ci_chr 58); Star is_space; lit_ci "warning:"].

(** [WARNING_LOC_COLON_RE = :[0-9]+(:[0-9]+)(\s*:\s*warning:)], ignoring case. *)
Definition WARNING_LOC_COLON_RE : re :=
  cat [Chr (ci_chr 58); Plus is_digit09;
       Grp 1 (cat [Chr (ci_chr 58); Plus is_digit09]); Grp 2 MARKER].

(** [WARNING_LOC_LINE_RE = :[0-9]+(\s*:\s*warning:)], ignoring case. *)
Definition WARNING_LOC_LINE_RE : re :=
  cat [Chr (ci_chr 58); Plus is_digit09; Grp 1 MARKER].

(** The two patterns written inline in [normalize_warning_line]:
    [\s+] and [(^|\s)\./]. *)
Definition WS_RE : re := Plus is_space.
Definition DOTSLASH_RE : re :=
  cat [Grp 1 (Alt Bol (Chr is_space)); Chr (is_chr 46); Chr (is_chr 47)].

(** What a run of blanks becomes. *)
Definition blank (ws : str) : str := if ws is [] then [] else [32].

(** The two replacement templates of the location patterns. *)
Definition COLON_TPL : list tpl_item := [TLit (of_string ":LINE:COL"); TRef 2].
Definition LINE_TPL : list tpl_item := [TLit (of_string ":LINE"); TRef 1].

Definition ansi_strip (s : str) : str := re_sub ANSI_RE [] s.

(** The steps of [normalize_warning_line] after the ANSI sequences are gone. *)
Definition normalize_plain (s : str) : str :=
  let s := rstrip (re_sub WS_RE [TLit (of_string " ")] s) in
  let s := re_sub DOTSLASH_RE [TRef 1] s in
  let s := re_sub WARNING_LOC_COLON_RE COLON_TPL s in
  let s := re_sub WARNING_LOC_LINE_RE LINE_TPL s in
  s.

Definition normalize_warning_line (line : str) : str :=
  normalize_plain (ansi_strip line).

(** [sorted(out)] for a set of strings. *)
Definition sorted (out : gset (list N)) : list str :=
  merge_sort str_le (elements out).

(** The test of the loop body: the diagnostic pattern is searched in the
    ANSI-stripped copy of the line. *)
Definition is_warning (raw : str) : bool :=
  re_search COMPILER_WARNING_RE (ansi_strip raw).

(** The set [out] after the loop over [lines]. *)
Definition warning_set (lines : list str) : gset (list N) :=
  foldl (fun out raw =>
           if is_warning raw then {[ normalize_warning_line raw ]} ∪ out
           else out) ∅ lines.

(** [with_ansi raw clean]: [raw] is the text [clean], itself free of the
    escape character, with ANSI sequences inserted at any places. *)
Inductive with_ansi : str -> str -> Prop :=
| wa_nil : with_ansi [] []
| wa_char c raw clean :
    c <> ESC -> with_ansi raw clean -> with_ansi (c :: raw) (c :: clean)
| wa_seq params final raw clean :
    Forall (fun x => is_ansi_param x = true) params -> is_alpha final = true ->
    with_ansi raw clean ->
    with_ansi (ESC :: 91 :: params ++ final :: raw) clean.

(** Every blank of [s] is one U+0020 with a character that is not a blank
    after it. *)
Fixpoint blanks_single (s : str) : bool :=
  match s with
  | [] => true
  | c :: t =>
      (if is_space c
       then (c =? 32) && match t with [] => false | d :: _ => negb (is_space d) end
       else true)
      && blanks_single t
  end.

(** A line in which the five steps of [normalize_warning_line] find nothing
    to rewrite. *)
Definition settled (y : str) : Prop :=
  re_search ANSI_RE y = false
  /\ blanks_single y = true
  /\ re_search DOTSLASH_RE y = false
  /\ re_search WARNING_LOC_COLON_RE y = false
  /\ re_search WARNING_LOC_LINE_RE y = false.

(** The shape of a diagnostic line once its ANSI sequences are gone:
    a prefix, the location [:line] or [:line:col], a colon, blanks, the
    marker word in any case, and the message. *)
Definition is_number (n : str) : Prop :=
  n <> [] /\ Forall (fun c => is_digit09 c = true) n.

Definition marker_word (mk : str) : Prop :=
  Forall2 (fun x c => ci_chr x c = true) (of_string "warning:") mk.

Definition location (n : str) (col : option str) : str :=
  58 :: n ++ match col with Some c => 58 :: c | None => [] end.

Definition diag_line (P n : str) (col : option str) (ws mk R : str) : str :=
  P ++ location n col ++ 58 :: ws ++ mk ++ R.

(** The characters that can stand for a letter of the marker word. *)
Definition wordish (c : N) : bool := is_alpha c || (c =? 304) || (c =? 305).

(** Two locations of the same kind: both with a column or both without. *)
Definition same_kind (col col' : option str) : Prop :=
  match col, col' with
  | Some c, Some c' => is_number c /\ is_number c'
  | None, None => True
  | _, _ => False
  end.

(** What the steps before the location patterns make of the text before
    and after the location. *)
Definition plain_head (P : str) : str :=
  re_sub DOTSLASH_RE [TRef 1] (re_sub WS_RE [TLit (of_string " ")] P).

Definition plain_tail (R : str) : str :=
  sub_scan DOTSLASH_RE [TRef 1] 0 false
    (rstrip (sub_scan WS_RE [TLit (of_string " ")] 0 false R)).

(** The normalised warning records of a log, as a set: what the loop is
    meant to compute. *)
Definition warning_records (lines : list str) : gset (list N) :=
  list_to_set (normalize_warning_line <$> filter (fun raw => is_warning raw = true) lines).

Definition extract_normalized_warnings (lines : list str) : list str :=
  sorted (warning_set lines).

(** [compare_warnings]: the two arguments are the decoded texts of the
    baseline and candidate logs. *)
Definition compare_warnings (baseline candidate : str) : list str :=
  let base_warnings := extract_normalized_warnings (readlines baseline) in
  let cand_warnings := extract_normalized_warnings (readlines candidate) in
  sorted (list_to_set cand_warnings ∖ list_to_set base_warnings).


(** ** The world of the process helpers *)

(** The part of the program that runs child processes is modelled over an
    explicit world: the module globals [_shutdown], [_child_procs] and
    [_child_pids], the log files, and a record of what was done to the
    operating system (processes started, signals sent).  What the children
    themselves do is given by an environment. *)

Inductive exn : Type :=
| KeyboardInterrupt
| SystemExit (code : Z)
| KeyError
| TypeError
| FileNotFoundError.

Inductive res (A : Type) : Type :=
| Ok (a : A)
| Raise (e : exn).
Arguments Ok {A} a.
Arguments Raise {A} e.

(** A child started by [subprocess.Popen]: the lines it prints and the code
    [proc.wait()] returns.  The children of the model are those that could
    be started and whose output decodes as text: a [Popen] that fails and a
    line that does not decode raise in the program, and such runs are
    outside the model. *)
Record proc_run : Type := ProcRun {
  pr_lines : list str;
  pr_rc : Z
}.

Inductive wait_status : Type :=
| Exited (code : Z)      (* os.WIFEXITED, with its os.WEXITSTATUS *)
| Signaled (sig : Z).

(** A child started by [os.forkpty]: what is read from the terminal until
    end of stream (decoded), the seconds it runs before it ends by itself, if
    it does, and the status it then ends with. *)
Record boot_run : Type := BootRun {
  br_output : str;
  br_runtime : option N;
  br_status : wait_status
}.

Record env : Type := Env {
  run_of : nat -> proc_run;    (* by Popen handle *)
  boot_of : nat -> boot_run    (* by pid *)
}.

Definition SIGTERM : Z := 15.
Definition SIGKILL : Z := 9.

Inductive signal_event : Type :=
| KillPg (h : nat) (sig : Z)   (* os.killpg(os.getpgid(proc.pid), sig) *)
| Kill (pid : nat) (sig : Z).  (* os.kill(pid, sig) *)

Record spawn : Type := Spawn {
  sp_handle : nat;
  sp_cmd : list string;
  sp_cwd : string
}.

(** What [main] shows and does after the jobs, in order. *)
Inductive event : Type :=
| EchoBuildFailed (label : string)
| EchoBuildDone (label : string)
| ShowLogTail (path : string)
| EchoLogs (tmp : string)
| Compared (cfg : string)        (* a call of compare_warnings *)
| EchoBootOk
| EchoBootFailed
| EchoBlurb (allmod_new allyes_new : list str) (boot_ok : bool) (uname : str)
| RmTree (tmp : string).

Record world : Type := World {
  shutdown : bool;                 (* _shutdown.is_set() *)
  child_procs : list nat;          (* _child_procs, Popen objects by identity *)
  child_pids : list nat;           (* _child_pids *)
  spawned : list spawn;            (* the Popen calls of _spawn, oldest first *)
  forked : list nat;               (* the os.forkpty calls, oldest first *)
  signals : list signal_event;     (* signals sent, oldest first *)
  files : gmap string (list N);    (* text files by path *)
  trace : list event;
  next_id : nat                    (* the next fresh handle or pid *)
}.

Definition M (A : Type) : Type := world -> res A * world.

Definition ret {A} (a : A) : M A := fun w => (Ok a, w).
Definition raise {A} (e : exn) : M A := fun w => (Raise e, w).
Definition bind {A B} (m : M A) (k : A -> M B) : M B := fun w =>
  match m w with
  | (Ok a, w') => k a w'
  | (Raise e, w') => (Raise e, w')
  end.
Definition modify (f : world -> world) : M unit := fun w => (Ok tt, f w).

Global Instance M_ret : MRet M := @ret.
Global Instance M_bind : MBind M := fun A B k m => bind m k.

Definition set_shutdown (b : bool) (w : world) : world :=
  World b (child_procs w) (child_pids w) (spawned w) (forked w) (signals w)
    (files w) (trace w) (next_id w).
Definition set_child_procs (l : list nat) (w : world) : world :=
  World (shutdown w) l (child_pids w) (spawned w) (forked w) (signals w)
    (files w) (trace w) (next_id w).
Definition set_child_pids (l : list nat) (w : world) : world :=
  World (shutdown w) (child_procs w) l (spawned w) (forked w) (signals w)
    (files w) (trace w) (next_id w).
Definition add_signals (l : list signal_event) (w : world) : world :=
  World (shutdown w) (child_procs w) (child_pids w) (spawned w) (forked w)
    (signals w ++ l) (files w) (trace w) (next_id w).
Definition set_files (f : gmap string (list N)) (w : world) : world :=
  World (shutdown w) (child_procs w) (child_pids w) (spawned w) (forked w)
    (signals w) f (trace w) (next_id w).
Definition add_event (e : event) (w : world) : world :=
  World (shutdown w) (child_procs w) (child_pids w) (spawned w) (forked w)
    (signals w) (files w) (trace w ++ [e]) (next_id w).

(** [l.remove(x)] with its [ValueError] caught: the first occurrence goes,
    and a list without [x] stays as it is. *)
Fixpoint remove_first (x : nat) (l : list nat) : list nat :=
  match l with
  | [] => []
  | y :: t => if Nat.eqb x y then t else y :: remove_first x t
  end.

(** [_sigint_handler]: set the flag, signal every tracked process group and
    every tracked pid (errors of the two calls are swallowed), and raise. *)
Definition _sigint_handler : M unit :=
  modify (set_shutdown true);;
  modify (fun w => add_signals (map (fun h => KillPg h SIGTERM) (child_procs w)) w);;
  modify (fun w => add_signals (map (fun p => Kill p SIGTERM) (child_pids w)) w);;
  raise KeyboardInterrupt.

(** [_spawn], for a command that [subprocess.Popen] can start. *)
Definition _spawn (cmd : list string) (cwd : string) : M nat := fun w =>
  if shutdown w then (Raise KeyboardInterrupt, w)
  else
    let h := next_id w in
    (Ok h,
     World (shutdown w) (child_procs w ++ [h]) (child_pids w)
       (spawned w ++ [Spawn h cmd cwd]) (forked w) (signals w) (files w)
       (trace w) (S h)).

(** [_reap]. *)
Definition _reap (E : env) (h : nat) : M Z :=
  let rc := pr_rc (run_of E h) in
  modify (fun w => set_child_procs (remove_first h (child_procs w)) w);;
  ret rc.

(** Files: [open(path, "w")] empties the file, writing appends to it. *)
Definition open_w (path : string) : M unit :=
  modify (fun w => set_files (<[path := []]> (files w)) w).

Definition write (path : string) (text : str) : M unit :=
  modify (fun w => set_files (<[path := default [] (files w !! path) ++ text]> (files w)) w).

(** [run_and_log]: the log is the file the handle [log_fh] writes to.  The
    lines read from the pipe are the decoded lines of the child, so the loop
    raises nothing between [_spawn] and [_reap]. *)
Definition run_and_log (E : env) (cmd : list string) (log : string) (cwd : string) : M Z :=
  proc ← _spawn cmd cwd;
  write log (concat (pr_lines (run_of E proc)));;
  _reap E proc.

(** The commands started between two worlds, oldest first. *)
Definition ran_since (w w' : world) : list (list string) :=
  map sp_cmd (drop (length (spawned w)) (spawned w')).

(** The signals sent between two worlds, oldest first. *)
Definition sent_since (w w' : world) : list signal_event :=
  drop (length (signals w)) (signals w').

(** The exit code of the [i]-th process started after the world [w]. *)
Definition rc_at (E : env) (w : world) (i : nat) : Z :=
  pr_rc (run_of E (next_id w + i)).

(** ** Build and boot jobs *)

Definition NL : str := [10].

Definition header_text (header : list string) : str :=
  concat (map (fun line => of_string ("# " +:+ line) ++ NL) header).

Definition cmd_text (cmd : list string) : str :=
  of_string ("# cmd: " +:+ String.concat " " cmd) ++ NL.

(** The loop [for cmd in commands] shared by [build_config] and
    [boot_test]: it returns at the first code that is not 0. *)
Fixpoint run_commands (E : env) (log cwd : string) (commands : list (list string)) : M Z :=
  match commands with
  | [] => ret 0%Z
  | cmd :: rest =>
      write log (cmd_text cmd);;
      rc ← run_and_log E cmd log cwd;
      if (rc =? 0)%Z then run_commands E log cwd rest else ret rc
  end.

Definition build_commands (config_name : string) : list (list string) :=
  [ ["vng"; "--clean"];
    ["make"; config_name];
    ["./scripts/config"; "-d"; "WERROR"];
    ["make"; "olddefconfig"];
    ["vng"; "--build"; "--skip-config"; "KCFLAGS=-Wno-error"] ]%string.

(** [build_config]. *)
Definition build_config (E : env) (log_path kernel_dir config_name : string) : M Z :=
  let header := ["build-log mode"; "log=" +:+ log_path;
                 "kernel_dir=" +:+ kernel_dir; "config=" +:+ config_name]%string in
  open_w log_path;;
  write log_path (header_text header);;
  run_commands E log_path kernel_dir (build_commands config_name).

Definition BOOT_TIMEOUT : N := 60.

Definition TIMEOUT_TEXT : str := NL ++ of_string "[boot timed out]" ++ NL.

(** The watchdog of [_run_vng_boot] fires when the child has not ended by
    itself after [BOOT_TIMEOUT] seconds. *)
Definition timer_fires (b : boot_run) : bool :=
  match br_runtime b with
  | None => true
  | Some t => BOOT_TIMEOUT <? t
  end.

(** [_run_vng_boot]. *)
Definition _run_vng_boot (E : env) (kernel_dir : string) : M (Z * str) := fun w =>
  if shutdown w then (Ok (1%Z, []), w)
  else
    let pid := next_id w in
    let b := boot_of E pid in
    let timed_out := timer_fires b in
    let status := if timed_out then Signaled SIGKILL else br_status b in
    let rc := match status with Exited c => c | Signaled _ => 1%Z end in
    let w' :=
      World (shutdown w) (child_procs w)
        (remove_first pid (child_pids w ++ [pid]))
        (spawned w) (forked w ++ [pid])
        (signals w ++ (if timed_out then [Kill pid SIGKILL] else []))
        (files w) (trace w) (S pid) in
    if timed_out then (Ok (1%Z, br_output b ++ TIMEOUT_TEXT), w')
    else (Ok (rc, br_output b), w').

(** The pattern of the [uname -a] line:
    [Linux\s+\S+\s+\S+\s+#\d+\s+.*\s+GNU/Linux$]. *)
Definition UNAME_RE : re :=
  cat [lit "Linux"; Plus is_space; Plus is_nonspace; Plus is_space;
       Plus is_nonspace; Plus is_space; Chr (is_chr 35); Plus is_decimal;
       Plus is_space; Star is_dot; Plus is_space; lit "GNU/Linux"; Eol].

(** The loop over [reversed(clean.splitlines())]. *)
Fixpoint first_uname (lines : list str) : str :=
  match lines with
  | [] => []
  | line :: rest =>
      let line := strip line in
      if re_match UNAME_RE line then line else first_uname rest
  end.

Definition uname_of (boot_output : str) : str :=
  let clean := strip (ansi_strip boot_output) in
  first_uname (rev (splitlines clean)).

Definition boot_commands : list (list string) :=
  [ ["vng"; "--clean"]; ["vng"; "--build"; "KCFLAGS=-Wno-error"] ]%string.

(** [boot_test]. *)
Definition boot_test (E : env) (log_path kernel_dir : string) : M (Z * str) :=
  let header := ["boot-check mode"; "log=" +:+ log_path;
                 "kernel_dir=" +:+ kernel_dir]%string in
  open_w log_path;;
  write log_path (header_text header);;
  rc ← run_commands E log_path kernel_dir boot_commands;
  if negb (rc =? 0)%Z then ret (rc, [])
  else
    r ← _run_vng_boot E kernel_dir;
    let '(boot_rc, boot_output) := r in
    let uname_output := uname_of boot_output in
    write log_path (of_string ("# cmd: vng -r " +:+ kernel_dir +:+ " -e 'uname -a'") ++ NL);;
    write log_path boot_output;;
    let boot_rc :=
      if (boot_rc =? 0)%Z && bool_decide (uname_output = []) then 1%Z else boot_rc in
    ret (boot_rc, uname_output).

(** What [_run_vng_boot] returns for a child that behaves as [b]. *)
Definition boot_outcome (b : boot_run) : Z * str :=
  if timer_fires b then (1%Z, br_output b ++ TIMEOUT_TEXT)
  else (match br_status b with Exited c => c | Signaled _ => 1%Z end, br_output b).

(** What [boot_test] makes of the pair [_run_vng_boot] returned. *)
Definition boot_verdict (r : Z * str) : Z * str :=
  let uname_output := uname_of r.2 in
  (if (r.1 =? 0)%Z && bool_decide (uname_output = []) then 1%Z else r.1,
   uname_output).

(** The lines of a transcript that match the pattern, in order: the lines
    are those of the transcript without its ANSI sequences and outer blanks,
    each without its own outer blanks. *)
Definition signature_lines (boot_output : str) : list str :=
  filter (fun line => re_match UNAME_RE line = true)
    (strip <$> splitlines (strip (ansi_strip boot_output))).

(** ** Histories of the process helpers *)

(** The calls a worker or the signal handler can make. *)
Inductive op : Type :=
| OpSpawn (cmd : list string) (cwd : string)
| OpReap (h : nat)
| OpRunAndLog (cmd : list string) (log cwd : string)
| OpBuildConfig (log_path kernel_dir config_name : string)
| OpVngBoot (kernel_dir : string)
| OpBootTest (log_path kernel_dir : string)
| OpSigint.

(** The world after a call, whatever it returned or raised. *)
Definition do_op (E : env) (o : op) (w : world) : world :=
  match o with
  | OpSpawn cmd cwd => (_spawn cmd cwd w).2
  | OpReap h => (_reap E h w).2
  | OpRunAndLog cmd log cwd => (run_and_log E cmd log cwd w).2
  | OpBuildConfig l k c => (build_config E l k c w).2
  | OpVngBoot k => (_run_vng_boot E k w).2
  | OpBootTest l k => (boot_test E l k w).2
  | OpSigint => (_sigint_handler w).2
  end.

Definition do_ops (E : env) (ops : list op) (w : world) : world :=
  foldl (fun w o => do_op E o w) w ops.

(** The registry holds every handle once, and only handles already given
    out. *)
Definition reg_ok (w : world) : Prop :=
  NoDup (child_procs w) /\ Forall (fun h => (h < next_id w)%nat) (child_procs w).

(** [keeps I m]: the computation [m] leaves a world in [I] in [I], whether
    it returns or raises. *)
Definition keeps {A} (I : world -> Prop) (m : M A) : Prop :=
  forall w, I w -> I (m w).2.

(** ** The orchestrator *)

(** What a [Future] of the pool holds once its job is over: the [int] of a
    build job, the pair of the boot job, or the exception the job ended
    with. *)
Inductive future : Type :=
| FutInt (rc : Z)
| FutPair (rc : Z) (uname : str)
| FutExn (e : exn).

(** A job submitted to the pool and run to its end by a worker.  The jobs
    are run one after the other, in the order of submission: one of the
    schedules of the pool, whose five workers share nothing but the process
    registry. *)
Definition submit {A} (wrap : A -> future) (job : M A) : M future := fun w =>
  match job w with
  | (Ok a, w') => (Ok (wrap a), w')
  | (Raise e, w') => (Ok (FutExn e), w')
  end.

(** [fut.result()]. *)
Definition result (fut : future) : M future :=
  match fut with
  | FutExn e => raise e
  | _ => ret fut
  end.

(** [rc != 0] for what a future returned. *)
Definition nonzero (v : future) : bool :=
  match v with
  | FutInt rc => negb (rc =? 0)%Z
  | _ => true
  end.

(** The paths [main] has made before the jobs start: the directory of the
    logs and the five worktrees. *)
Record paths : Type := Paths {
  tmp : string;
  wt_baseline : string -> string;
  wt_candidate : string -> string;
  wt_boot : string
}.

Definition WARN_CONFIGS : list string := ["allmodconfig"; "allyesconfig"]%string.

Definition baseline_log (P : paths) (cfg : string) : string :=
  tmp P +:+ "/baseline/" +:+ cfg +:+ ".log".
Definition candidate_log (P : paths) (cfg : string) : string :=
  tmp P +:+ "/candidate/" +:+ cfg +:+ ".log".
Definition boot_log (P : paths) : string :=
  tmp P +:+ "/candidate/defconfig-boot.log".

(** The loop that submits the build jobs. *)
Fixpoint submit_builds (E : env) (P : paths) (cfgs : list string)
    : M (list (string * future)) :=
  match cfgs with
  | [] => ret []
  | cfg :: rest =>
      fb ← submit FutInt (build_config E (baseline_log P cfg) (wt_baseline P cfg) cfg);
      fc ← submit FutInt (build_config E (candidate_log P cfg) (wt_candidate P cfg) cfg);
      more ← submit_builds E P rest;
      ret (("baseline-" +:+ cfg, fb) :: ("candidate-" +:+ cfg, fc) :: more)
  end.

(** The [with ThreadPoolExecutor] block: when it is left every job is over. *)
Definition run_pool (E : env) (P : paths) : M (list (string * future)) :=
  futures ← submit_builds E P WARN_CONFIGS;
  fboot ← submit (fun r => FutPair r.1 r.2) (boot_test E (boot_log P) (wt_boot P));
  ret (futures ++ [("boot"%string, fboot)]).

Fixpoint dict_get {A} (k : string) (d : list (string * A)) : option A :=
  match d with
  | [] => None
  | (k', v) :: rest => if String.eqb k k' then Some v else dict_get k rest
  end.

(** [label.removeprefix(p)] for a label that starts with [p]. *)
Definition removeprefix (p label : string) : string :=
  String.substring (String.length p) (String.length label - String.length p) label.

(** The log of a failed job, looked up by its label. *)
Definition log_of_label (P : paths) (label : string) : option string :=
  let baseline_logs := map (fun cfg => (cfg, baseline_log P cfg)) WARN_CONFIGS in
  let candidate_logs := map (fun cfg => (cfg, candidate_log P cfg)) WARN_CONFIGS in
  if String.prefix "baseline-" label
  then dict_get (removeprefix "baseline-" label) baseline_logs
  else if String.prefix "candidate-" label
  then dict_get (removeprefix "candidate-" label) candidate_logs
  else None.

Definition echo (e : event) : M unit := modify (add_event e).

(** [_show_log_tail]: nothing for a file that does not exist. *)
Definition _show_log_tail (path : string) : M unit := fun w =>
  match files w !! path with
  | Some _ => echo (ShowLogTail path) w
  | None => (Ok tt, w)
  end.

(** The loop over [futures.items()] that collects the build results. *)
Fixpoint collect (P : paths) (futures : list (string * future)) (build_failed : bool)
    : M bool :=
  match futures with
  | [] => ret build_failed
  | (label, fut) :: rest =>
      if String.eqb label "boot" then collect P rest build_failed
      else
        rc ← result fut;
        if nonzero rc then
          echo (EchoBuildFailed label);;
          match log_of_label P label with
          | Some log_path => _show_log_tail log_path
          | None => ret tt
          end;;
          collect P rest true
        else
          echo (EchoBuildDone label);;
          collect P rest build_failed
  end.

Definition read_text (path : string) : M str := fun w =>
  match files w !! path with
  | Some text => (Ok text, w)
  | None => (Raise FileNotFoundError, w)
  end.

(** The loop that compares the two logs of every configuration. *)
Fixpoint compare_all (P : paths) (cfgs : list string) : M (list (string * list str)) :=
  match cfgs with
  | [] => ret []
  | cfg :: rest =>
      echo (Compared cfg);;
      base ← read_text (baseline_log P cfg);
      cand ← read_text (candidate_log P cfg);
      more ← compare_all P rest;
      ret ((cfg, compare_warnings base cand) :: more)
  end.

(** [shutil.rmtree(tmp, ignore_errors=True)]. *)
Definition rmtree (dir : string) : M unit :=
  modify (fun w =>
    set_files (filter (fun kv => String.prefix (dir +:+ "/") kv.1 = false) (files w)) w);;
  echo (RmTree dir).

(** [main], from [_shutdown.clear()] to its [sys.exit]; the checks before
    it and the worktrees are outside the model. *)
Definition main (E : env) (P : paths) : M unit :=
  modify (set_shutdown false);;
  futures ← run_pool E P;
  build_failed ← collect P futures false;
  if build_failed : bool then
    echo (EchoLogs (tmp P));;
    raise (SystemExit 2)
  else
    results ← compare_all P WARN_CONFIGS;
    fboot ← match dict_get "boot" futures with
            | Some fut => result fut
            | None => raise KeyError
            end;
    match fboot with
    | FutPair boot_rc uname_output =>
        let boot_ok := (boot_rc =? 0)%Z in
        (if boot_ok then echo EchoBootOk
         else echo EchoBootFailed;; _show_log_tail (boot_log P));;
        let allmod := default [] (dict_get "allmodconfig" results) in
        let allyes := default [] (dict_get "allyesconfig" results) in
        echo (EchoBlurb allmod allyes boot_ok uname_output);;
        let has_failures :=
          existsb (fun r => negb (bool_decide (r.2 = []))) results || negb boot_ok in
        (if has_failures then echo (EchoLogs (tmp P)) else rmtree (tmp P));;
        raise (SystemExit (if has_failures then 1 else 0))
    | _ => raise TypeError
    end.

(** The events of a run that ends on failed builds: verdicts of the build
    jobs, tails of their logs, and the line that names the log directory. *)
Definition build_report_event (e : event) : Prop :=
  match e with
  | EchoBuildFailed _ | EchoBuildDone _ | ShowLogTail _ | EchoLogs _ => True
  | _ => False
  end.

(** A future that holds the nonzero [int] of a build job. *)
Definition build_failed_in (futures : list (string * future)) : Prop :=
  exists label rc,
    (label, FutInt rc) ∈ futures /\ label <> "boot"%string /\ rc <> 0%Z.

(** While the flag is clear a job returns: it raises nothing, leaves the
    flag clear and the trace as it is, removes no file and has made its
    log. *)
Definition job_done (log : string) (w w' : world) : Prop :=
  shutdown w' = false /\ trace w' = trace w
  /\ (forall p, is_Some (files w !! p) -> is_Some (files w' !! p))
  /\ is_Some (files w' !! log).


(** ** A concrete run *)

(** A world in which nothing has happened yet, and an environment in which
    the process with handle [bad] exits with 3, every other one with 0, and
    the boot child prints [out] and runs for [runtime] seconds. *)
Definition ex_world : world := World false [] [] [] [] [] ∅ [] 0.

Definition ex_env (bad : nat) (runtime : option N) (out : string) : env :=
  Env (fun h => ProcRun [of_string "cc" ++ NL] (if Nat.eqb h bad then 3%Z else 0%Z))
      (fun _ => BootRun (of_string out ++ NL) runtime (Exited 0)).

Definition ex_paths : paths :=
  Paths "/tmp/patchlint-logs-x"
    (fun cfg => "/src/patchlint-b-" +:+ cfg)
    (fun cfg => "/src/patchlint-c-" +:+ cfg)
    "/src/patchlint-boot".

Definition ex_uname : string := "Linux virtme-ng 6.18.0-virtme #1 SMP x86_64 GNU/Linux".

(** A line coloured the way GCC colours its diagnostics. *)
Definition ex_coloured : str :=
  [27; 91; 48; 49; 59; 51; 53; 109] ++ of_string "foo.c:10:2: warning: unused"
  ++ [27; 91; 109].


(** ** Diagnostics of the usual form *)

(** [squeeze s]: the text [s] with every run of blanks as one U+0020. *)
Fixpoint squeeze (s : str) : str :=
  match s with
  | [] => []
  | c :: t =>
      if is_space c then
        match t with
        | d :: _ => if is_space d then squeeze t else 32 :: squeeze t
        | [] => [32]
        end
      else c :: squeeze t
  end.

(** Whether [s] starts with [./], and whether [./] occurs in [s]. *)
Definition starts_dotslash (s : str) : bool :=
  match s with
  | c :: d :: _ => (c =? 46) && (d =? 47)
  | _ => false
  end.

Fixpoint dotslash_in (s : str) : bool :=
  match s with
  | [] => false
  | _ :: t => starts_dotslash s || dotslash_in t
  end.

(** [P] without the [./] it may start with. *)
Definition drop_dotslash (P : str) : str :=
  if starts_dotslash P then drop 2 P else P.

(** The text before the location is a path: it has no blank, no colon and
    no escape character, and it does not start with [././]. *)
Definition path_like (P : str) : Prop :=
  Forall (fun c => is_space c = false /\ c <> 58 /\ c <> ESC) P
  /\ starts_dotslash (drop_dotslash P) = false.

(** The text after the marker is a message: it has no colon, no escape
    character and no [./]. *)
Definition message_like (R : str) : Prop :=
  Forall (fun c => c <> 58 /\ c <> ESC) R /\ dotslash_in R = false.

(** What stands for the location in a normal form. *)
Definition placeholder (col : option str) : str :=
  match col with
  | Some _ => of_string ":LINE:COL"
  | None => of_string ":LINE"
  end.

(** ** What a pattern matches *)

(** [matches r b s b' s']: the pattern [r] can consume the text between [s]
    and its suffix [s'], where [b] and [b'] tell whether the two places are
    the start of the subject. *)
Inductive matches : re -> bool -> str -> bool -> str -> Prop :=
| m_eps b s : matches Eps b s b s
| m_bol s : matches Bol true s true s
| m_eol b s : s = [] \/ s = [10] -> matches Eol b s b s
| m_chr p b x t : p x = true -> matches (Chr p) b (x :: t) false t
| m_star p b ds rest :
    Forall (fun x => p x = true) ds ->
    matches (Star p) b (ds ++ rest) (if ds is [] then b else false) rest
| m_seq a c b s b1 s1 b2 s2 :
    matches a b s b1 s1 -> matches c b1 s1 b2 s2 -> matches (Seq a c) b s b2 s2
| m_alt_l a c b s b' s' : matches a b s b' s' -> matches (Alt a c) b s b' s'
| m_alt_r a c b s b' s' : matches c b s b' s' -> matches (Alt a c) b s b' s'
| m_grp i a b s b' s' : matches a b s b' s' -> matches (Grp i a) b s b' s'.

(** A number in the digits [\d] accepts. *)
Definition decimal_number (n : str) : Prop :=
  n <> [] /\ Forall (fun c => is_decimal c = true) n.

(** ** The report *)

(** [str(n)] for a length. *)
Definition str_of_nat (n : nat) : str :=
  of_string (NilZero.string_of_uint (Nat.to_uint n)).

(** ["\n".join(lines)]. *)
Definition join_lines (lines : list str) : str :=
  match lines with
  | [] => []
  | l :: rest => l ++ concat (map (fun x => NL ++ x) rest)
  end.

(** The lines one turn of the loop over the two configurations appends. *)
Definition blurb_section (parent_short : str) (cfg : string) (new_warnings : list str)
    : list str :=
  match new_warnings with
  | _ :: _ =>
      (of_string ("- Building with " +:+ cfg +:+ ": ") ++ str_of_nat (length new_warnings)
       ++ of_string " new warning(s) (compared to " ++ parent_short ++ of_string ")")
      :: map (fun w => of_string "    " ++ w) new_warnings
  | [] =>
      [of_string ("- Building with " +:+ cfg +:+ ": no new warnings (compared to ")
       ++ parent_short ++ of_string ")"]
  end.

(** The list [lines] of [generate_test_blurb] before it is joined. *)
Definition blurb_lines (parent_short : str) (allmod_new allyesconfig_new : list str)
    (boot_ok : bool) (uname_output : str) (commit_count : Z) : list str :=
  let header :=
    if (1 <? commit_count)%Z
    then of_string "This patch and those between it and " ++ parent_short
         ++ of_string " were tested by:"
    else of_string "This patch was tested by:" in
  let lines := [header] in
  let lines :=
    foldl (fun lines cn => lines ++ blurb_section parent_short cn.1 cn.2) lines
      [("allmodconfig"%string, allmod_new); ("allyesconfig"%string, allyesconfig_new)] in
  if boot_ok then
    let lines := lines ++ [of_string "- Booting defconfig kernel via vng: OK"] in
    if uname_output is [] then lines
    else lines ++ [of_string "  uname -a: " ++ uname_output]
  else lines ++ [of_string "- Booting defconfig kernel via vng: FAILED"].

(** [generate_test_blurb]. *)
Definition generate_test_blurb (parent_short : str) (allmod_new allyesconfig_new : list str)
    (boot_ok : bool) (uname_output : str) (commit_count : Z) : str :=
  join_lines (blurb_lines parent_short allmod_new allyesconfig_new boot_ok
                uname_output commit_count) ++ NL.

(** A text without a line boundary, and a line that starts with the four
    blanks put before a warning. *)
Definition line_free (s : str) : Prop := Forall (fun c => is_linebreak c = false) s.

Definition indented (l : str) : bool :=
  match l with
  | 32 :: 32 :: 32 :: 32 :: _ => true
  | _ => false
  end.

(** [deque(..., maxlen=n)]: an item is appended at the right, and the
    oldest ones go once more than [n] are held. *)
Definition deque_append (n : nat) (d : list str) (x : str) : list str :=
  let d := d ++ [x] in
  drop (length d - n) d.

(** The lines [_show_log_tail] prints after the path, for a log with the
    text [text]: [deque((l.rstrip() for l in fh if l.strip()), maxlen=n)]. *)
Definition log_tail (n : nat) (text : str) : list str :=
  foldl (deque_append n) []
    (rstrip <$> filter (fun l => negb (bool_decide (strip l = []))) (readlines text)).

(** ** Complete jobs *)

(** The calls that start a process and wait for it themselves. *)
Definition is_job (o : op) : bool :=
  match o with
  | OpRunAndLog _ _ _ | OpBuildConfig _ _ _ | OpVngBoot _ | OpBootTest _ _ => true
  | _ => false
  end.

(** Whether a call returned, rather than raised. *)
Definition returned {A} (r : res A * world) : bool :=
  match r.1 with Ok _ => true | Raise _ => false end.

Definition op_returns (E : env) (o : op) (w : world) : bool :=
  match o with
  | OpSpawn cmd cwd => returned (_spawn cmd cwd w)
  | OpReap h => returned (_reap E h w)
  | OpRunAndLog cmd log cwd => returned (run_and_log E cmd log cwd w)
  | OpBuildConfig l k c => returned (build_config E l k c w)
  | OpVngBoot k => returned (_run_vng_boot E k w)
  | OpBootTest l k => returned (boot_test E l k w)
  | OpSigint => returned (_sigint_handler w)
  end.

(** Every call of a history returns. *)
Fixpoint all_return (E : env) (ops : list op) (w : world) : bool :=
  match ops with
  | [] => true
  | o :: rest => op_returns E o w && all_return E rest (do_op E o w)
  end.

(** Both registries hold every entry once, and only handles and pids
    already given out. *)
Definition regs_ok (w : world) : Prop :=
  reg_ok w
  /\ NoDup (child_pids w) /\ Forall (fun p => (p < next_id w)%nat) (child_pids w).

(** The world [w] has the registries and the flag of [w0]. *)
Definition regs_kept (w0 w : world) : Prop :=
  regs_ok w /\ child_procs w = child_procs w0 /\ child_pids w = child_pids w0
  /\ shutdown w = shutdown w0.

(** What the loop over the commands writes to the log when the first
    process it starts has the handle [h]. *)
Fixpoint commands_text (E : env) (h : nat) (commands : list (list string)) : str :=
  match commands with
  | [] => []
  | cmd :: rest =>
      cmd_text cmd ++ concat (pr_lines (run_of E h))
      ++ (if (pr_rc (run_of E h) =? 0)%Z then commands_text E (S h) rest else [])
  end.

(** The header lines of the two kinds of log. *)
Definition build_header (log_path kernel_dir config_name : string) : str :=
  header_text ["build-log mode"; "log=" +:+ log_path;
               "kernel_dir=" +:+ kernel_dir; "config=" +:+ config_name]%string.

Definition boot_header (log_path kernel_dir : string) : str :=
  header_text ["boot-check mode"; "log=" +:+ log_path;
               "kernel_dir=" +:+ kernel_dir]%string.

(** The new warnings of a configuration, from the two logs as they are in
    the files [fs]. *)
Definition new_warnings (P : paths) (fs : gmap string (list N)) (cfg : string) : list str :=
  compare_warnings (default [] (fs !! baseline_log P cfg))
                   (default [] (fs !! candidate_log P cfg)).

(** What the loop over the futures shows for a build job with the code
    [rc] whose log is there. *)
Definition build_report (label log : string) (rc : Z) : list event :=
  if (rc =? 0)%Z then [EchoBuildDone label]
  else [EchoBuildFailed label; ShowLogTail log].

(** The futures of a run in which every build job returned 0. *)
Definition builds_passed (futures : list (string * future)) : Prop :=
  Forall (fun lf => lf.1 = "boot"%string \/ lf.2 = FutInt 0) futures.

(** ** Worktrees *)

(** What the file system and git answer: the directory the [n]-th call of
    [tempfile.mkdtemp] makes; for [git worktree add] on a directory and a
    revision, nothing when it exits with 0 and its standard error when it
    fails; the code [git worktree remove --force] returns. *)
Record git_env : Type := GitEnv {
  mkdtemp : nat -> string;
  worktree_add : string -> string -> option (list N);
  worktree_remove : string -> Z
}.

(** What [git_worktree] does, in order. *)
Inductive wt_call : Type :=
| Mkdtemp (wt : string)
| WorktreeAdd (wt rev : string)
| WorktreeRmtree (wt : string)     (* shutil.rmtree(wt, ignore_errors=True) *)
| WorktreeRemove (wt : string)
| WorktreeWarn (wt : string).      (* the warning that [wt] was not removed *)

Record wt_state : Type := WtState {
  wt_calls : list wt_call;         (* oldest first *)
  wt_made : nat                    (* the calls of mkdtemp so far *)
}.

Inductive wt_exn : Type :=
| ClickException (msg : list N)
| Propagated (e : exn).

Inductive wt_res (A : Type) : Type :=
| WtOk (a : A)
| WtRaise (e : wt_exn).
Arguments WtOk {A} a.
Arguments WtRaise {A} e.

Definition lift_res {A} (r : res A) : wt_res A :=
  match r with
  | Ok a => WtOk a
  | Raise e => WtRaise (Propagated e)
  end.

(** The message of the exception [git_worktree] raises. *)
Definition add_failure_msg (rev : string) (stderr : str) : str :=
  let msg := of_string ("failed to create worktree for " +:+ rev) in
  if stderr is [] then msg else msg ++ NL ++ strip stderr.

(** [git_worktree] up to its [yield]: what entering the context does. *)
Definition git_worktree_enter (G : git_env) (rev : string) (s : wt_state)
    : wt_res string * wt_state :=
  let wt := mkdtemp G (wt_made s) in
  let calls := wt_calls s ++ [Mkdtemp wt; WorktreeAdd wt rev] in
  match worktree_add G wt rev with
  | None => (WtOk wt, WtState calls (S (wt_made s)))
  | Some stderr =>
      (WtRaise (ClickException (add_failure_msg rev stderr)),
       WtState (calls ++ [WorktreeRmtree wt]) (S (wt_made s)))
  end.

(** [git_worktree] after its [yield]: the [finally] that runs when the
    context is left, in whatever way. *)
Definition git_worktree_exit (G : git_env) (wt : string) (s : wt_state) : wt_state :=
  let calls := wt_calls s ++ [WorktreeRemove wt] in
  if (worktree_remove G wt =? 0)%Z then WtState calls (wt_made s)
  else WtState (calls ++ [WorktreeWarn wt]) (wt_made s).

(** The calls of [stack.enter_context] in [main], in order: [stack] holds
    the contexts entered so far, the latest first. *)
Fixpoint enter_worktrees (G : git_env) (revs : list string) (stack : list string)
    (s : wt_state) : wt_res (list string) * list string * wt_state :=
  match revs with
  | [] => (WtOk [], stack, s)
  | rev :: rest =>
      match git_worktree_enter G rev s with
      | (WtOk wt, s1) =>
          match enter_worktrees G rest (wt :: stack) s1 with
          | (WtOk wts, stack', s2) => (WtOk (wt :: wts), stack', s2)
          | (WtRaise e, stack', s2) => (WtRaise e, stack', s2)
          end
      | (WtRaise e, s1) => (WtRaise e, stack, s1)
      end
  end.

(** Leaving the [ExitStack]: the contexts are left, the latest first. *)
Definition exit_stack (G : git_env) (stack : list string) (s : wt_state) : wt_state :=
  foldl (fun s wt => git_worktree_exit G wt s) s stack.

(** The revisions of the five worktrees, in the order they are made. *)
Definition worktree_revs (baseline : string) : list string :=
  flat_map (fun _ : string => [baseline; "HEAD"%string]) WARN_CONFIGS ++ ["HEAD"%string].

(** The block [with ExitStack() as stack] of [main]: [body] is what runs
    once the five worktrees are there, given their directories. *)
Definition with_worktrees {A} (G : git_env) (baseline : string)
    (body : list string -> M A) (s : wt_state) (w : world)
    : wt_res A * wt_state * world :=
  match enter_worktrees G (worktree_revs baseline) [] s with
  | (WtOk wts, stack, s1) =>
      let r := body wts w in
      (lift_res r.1, exit_stack G stack s1, r.2)
  | (WtRaise e, stack, s1) => (WtRaise e, exit_stack G stack s1, w)
  end.

(** The directories made for [revs] when [n] were made before, each with
    its revision, and the calls that make and that remove worktrees. *)
Fixpoint worktree_dirs (G : git_env) (n : nat) (revs : list string)
    : list (string * string) :=
  match revs with
  | [] => []
  | rev :: rest => (mkdtemp G n, rev) :: worktree_dirs G (S n) rest
  end.

Definition enter_calls (wr : list (string * string)) : list wt_call :=
  flat_map (fun p => [Mkdtemp p.1; WorktreeAdd p.1 p.2]) wr.

Definition exit_calls (G : git_env) (wts : list string) : list wt_call :=
  flat_map (fun wt => WorktreeRemove wt
                      :: (if (worktree_remove G wt =? 0)%Z then [] else [WorktreeWarn wt]))
    wts.

(** A git in which the third worktree cannot be made and the first cannot
    be removed. *)
Definition ex_git : git_env :=
  GitEnv (fun n => "/src/patchlint-" +:+ NilZero.string_of_uint (Nat.to_uint n))
         (fun wt _ => if String.eqb wt "/src/patchlint-2"
                      then Some (of_string "fatal: invalid reference: v0" ++ NL)
                      else None)
         (fun wt => if String.eqb wt "/src/patchlint-0" then 1%Z else 0%Z).

(** * Part II: the matcher *)

Section Matcher.
Context {A : Type}.
Implicit Types (k : cursor -> option A) (r : re) (c : cursor).

(** Whatever a match attempt returns was returned by its continuation, at a
    cursor that is no further back than where the attempt started. *)
Lemma star_loop_some p (k : bool -> str -> option A) b s v :
  star_loop p k b s = Some v ->
  exists b' s', k b' s' = Some v /\ (length s' <= length s)%nat.
Proof.
  revert b. induction s as [|x t IH]; intros b H; simpl in H.
  - eauto.
  - destruct (p x).
    + destruct (star_loop p k false t) eqn:E.
      * inversion H; subst. destruct (IH _ E) as (b' & s' & ? & ?).
        exists b', s'. split; [done | simpl; lia].
      * exists b, (x :: t). eauto.
    + exists b, (x :: t). eauto.
Qed.

Lemma exec_some r : forall c k v,
  exec r c k = Some v ->
  exists c', k c' = Some v /\ (length (c_rest c') <= length (c_rest c))%nat.
Proof.
  induction r as [| | |p|p|a IHa b IHb|a IHa b IHb|i a IHa]; intros c k v H; simpl in H.
  - eauto.
  - destruct (c_bol c); [eauto | done].
  - destruct (c_rest c) as [|x [|y t]] eqn:E; [| |done].
    + exists c. by rewrite E.
    + destruct (x =? 10); [|done]. exists c. by rewrite E.
  - destruct (c_rest c) as [|x t] eqn:E; [done|].
    destruct (p x); [|done]. eexists; split; [exact H | simpl; lia].
  - apply star_loop_some in H as (b' & s' & H & Hl).
    eexists; split; [exact H | done].
  - apply IHa in H as (c1 & H & H1). apply IHb in H as (c2 & H & H2).
    exists c2. split; [done | lia].
  - destruct (exec a c k) eqn:E.
    + inversion H; subst. eauto.
    + eauto.
  - apply IHa in H as (c1 & H & H1). eexists; split; [exact H | done].
Qed.

(** The greedy loop stops after the whole run when the rest of the pattern
    succeeds there, or when it can succeed nowhere inside the run. *)
Lemma star_loop_run p (k : bool -> str -> option A) ds rest b :
  Forall (fun x => p x = true) ds ->
  match rest with [] => True | x :: _ => p x = false end ->
  is_Some (k (if ds is [] then b else false) rest)
  \/ (forall b' x t, p x = true -> k b' (x :: t) = None) ->
  star_loop p k b (ds ++ rest) = k (if ds is [] then b else false) rest.
Proof.
  intros Hds Hrest Hk. revert b Hk.
  induction Hds as [|d ds Hd Hds IH]; intros b Hk; simpl.
  - destruct rest as [|x t]; simpl; [done|]. by rewrite Hrest.
  - rewrite Hd. rewrite IH.
    + destruct (k (if ds is [] then false else false) rest) eqn:E.
      * by destruct ds.
      * destruct Hk as [[v Hv]|Hk].
        { destruct ds; simpl in *; congruence. }
        rewrite Hk by done. by destruct ds.
    + destruct Hk as [Hk|Hk]; [left|by right]. by destruct ds.
Qed.

End Matcher.

(** [rejects r x]: no atom of [r] accepts the character [x], and [r] has no
    [$]; such a character stops every attempt like the end of the text. *)
Lemma exec_barrier {A} r x T : rejects r x = true ->
  forall b u caps (k k' : cursor -> option A),
  (forall b s caps, k' (Cursor b (s ++ x :: T) caps) = k (Cursor b s caps)) ->
  exec r (Cursor b (u ++ x :: T) caps) k' = exec r (Cursor b u caps) k.
Proof.
  induction r as [| | |p|p|a IHa b0 IHb|a IHa b0 IHb|i a IHa];
    simpl; intros Hr b u caps k k' Hk.
  - apply Hk.
  - destruct b; [apply Hk | done].
  - done.
  - apply negb_true_iff in Hr.
    destruct u as [|y t]; simpl; [by rewrite Hr|].
    destruct (p y); [apply Hk | done].
  - apply negb_true_iff in Hr. revert b.
    induction u as [|y t IH]; intros b; simpl.
    + rewrite Hr. apply (Hk b []).
    + destruct (p y); [|apply (Hk b (y :: t))].
      rewrite IH. destruct (star_loop _ _ _ t); [done|]. apply (Hk b (y :: t)).
  - apply andb_true_iff in Hr as [Ha Hb].
    apply IHa; [done|]. intros. by apply IHb.
  - apply andb_true_iff in Hr as [Ha Hb].
    rewrite (IHa Ha b u caps k k' Hk), (IHb Hb b u caps k k' Hk). done.
  - apply IHa; [done|]. intros b1 s caps1. simpl.
    replace (consumed (u ++ x :: T) (s ++ x :: T)) with (consumed u s); [apply Hk|].
    unfold consumed. rewrite !length_app. simpl.
    replace (length u + S (length T) - (length s + S (length T)))%nat
      with (length u - length s)%nat by lia.
    rewrite take_app_le by lia. done.
Qed.

Lemma match_at_barrier r x T b u :
  rejects r x = true -> match_at r b (u ++ x :: T) = match_at r b u.
Proof.
  intros Hr. unfold match_at. apply exec_barrier; [done|].
  intros b' s caps. simpl. rewrite !length_app. simpl. do 2 f_equal. lia.
Qed.

Lemma match_at_length r b s n caps :
  match_at r b s = Some (n, caps) -> (n <= length s)%nat.
Proof.
  unfold match_at. intros H. apply exec_some in H as (c' & H & _).
  inversion H. lia.
Qed.

Lemma match_at_rejected r x T b :
  rejects r x = true -> match_at r b [] = None -> match_at r b (x :: T) = None.
Proof. intros Hr H. rewrite <- H. apply (match_at_barrier r x T b [] Hr). Qed.

(** ** Substitution scans *)

Section Scan.
Variables (r : re) (tpl : list tpl_item).

Lemma sub_scan_cons b x t :
  sub_scan r tpl 0 b (x :: t)
  = match match_at r b (x :: t) with
    | Some (O, caps) => expand tpl caps ++ x :: sub_scan r tpl 0 false t
    | Some (S n, caps) => expand tpl caps ++ sub_scan r tpl n false t
    | None => x :: sub_scan r tpl 0 false t
    end.
Proof. reflexivity. Qed.

Lemma sub_scan_skip m rest b :
  sub_scan r tpl (length m) b (m ++ rest)
  = sub_scan r tpl 0 (if m is [] then b else false) rest.
Proof.
  revert b. induction m as [|x m IH]; intros b; simpl; [done|].
  rewrite IH. by destruct m.
Qed.

Lemma sub_scan_dead mid T b :
  Forall (dead r) mid ->
  sub_scan r tpl 0 b (mid ++ T)
  = mid ++ sub_scan r tpl 0 (if mid is [] then b else false) T.
Proof.
  intros H. revert b. induction H as [|x mid Hx _ IH]; intros b; simpl; [done|].
  rewrite Hx, IH. by destruct mid.
Qed.

(** Where the pattern matches nowhere the text is returned as it is. *)
Lemma sub_scan_nomatch s b :
  search_from r b s = false -> sub_scan r tpl 0 b s = s.
Proof.
  revert b. induction s as [|x t IH]; intros b; simpl.
  - by destruct (match_at r b []).
  - destruct (match_at r b (x :: t)); [done|]. intros H. by rewrite IH.
Qed.

Hypothesis no_empty : forall b, match_at r b [] = None.

Lemma rejected_dead x : rejects r x = true -> dead r x.
Proof. intros H b t. by apply match_at_rejected. Qed.

(** A rejected character splits the scan in two independent scans. *)
Lemma sub_scan_split x T P : rejects r x = true ->
  forall k b, (k <= length P)%nat ->
  sub_scan r tpl k b (P ++ x :: T)
  = sub_scan r tpl k b P
    ++ sub_scan r tpl 0 (if P is [] then b else false) (x :: T).
Proof.
  intros Hx. induction P as [|c P' IH]; intros k b Hk.
  - assert (k = 0%nat) as -> by (simpl in Hk; lia).
    change (sub_scan r tpl 0 b []) with
      (match match_at r b [] with Some (_, caps) => expand tpl caps | None => [] end).
    by rewrite no_empty.
  - destruct k as [|n].
    + change ((c :: P') ++ x :: T) with (c :: (P' ++ x :: T)).
      cbn [sub_scan].
      change (c :: (P' ++ x :: T)) with ((c :: P') ++ x :: T).
      rewrite (match_at_barrier r x T b (c :: P') Hx).
      destruct (match_at r b (c :: P')) as [[[|n] caps]|] eqn:E.
      * rewrite IH by lia. rewrite <- !app_assoc. simpl. by destruct P'.
      * apply match_at_length in E. simpl in E.
        rewrite IH by lia. rewrite <- !app_assoc. by destruct P'.
      * rewrite IH by lia. simpl. by destruct P'.
    + simpl in *. rewrite IH by lia. by destruct P'.
Qed.

End Scan.

(** * Sorting and the comparison of two logs *)

Lemma str_leb_total a b : str_leb a b = true \/ str_leb b a = true.
Proof.
  revert b. induction a as [|x a IH]; intros [|y b]; simpl; auto.
  destruct (N.ltb_spec x y), (N.ltb_spec y x); simpl; auto; try lia.
  assert (x = y) as -> by lia. rewrite N.eqb_refl. simpl. apply IH.
Qed.

Lemma str_leb_trans a b c :
  str_leb a b = true -> str_leb b c = true -> str_leb a c = true.
Proof.
  revert b c. induction a as [|x a IH]; intros [|y b] [|z c]; simpl; auto; try done.
  rewrite !orb_true_iff, !andb_true_iff, !N.ltb_lt, !N.eqb_eq.
  intros [?|[-> ?]] [?|[-> ?]]; try (left; lia); eauto.
Qed.

Lemma str_leb_antisym a b :
  str_leb a b = true -> str_leb b a = true -> a = b.
Proof.
  revert b. induction a as [|x a IH]; intros [|y b]; simpl; auto; try done.
  rewrite !orb_true_iff, !andb_true_iff, !N.ltb_lt, !N.eqb_eq.
  intros [?|[-> ?]] [?|[? ?]]; try lia. f_equal. auto.
Qed.

Global Instance str_le_total : Total str_le.
Proof. intros a b. apply str_leb_total. Qed.

Global Instance str_le_trans : Transitive str_le.
Proof. intros a b c. apply str_leb_trans. Qed.

Global Instance str_le_antisym : AntiSymm (=) str_le.
Proof. intros a b. apply str_leb_antisym. Qed.

(** [sorted] lists a set in increasing order, each member once. *)
Lemma sorted_elem (X : gset (list N)) w : w ∈ sorted X <-> w ∈ X.
Proof. unfold sorted. rewrite merge_sort_Permutation. apply elem_of_elements. Qed.

Lemma sorted_NoDup (X : gset (list N)) : NoDup (sorted X).
Proof. unfold sorted. rewrite merge_sort_Permutation. apply NoDup_elements. Qed.

Lemma sorted_Sorted (X : gset (list N)) : Sorted str_le (sorted X).
Proof. apply (Sorted_merge_sort str_le). Qed.

Lemma sorted_to_set (X : gset (list N)) : list_to_set (sorted X) = X.
Proof. apply set_eq. intros w. rewrite elem_of_list_to_set. apply sorted_elem. Qed.

Lemma sorted_empty : sorted ∅ = [].
Proof. reflexivity. Qed.

(** [sorted X] is the only sorted duplicate-free listing of [X]. *)
Lemma sorted_unique (X : gset (list N)) l :
  Sorted str_le l -> NoDup l -> (forall w, w ∈ l <-> w ∈ X) -> l = sorted X.
Proof.
  intros Hs Hn Hl. apply (Sorted_unique str_le); [done | apply sorted_Sorted |].
  apply NoDup_Permutation; [done | apply sorted_NoDup |].
  intros w. by rewrite Hl, sorted_elem.
Qed.

(** The loop of [extract_normalized_warnings] collects the normalised form
    of every line that passes the test. *)
Lemma warning_set_fold lines acc :
  foldl (fun out raw =>
           if is_warning raw then {[ normalize_warning_line raw ]} ∪ out
           else out) acc lines
  = warning_records lines ∪ acc.
Proof.
  unfold warning_records. revert acc.
  induction lines as [|raw lines IH]; intros acc.
  - simpl. by rewrite (left_id_L ∅ (∪)).
  - cbn [foldl]. rewrite IH, filter_cons.
    destruct (is_warning raw) eqn:E.
    + rewrite decide_True by done. rewrite fmap_cons, list_to_set_cons.
      apply set_eq. intros w. rewrite !elem_of_union. tauto.
    + rewrite decide_False by done. done.
Qed.

Lemma warning_set_records lines : warning_set lines = warning_records lines.
Proof. unfold warning_set. rewrite warning_set_fold. apply (right_id_L ∅ (∪)). Qed.

Lemma elem_of_warning_records lines w :
  w ∈ warning_records lines
  <-> exists raw, raw ∈ lines /\ is_warning raw = true /\ w = normalize_warning_line raw.
Proof.
  unfold warning_records. rewrite elem_of_list_to_set, list_elem_of_fmap.
  split.
  - intros (raw & -> & H). apply list_elem_of_filter in H as [H1 H2].
    exists raw. split; [done|]. split; [|done]. by destruct (is_warning raw).
  - intros (raw & H1 & H2 & ->). exists raw. split; [done|].
    apply list_elem_of_filter. split; [|done]. by rewrite H2.
Qed.

(** C4: [compare_warnings] returns the sorted listing of the set difference
    between the candidate's and the baseline's normalised warning records: it
    is sorted and free of duplicates, its members are the records of the
    candidate that are not records of the baseline, no record of the baseline
    is among them, and it is empty when every record of the candidate is a
    record of the baseline. *)
Theorem compare_warnings_is_sorted_difference (baseline candidate : list N) :
  let B := warning_records (readlines baseline) in
  let C := warning_records (readlines candidate) in
  compare_warnings baseline candidate = sorted (C ∖ B)
  /\ Sorted str_le (compare_warnings baseline candidate)
  /\ NoDup (compare_warnings baseline candidate)
  /\ (forall w, w ∈ compare_warnings baseline candidate <-> w ∈ C /\ w ∉ B)
  /\ (forall w, w ∈ B -> w ∉ compare_warnings baseline candidate)
  /\ (C ⊆ B -> compare_warnings baseline candidate = []).
Proof.
  intros B C.
  assert (compare_warnings baseline candidate = sorted (C ∖ B)) as E.
  { unfold compare_warnings, extract_normalized_warnings.
    by rewrite !sorted_to_set, !warning_set_records. }
  rewrite E. split; [done|].
  split; [apply sorted_Sorted|]. split; [apply sorted_NoDup|].
  split; [|split].
  - intros w. by rewrite sorted_elem, elem_of_difference.
  - intros w Hw. rewrite sorted_elem, elem_of_difference. tauto.
  - intros Hsub. replace (C ∖ B) with (∅ : gset (list N)); [apply sorted_empty|].
    apply set_eq. intros w. rewrite elem_of_difference. split.
    + intros Hw. by apply not_elem_of_empty in Hw.
    + intros [Hc Hb]. destruct Hb. by apply Hsub.
Qed.

(** * Character classes *)

Ltac bools :=
  repeat match goal with
  | H : (_ && _) = true |- _ => apply andb_true_iff in H; destruct H
  | H : (_ || _) = true |- _ => apply orb_true_iff in H; destruct H
  | H : negb _ = true |- _ => apply negb_true_iff in H
  | H : (_ <=? _) = true |- _ => apply N.leb_le in H
  | H : (_ <? _) = true |- _ => apply N.ltb_lt in H
  | H : (_ =? _) = true |- _ => apply N.eqb_eq in H
  | H : (_ <=? _) = false |- _ => apply N.leb_gt in H
  | H : (_ <? _) = false |- _ => apply N.ltb_ge in H
  | H : (_ =? _) = false |- _ => apply N.eqb_neq in H
  | H : (_ && _) = false |- _ => apply andb_false_iff in H; destruct H
  | H : (_ || _) = false |- _ => apply orb_false_iff in H; destruct H
  end.

(** Decides a goal [q c = false] or [q c = true] from hypotheses on the
    classes [c] belongs to. *)
Ltac class :=
  unfold is_nonspace, is_dot, is_ansi_param, is_digit09, is_alpha, is_space,
    is_chr, ci_chr, inb, ESC in *;
  match goal with
  | |- ?X = false => destruct X eqn:?; [exfalso; bools; lia | reflexivity]
  | |- ?X = true => destruct X eqn:?; [reflexivity | exfalso; bools; lia]
  | |- _ => bools; lia
  end.

Lemma alpha_not_param c : is_alpha c = true -> is_ansi_param c = false.
Proof. intros. class. Qed.

Lemma digit_not_space c : is_digit09 c = true -> is_space c = false.
Proof. intros. class. Qed.

Lemma digit_not_colon c : is_digit09 c = true -> c <> 58.
Proof. intros. class. Qed.

Lemma ci_colon c : ci_chr 58 c = true <-> c = 58.
Proof.
  split; [intros; class | intros ->; reflexivity].
Qed.

(** * ANSI sequences *)

Lemma ansi_no_empty b : match_at ANSI_RE b [] = None.
Proof. reflexivity. Qed.

Lemma ansi_dead c : c <> ESC -> dead ANSI_RE c.
Proof.
  intros Hc b t. unfold match_at, ANSI_RE. simpl.
  replace (is_chr ESC c) with false; [done|]. symmetry. class.
Qed.

Lemma ansi_match_seq b params final rest :
  Forall (fun x => is_ansi_param x = true) params -> is_alpha final = true ->
  match_at ANSI_RE b (ESC :: 91 :: params ++ final :: rest)
  = Some (S (length (91 :: params ++ [final])), []).
Proof.
  intros Hp Hf. unfold match_at, ANSI_RE. simpl.
  rewrite star_loop_run; [| done | by apply alpha_not_param |].
  - simpl. rewrite Hf. do 3 f_equal. rewrite !length_app. simpl. lia.
  - left. simpl. by rewrite Hf.
Qed.

Lemma ansi_scan_with_ansi raw clean :
  with_ansi raw clean -> forall b, sub_scan ANSI_RE [] 0 b raw = clean.
Proof.
  induction 1 as [|c raw clean Hc _ IH|params final raw clean Hp Hf _ IH]; intros b.
  - reflexivity.
  - cbn [sub_scan]. rewrite (ansi_dead c Hc b raw). by rewrite IH.
  - cbn [sub_scan]. rewrite ansi_match_seq by done.
    pose proof (sub_scan_skip ANSI_RE [] (91 :: params ++ [final]) raw false) as Hs.
    rewrite <- app_comm_cons, <- app_assoc in Hs. simpl in Hs.
    simpl. rewrite Hs. apply IH.
Qed.

Lemma ansi_strip_with_ansi raw clean : with_ansi raw clean -> ansi_strip raw = clean.
Proof. intros H. by apply ansi_scan_with_ansi. Qed.

Lemma with_ansi_clean raw clean : with_ansi raw clean -> Forall (fun c => c <> ESC) clean.
Proof. induction 1; auto. Qed.

Lemma with_ansi_refl s : Forall (fun c => c <> ESC) s -> with_ansi s s.
Proof. induction 1; constructor; auto. Qed.

(** Text without the escape character is left as it is. *)
Lemma ansi_strip_plain s : Forall (fun c => c <> ESC) s -> ansi_strip s = s.
Proof. intros H. by apply ansi_strip_with_ansi, with_ansi_refl. Qed.

(** C10: a line is classified on its ANSI-stripped copy.  When [raw] is a
    line [clean] with ANSI sequences inserted anywhere in it, the test on
    [raw] is the diagnostic pattern searched in [clean], the normal forms of
    [raw] and [clean] agree, and if the pattern is found in [clean] then the
    normal form of [raw] is among the extracted warnings of every log that
    has the line [raw]. *)
Theorem ansi_interleaved_warning_extracted raw clean :
  with_ansi raw clean ->
  is_warning raw = re_search COMPILER_WARNING_RE clean
  /\ is_warning raw = is_warning clean
  /\ normalize_warning_line raw = normalize_warning_line clean
  /\ (forall lines, re_search COMPILER_WARNING_RE clean = true -> raw ∈ lines ->
        normalize_warning_line raw ∈ extract_normalized_warnings lines).
Proof.
  intros H.
  pose proof (ansi_strip_with_ansi _ _ H) as E.
  pose proof (ansi_strip_plain _ (with_ansi_clean _ _ H)) as E'.
  unfold is_warning, normalize_warning_line. rewrite E, E'.
  repeat split.
  intros lines Hs Hin. unfold extract_normalized_warnings.
  rewrite sorted_elem, warning_set_records. apply elem_of_warning_records.
  exists raw. unfold is_warning, normalize_warning_line. by rewrite E.
Qed.

(** * Whitespace *)

Lemma ws_no_empty b : match_at WS_RE b [] = None.
Proof. reflexivity. Qed.

Lemma ws_dead c : is_space c = false -> dead WS_RE c.
Proof. intros Hc b t. unfold match_at, WS_RE. simpl. by rewrite Hc. Qed.

(** A run of blanks is matched whole. *)
Lemma ws_match_run b c ds rest :
  is_space c = true -> Forall (fun x => is_space x = true) ds ->
  match rest with [] => True | x :: _ => is_space x = false end ->
  match_at WS_RE b (c :: ds ++ rest) = Some (S (length ds), []).
Proof.
  intros Hc Hds Hrest. unfold match_at, WS_RE. simpl. rewrite Hc.
  rewrite star_loop_run; [| done | done | by left].
  do 3 f_equal. rewrite length_app. lia.
Qed.

Lemma rstrip_blanks_single s : blanks_single s = true -> rstrip s = s.
Proof.
  induction s as [|c t IH]; [done|]. simpl. intros H.
  apply andb_true_iff in H as [Hc Ht]. rewrite (IH Ht).
  destruct t as [|d t']; [|done].
  destruct (is_space c); [|done]. by rewrite andb_false_r in Hc.
Qed.

Lemma ws_scan_blanks_single s :
  blanks_single s = true ->
  forall b, sub_scan WS_RE [TLit (of_string " ")] 0 b s = s.
Proof.
  induction s as [|c t IH]; [done|]. intros H b.
  cbn [blanks_single] in H. apply andb_true_iff in H as [Hc Ht].
  destruct (is_space c) eqn:Ec.
  - apply andb_true_iff in Hc as [Hc Hd]. apply N.eqb_eq in Hc. subst c.
    destruct t as [|d t']; [done|]. apply negb_true_iff in Hd.
    pose proof (ws_match_run b 32 [] (d :: t') eq_refl (Forall_nil_2 _) Hd) as Hm.
    simpl in Hm. rewrite sub_scan_cons, Hm. cbv iota beta. rewrite (IH Ht). reflexivity.
  - cbn [sub_scan]. rewrite (ws_dead c Ec b t). by rewrite (IH Ht).
Qed.

(** A settled line is a fixed point of the normalisation. *)
Lemma normalize_settled y : settled y -> normalize_warning_line y = y.
Proof.
  intros (Ha & Hb & Hd & Hc & Hl).
  unfold normalize_warning_line, normalize_plain, ansi_strip, re_sub.
  rewrite (sub_scan_nomatch _ _ _ _ Ha).
  rewrite (ws_scan_blanks_single _ Hb), (rstrip_blanks_single _ Hb).
  rewrite (sub_scan_nomatch _ _ _ _ Hd).
  rewrite (sub_scan_nomatch _ _ _ _ Hc).
  by rewrite (sub_scan_nomatch _ _ _ _ Hl).
Qed.

(** * The marker and the location patterns *)

Arguments ci_chr : simpl never.
Arguments is_chr : simpl never.
Arguments is_space : simpl never.
Arguments is_digit09 : simpl never.
Arguments lit_ci : simpl never.
Arguments MARKER : simpl never.

(** Unfolds the matcher on the pattern, not the classes or the literals. *)
Ltac ex := cbn [exec cat foldr star_loop Opt c_rest c_bol c_caps].

Lemma consumed_app (u v : list N) : consumed (u ++ v) v = u.
Proof.
  unfold consumed. rewrite length_app.
  replace (length u + length v - length v)%nat with (length u) by lia.
  by rewrite take_app_length.
Qed.

(** A sequence of one-character atoms consumes a text they accept. *)
Lemma exec_chars {A} (ps : list (N -> bool)) (m : list N) :
  Forall2 (fun p c => p c = true) ps m ->
  forall b rest caps (k : cursor -> option A),
  exec (cat (map Chr ps)) (Cursor b (m ++ rest) caps) k
  = k (Cursor (if m is [] then b else false) rest caps).
Proof.
  induction 1 as [|p c ps m Hp _ IH]; intros b rest caps k; [done|].
  cbn [map app]. ex. rewrite Hp. rewrite IH. by destruct m.
Qed.

Lemma marker_word_chars mk :
  marker_word mk ->
  Forall2 (fun p c => p c = true) (map ci_chr (of_string "warning:")) mk.
Proof. intros H. by apply Forall2_fmap_l. Qed.

Lemma exec_lit_ci {A} mk b rest caps (k : cursor -> option A) :
  marker_word mk ->
  exec (lit_ci "warning:") (Cursor b (mk ++ rest) caps) k
  = k (Cursor false rest caps).
Proof.
  intros H. unfold lit_ci. rewrite <- (map_map ci_chr Chr).
  rewrite exec_chars by by apply marker_word_chars.
  destruct mk; [inversion H | done].
Qed.

Lemma exec_lit_ci_fail {A} x t b caps (k : cursor -> option A) :
  ci_chr 119 x = false ->
  exec (lit_ci "warning:") (Cursor b (x :: t) caps) k = None.
Proof.
  intros H. unfold lit_ci.
  change (of_string "warning:") with [119; 97; 114; 110; 105; 110; 103; 58].
  cbn [map]. ex. by rewrite H.
Qed.

(** The characters of the marker word. *)
Lemma ci_chr_wordish x c :
  inb 97 122 x = true -> x <> 115 -> x <> 107 ->
  ci_chr x c = true -> wordish c = true.
Proof. unfold wordish. intros. class. Qed.

Lemma marker_word_split mk :
  marker_word mk ->
  exists body, mk = body ++ [58] /\ body <> []
    /\ Forall (fun c => wordish c = true) body.
Proof.
  unfold marker_word.
  change (of_string "warning:") with [119; 97; 114; 110; 105; 110; 103; 58].
  intros H.
  repeat match goal with
  | H : Forall2 _ (_ :: _) _ |- _ => inversion H; clear H; subst
  | H : Forall2 _ [] _ |- _ => inversion H; clear H; subst
  end.
  match goal with H : ci_chr 58 ?c = true |- _ => apply ci_colon in H; subst end.
  eexists [_; _; _; _; _; _; _]. split; [reflexivity|]. split; [done|].
  repeat constructor;
    (eapply ci_chr_wordish; [| | |eassumption]; done).
Qed.

Lemma wordish_facts c :
  wordish c = true ->
  is_space c = false /\ c <> 58 /\ is_digit09 c = false /\ c <> 46 /\ c <> 47
  /\ ci_chr 58 c = false.
Proof.
  unfold wordish. intros H. repeat split; try class.
  all: intros ->; vm_compute in H; done.
Qed.

Lemma marker_word_head mk :
  marker_word mk -> exists x t, mk = x :: t /\ wordish x = true.
Proof.
  intros H. apply marker_word_split in H as (body & -> & Hne & Hb).
  destruct Hb as [|x body Hx _]; [done|]. by exists x, (body ++ [58]).
Qed.

Lemma marker_exec {A} b w mk rest caps (k : cursor -> option A) :
  Forall (fun c => is_space c = true) w -> marker_word mk ->
  exec MARKER (Cursor b (58 :: w ++ mk ++ rest) caps) k
  = k (Cursor false rest caps).
Proof.
  intros Hw Hmk. unfold MARKER. ex.
  change (is_space 58) with false. cbv iota.
  change (ci_chr 58 58) with true. cbv iota.
  destruct (marker_word_head _ Hmk) as (x & t & E & Hx).
  apply wordish_facts in Hx as (Hx1 & _).
  rewrite star_loop_run; [| done | by rewrite E | ].
  - cbv beta. by rewrite exec_lit_ci.
  - right. intros b' y t' Hy. cbv beta. apply exec_lit_ci_fail. class.
Qed.

Lemma marker_fail {A} b x t caps (k : cursor -> option A) :
  is_space x = false -> x <> 58 ->
  exec MARKER (Cursor b (x :: t) caps) k = None.
Proof.
  intros Hx Hc. unfold MARKER. ex. rewrite Hx.
  replace (ci_chr 58 x) with false; [done|].
  symmetry. apply not_true_is_false. by rewrite ci_colon.
Qed.

(** ** Substitution keeps the characters of the text *)

Section Keeps.
Context {A : Type} (Q : N -> Prop).

Lemma star_loop_keeps p (k : bool -> list N -> option A) b s v :
  star_loop p k b s = Some v -> Forall Q s ->
  exists b' s', k b' s' = Some v /\ Forall Q s'.
Proof.
  revert b. induction s as [|x t IH]; intros b H Hs; cbn [star_loop] in H.
  - eauto.
  - destruct (p x); [|eauto].
    destruct (star_loop p k false t) eqn:E; [|eauto].
    inversion H; subst. apply (IH _ E). by inversion Hs.
Qed.

Lemma exec_keeps r : forall c (k : cursor -> option A) v,
  exec r c k = Some v -> Forall Q (c_rest c) -> caps_ok Q (c_caps c) ->
  exists c', k c' = Some v /\ Forall Q (c_rest c') /\ caps_ok Q (c_caps c').
Proof.
  induction r as [| | |p|p|a IHa b IHb|a IHa b IHb|i a IHa];
    intros c k v H Hr Hc; cbn [exec] in H.
  - eauto.
  - destruct (c_bol c); [eauto | done].
  - assert (k c = Some v) as H'; [|eauto].
    destruct (c_rest c) as [|x [|y t]]; [done | | done].
    by destruct (x =? 10).
  - destruct (c_rest c) as [|x t] eqn:E; [done|].
    destruct (p x); [|done]. eexists; split; [exact H|]. split; [|done].
    simpl. by inversion Hr.
  - apply star_loop_keeps in H as (b' & s' & H & Hs); [|done].
    eexists; split; [exact H|]. by split.
  - apply IHa in H as (c1 & H & H1 & H2); [|done..]. by apply IHb in H.
  - destruct (exec a c k) eqn:E; [|eauto]. inversion H; subst. eauto.
  - apply IHa in H as (c1 & H & H1 & H2); [|done..].
    eexists; split; [exact H|]. split; [done|]. constructor; [|done].
    simpl. unfold consumed. by apply Forall_take.
Qed.

End Keeps.

Lemma match_at_keeps Q r b s n caps :
  match_at r b s = Some (n, caps) -> Forall Q s -> caps_ok Q caps.
Proof.
  unfold match_at. intros H Hs.
  apply (exec_keeps Q) in H as (c' & H & _ & Hc); [|done|constructor].
  by inversion H; subst.
Qed.

Lemma group_keeps Q i caps : caps_ok Q caps -> Forall Q (group i caps).
Proof.
  induction 1 as [|[j g] caps Hg _ IH]; simpl; [constructor|].
  by destruct (Nat.eqb i j).
Qed.

Lemma expand_keeps Q tpl caps : tpl_ok Q tpl -> caps_ok Q caps -> Forall Q (expand tpl caps).
Proof.
  intros Ht Hc. unfold expand.
  induction Ht as [|it tpl Hit _ IH]; simpl; [constructor|].
  apply Forall_app. split; [|done].
  destruct it; [done | by apply group_keeps].
Qed.

Lemma sub_scan_keeps Q r tpl : tpl_ok Q tpl ->
  forall s k b, Forall Q s -> Forall Q (sub_scan r tpl k b s).
Proof.
  intros Ht. induction s as [|x t IH]; intros k b Hs.
  - destruct k; [|constructor]. cbn [sub_scan].
    destruct (match_at r b []) as [[n caps]|] eqn:E; [|constructor].
    apply expand_keeps; [done|]. by apply (match_at_keeps _ _ _ _ _ _ E).
  - inversion Hs as [|? ? Hx Ht']; subst. destruct k as [|k]; [|by apply IH].
    rewrite sub_scan_cons.
    destruct (match_at r b (x :: t)) as [[[|n] caps]|] eqn:E.
    + apply Forall_app. split.
      * apply expand_keeps; [done|]. by apply (match_at_keeps _ _ _ _ _ _ E).
      * constructor; [done | by apply IH].
    + apply Forall_app. split; [|by apply IH].
      apply expand_keeps; [done|]. by apply (match_at_keeps _ _ _ _ _ _ E).
    + constructor; [done | by apply IH].
Qed.

(** ** Numbers *)

Lemma exec_number {A} n rest b caps (k : cursor -> option A) :
  is_number n ->
  match rest with [] => True | x :: _ => is_digit09 x = false end ->
  (forall b' x t, is_digit09 x = true -> k (Cursor b' (x :: t) caps) = None) ->
  exec (Plus is_digit09) (Cursor b (n ++ rest) caps) k = k (Cursor false rest caps).
Proof.
  intros [Hne Hn] Hrest Hk. destruct Hn as [|n0 n Hn0 Hn]; [done|].
  unfold Plus. cbn [app]. ex. rewrite Hn0.
  rewrite star_loop_run; [by destruct n | done | done |].
  right. intros. by apply Hk.
Qed.

Lemma exec_number_fail {A} rest b caps (k : cursor -> option A) :
  match rest with [] => True | x :: _ => is_digit09 x = false end ->
  exec (Plus is_digit09) (Cursor b rest caps) k = None.
Proof.
  intros H. unfold Plus. ex. destruct rest as [|x t]; [done|]. by rewrite H.
Qed.

(** ** The line-and-column pattern *)

Lemma colon_no_empty b : match_at WARNING_LOC_COLON_RE b [] = None.
Proof. reflexivity. Qed.

Lemma colon_dead c : c <> 58 -> dead WARNING_LOC_COLON_RE c.
Proof.
  intros Hc b t. unfold match_at, WARNING_LOC_COLON_RE. ex.
  replace (ci_chr 58 c) with false; [done|].
  symmetry. apply not_true_is_false. by rewrite ci_colon.
Qed.

Lemma colon_fail_short b rest :
  match rest with [] => True | x :: _ => is_digit09 x = false end ->
  match_at WARNING_LOC_COLON_RE b (58 :: rest) = None.
Proof.
  intros H. unfold match_at, WARNING_LOC_COLON_RE. ex.
  change (ci_chr 58 58) with true. cbv iota. by apply exec_number_fail.
Qed.

Lemma colon_fail_line b n rest :
  is_number n ->
  match rest with [] => True | x :: _ => is_digit09 x = false end ->
  match_at WARNING_LOC_COLON_RE b (58 :: n ++ 58 :: rest) = None.
Proof.
  intros Hn H. unfold match_at, WARNING_LOC_COLON_RE. ex.
  change (ci_chr 58 58) with true. cbv iota.
  rewrite exec_number; [| done | reflexivity |].
  - ex. change (ci_chr 58 58) with true. cbv iota. by apply exec_number_fail.
  - intros b' x t Hx. ex. replace (ci_chr 58 x) with false; [done|].
    symmetry. class.
Qed.

Lemma colon_match b n c w mk rest :
  is_number n -> is_number c ->
  Forall (fun x => is_space x = true) w -> marker_word mk ->
  match_at WARNING_LOC_COLON_RE b (58 :: n ++ 58 :: c ++ 58 :: w ++ mk ++ rest)
  = Some (length (58 :: n ++ 58 :: c ++ 58 :: w ++ mk),
          [(2%nat, 58 :: w ++ mk); (1%nat, 58 :: c)]).
Proof.
  intros Hn Hc Hw Hmk. unfold match_at, WARNING_LOC_COLON_RE. ex.
  change (ci_chr 58 58) with true. cbv iota.
  rewrite exec_number; [| done | reflexivity |].
  - ex. change (ci_chr 58 58) with true. cbv iota.
    rewrite exec_number; [| done | reflexivity |].
    + ex. rewrite marker_exec by done. ex.
      replace (58 :: w ++ mk ++ rest) with ((58 :: w ++ mk) ++ rest)
        by (by rewrite <- app_comm_cons, <- app_assoc).
      rewrite consumed_app.
      replace (58 :: c ++ (58 :: w ++ mk) ++ rest)
        with ((58 :: c) ++ (58 :: w ++ mk) ++ rest) by done.
      rewrite consumed_app. do 2 f_equal.
      repeat (cbn [length]; rewrite ?length_app). lia.
    + intros b' x t Hx. ex. apply marker_fail; class.
  - intros b' x t Hx. ex. replace (ci_chr 58 x) with false; [done|].
    symmetry. class.
Qed.

(** ** The line-only pattern *)

Lemma line_no_empty b : match_at WARNING_LOC_LINE_RE b [] = None.
Proof. reflexivity. Qed.

Lemma line_dead c : c <> 58 -> dead WARNING_LOC_LINE_RE c.
Proof.
  intros Hc b t. unfold match_at, WARNING_LOC_LINE_RE. ex.
  replace (ci_chr 58 c) with false; [done|].
  symmetry. apply not_true_is_false. by rewrite ci_colon.
Qed.

Lemma line_fail_short b rest :
  match rest with [] => True | x :: _ => is_digit09 x = false end ->
  match_at WARNING_LOC_LINE_RE b (58 :: rest) = None.
Proof.
  intros H. unfold match_at, WARNING_LOC_LINE_RE. ex.
  change (ci_chr 58 58) with true. cbv iota. by apply exec_number_fail.
Qed.

Lemma line_match b n w mk rest :
  is_number n -> Forall (fun x => is_space x = true) w -> marker_word mk ->
  match_at WARNING_LOC_LINE_RE b (58 :: n ++ 58 :: w ++ mk ++ rest)
  = Some (length (58 :: n ++ 58 :: w ++ mk), [(1%nat, 58 :: w ++ mk)]).
Proof.
  intros Hn Hw Hmk. unfold match_at, WARNING_LOC_LINE_RE. ex.
  change (ci_chr 58 58) with true. cbv iota.
  rewrite exec_number; [| done | reflexivity |].
  - ex. rewrite marker_exec by done. ex.
    replace (58 :: w ++ mk ++ rest) with ((58 :: w ++ mk) ++ rest)
      by (by rewrite <- app_comm_cons, <- app_assoc).
    rewrite consumed_app. do 2 f_equal.
    repeat (cbn [length]; rewrite ?length_app). lia.
  - intros b' x t Hx. ex. apply marker_fail; class.
Qed.

(** * Normal form of a diagnostic line *)

Lemma sub_scan_none r tpl b x t :
  match_at r b (x :: t) = None ->
  sub_scan r tpl 0 b (x :: t) = x :: sub_scan r tpl 0 false t.
Proof. intros H. by rewrite sub_scan_cons, H. Qed.

Lemma sub_scan_dead_false r tpl mid T b :
  Forall (dead r) mid -> mid <> [] ->
  sub_scan r tpl 0 b (mid ++ T) = mid ++ sub_scan r tpl 0 false T.
Proof. intros H Hne. rewrite sub_scan_dead by done. by destruct mid. Qed.

Lemma sub_scan_skip_false r tpl m rest :
  sub_scan r tpl (length m) false (m ++ rest) = sub_scan r tpl 0 false rest.
Proof. rewrite sub_scan_skip. by destruct m. Qed.

Lemma rstrip_app_nonspace u c v :
  is_space c = false -> rstrip (u ++ c :: v) = u ++ c :: rstrip v.
Proof.
  intros Hc. induction u as [|x u IH]; cbn [app rstrip].
  - rewrite Hc. by destruct (rstrip v).
  - rewrite IH. by destruct u.
Qed.

(** ** Blanks and [./] around the location *)

Lemma ws_scan_run ws X b :
  Forall (fun x => is_space x = true) ws ->
  match X with [] => True | x :: _ => is_space x = false end ->
  sub_scan WS_RE [TLit (of_string " ")] 0 b (ws ++ X)
  = blank ws ++ sub_scan WS_RE [TLit (of_string " ")] 0 (if ws is [] then b else false) X.
Proof.
  intros Hws HX. destruct Hws as [|c ws Hc Hws]; [done|].
  cbn [app]. rewrite sub_scan_cons, ws_match_run by done.
  cbv iota. by rewrite sub_scan_skip_false.
Qed.

Lemma dotslash_no_empty b : match_at DOTSLASH_RE b [] = None.
Proof. by destruct b. Qed.

Lemma dotslash_dead c :
  is_space c = false -> c <> 46 -> c <> 47 -> dead DOTSLASH_RE c.
Proof.
  intros H1 H2 H3. apply rejected_dead; [apply dotslash_no_empty|].
  cbn [rejects DOTSLASH_RE cat foldr]. rewrite H1.
  apply N.eqb_neq in H2, H3. unfold is_chr. by rewrite H2, H3.
Qed.

Lemma dotslash_blank c X :
  match X with [] => True | x :: _ => x <> 46 end ->
  match_at DOTSLASH_RE false (c :: X) = None.
Proof.
  intros Hx. unfold match_at, DOTSLASH_RE. ex.
  destruct (is_space c); [|done]. destruct X as [|x t]; [done|].
  apply N.eqb_neq in Hx. unfold is_chr. by rewrite Hx.
Qed.

Lemma ws_dead_inert mid :
  Forall (fun c => is_digit09 c = true \/ c = 58) mid -> Forall (dead WS_RE) mid.
Proof.
  intros Hm. eapply Forall_impl; [exact Hm|].
  intros c [H| ->]; apply ws_dead; [class | reflexivity].
Qed.

Lemma dotslash_dead_inert mid :
  Forall (fun c => is_digit09 c = true \/ c = 58) mid -> Forall (dead DOTSLASH_RE) mid.
Proof.
  intros Hm. eapply Forall_impl; [exact Hm|].
  intros c [H| ->]; apply dotslash_dead; try done; class.
Qed.

Lemma wordish_dead body :
  Forall (fun c => wordish c = true) body ->
  Forall (dead WS_RE) body /\ Forall (dead DOTSLASH_RE) body
  /\ Forall (dead WARNING_LOC_COLON_RE) body /\ Forall (dead WARNING_LOC_LINE_RE) body.
Proof.
  intros H. repeat split; eapply Forall_impl; try exact H;
    intros c Hc; apply wordish_facts in Hc as (? & ? & ? & ? & ? & ?).
  - by apply ws_dead.
  - by apply dotslash_dead.
  - by apply colon_dead.
  - by apply line_dead.
Qed.

(** The steps before the location patterns leave the location where it is
    and make one blank of the run before the marker word. *)
Lemma plain_steps P mid ws body R :
  Forall (fun c => is_digit09 c = true \/ c = 58) mid ->
  Forall (fun x => is_space x = true) ws ->
  body <> [] -> Forall (fun c => wordish c = true) body ->
  re_sub DOTSLASH_RE [TRef 1]
    (rstrip (re_sub WS_RE [TLit (of_string " ")]
               (P ++ 58 :: mid ++ ws ++ body ++ 58 :: R)))
  = plain_head P ++ 58 :: mid ++ blank ws ++ body ++ 58 :: plain_tail R.
Proof.
  intros Hmid Hws Hne Hbody.
  destruct (wordish_dead _ Hbody) as (Hb1 & Hb2 & _).
  assert (exists x t, body = x :: t /\ wordish x = true) as (x & t & Eb & Hx).
  { destruct Hbody; [done|]. eauto. }
  apply wordish_facts in Hx as (Hx1 & _ & _ & Hx4 & _).
  unfold re_sub at 2.
  rewrite sub_scan_split; [| apply ws_no_empty | reflexivity | lia].
  change (58 :: mid ++ ws ++ body ++ 58 :: R)
    with ((58 :: mid) ++ ws ++ body ++ 58 :: R).
  rewrite sub_scan_dead_false;
    [| constructor; [by apply ws_dead | by apply ws_dead_inert] | done].
  rewrite ws_scan_run; [| done | by rewrite Eb].
  rewrite sub_scan_dead_false by done.
  rewrite (sub_scan_none _ _ _ 58) by by apply ws_dead.
  (* rstrip *)
  replace (sub_scan WS_RE [TLit (of_string " ")] 0 true P ++
             (58 :: mid) ++ blank ws ++ body ++ 58 :: sub_scan WS_RE [TLit (of_string " ")] 0 false R)
    with ((sub_scan WS_RE [TLit (of_string " ")] 0 true P ++
             (58 :: mid) ++ blank ws ++ body) ++ 58 :: sub_scan WS_RE [TLit (of_string " ")] 0 false R)
    by (by rewrite <- !app_assoc).
  rewrite rstrip_app_nonspace by reflexivity.
  rewrite <- !app_assoc.
  (* ./ *)
  unfold re_sub. cbn [app].
  rewrite sub_scan_split; [| apply dotslash_no_empty | reflexivity | lia].
  change (58 :: mid ++ blank ws ++ body ++ 58 :: ?Z)
    with ((58 :: mid) ++ blank ws ++ body ++ 58 :: Z).
  rewrite sub_scan_dead_false;
    [| constructor; [by apply dotslash_dead | by apply dotslash_dead_inert] | done].
  assert (sub_scan DOTSLASH_RE [TRef 1] 0 false
            (blank ws ++ body ++ 58 :: rstrip (sub_scan WS_RE [TLit (of_string " ")] 0 false R))
          = blank ws ++ body ++ 58 :: plain_tail R) as ->; [|done].
  assert (forall Z, sub_scan DOTSLASH_RE [TRef 1] 0 false (body ++ 58 :: Z)
            = body ++ 58 :: sub_scan DOTSLASH_RE [TRef 1] 0 false Z) as Hbz.
  { intros Z. rewrite sub_scan_dead_false by done.
    by rewrite (sub_scan_none _ _ _ 58) by by apply dotslash_dead. }
  destruct ws as [|w ws]; cbn [blank app].
  - by rewrite Hbz.
  - rewrite sub_scan_none by (apply dotslash_blank; by rewrite Eb).
    by rewrite Hbz.
Qed.

(** ** The location patterns on a diagnostic line *)

(** Equations between two bracketings of one concatenation. *)
Ltac lst := repeat (rewrite <- app_assoc || rewrite <- app_comm_cons); reflexivity.

Lemma sub_scan_dead_ff r tpl mid T :
  Forall (dead r) mid ->
  sub_scan r tpl 0 false (mid ++ T) = mid ++ sub_scan r tpl 0 false T.
Proof. intros H. rewrite sub_scan_dead by done. by destruct mid. Qed.

Lemma head_no_colon P :
  Forall (fun c => c <> 58) P -> Forall (fun c => c <> 58) (plain_head P).
Proof.
  intros H. unfold plain_head, re_sub.
  apply sub_scan_keeps; [by repeat constructor|].
  apply sub_scan_keeps; [|done]. by repeat constructor.
Qed.

Lemma number_dead n :
  is_number n ->
  Forall (dead WARNING_LOC_COLON_RE) n /\ Forall (dead WARNING_LOC_LINE_RE) n.
Proof.
  intros [_ H]. split; (eapply Forall_impl; [exact H|]); intros c Hc.
  - apply colon_dead. class.
  - apply line_dead. class.
Qed.

Lemma blank_spaces ws : Forall (fun x => is_space x = true) (blank ws).
Proof. destruct ws; by repeat constructor. Qed.

Lemma blank_dead ws :
  Forall (dead WARNING_LOC_COLON_RE) (blank ws) /\ Forall (dead WARNING_LOC_LINE_RE) (blank ws).
Proof.
  destruct ws; split; repeat constructor; by (apply colon_dead || apply line_dead).
Qed.

(** The head of what follows a location: a blank or a letter, no digit. *)
Lemma after_location_no_digit ws body Z :
  body <> [] -> Forall (fun c => wordish c = true) body ->
  match blank ws ++ body ++ Z with [] => True | x :: _ => is_digit09 x = false end.
Proof.
  intros Hne Hb. destruct ws; cbn [blank app]; [|reflexivity].
  destruct Hb as [|x body Hx _]; [done|]. cbn [app].
  by apply wordish_facts in Hx as (_ & _ & ? & _).
Qed.

Lemma colon_subst b n c w mk rest :
  is_number n -> is_number c ->
  Forall (fun x => is_space x = true) w -> marker_word mk ->
  sub_scan WARNING_LOC_COLON_RE COLON_TPL 0 b (58 :: n ++ 58 :: c ++ 58 :: w ++ mk ++ rest)
  = of_string ":LINE:COL" ++ 58 :: w ++ mk
    ++ sub_scan WARNING_LOC_COLON_RE COLON_TPL 0 false rest.
Proof.
  intros Hn Hc Hw Hmk. rewrite sub_scan_cons, colon_match by done.
  cbn [length]. cbv iota beta.
  replace (n ++ 58 :: c ++ 58 :: w ++ mk ++ rest)
    with ((n ++ 58 :: c ++ 58 :: w ++ mk) ++ rest)
    by lst.
  rewrite sub_scan_skip_false.
  cbn [COLON_TPL expand map concat group Nat.eqb]. rewrite app_nil_r.
  lst.
Qed.

Lemma line_subst b n w mk rest :
  is_number n -> Forall (fun x => is_space x = true) w -> marker_word mk ->
  sub_scan WARNING_LOC_LINE_RE LINE_TPL 0 b (58 :: n ++ 58 :: w ++ mk ++ rest)
  = of_string ":LINE" ++ 58 :: w ++ mk
    ++ sub_scan WARNING_LOC_LINE_RE LINE_TPL 0 false rest.
Proof.
  intros Hn Hw Hmk. rewrite sub_scan_cons, line_match by done.
  cbn [length]. cbv iota beta.
  replace (n ++ 58 :: w ++ mk ++ rest) with ((n ++ 58 :: w ++ mk) ++ rest)
    by lst.
  rewrite sub_scan_skip_false.
  cbn [LINE_TPL expand map concat group Nat.eqb]. rewrite app_nil_r.
  lst.
Qed.

(** The placeholder written by the first pattern is left by the second. *)
Lemma line_scan_placeholder b Z :
  sub_scan WARNING_LOC_LINE_RE LINE_TPL 0 b (of_string ":LINE:COL" ++ Z)
  = of_string ":LINE:COL" ++ sub_scan WARNING_LOC_LINE_RE LINE_TPL 0 false Z.
Proof.
  change (of_string ":LINE:COL") with ([58] ++ [76; 73; 78; 69] ++ [58] ++ [67; 79; 76]).
  rewrite <- !app_assoc. cbn [app].
  rewrite sub_scan_none by by apply line_fail_short.
  change (76 :: 73 :: 78 :: 69 :: ?X) with ([76; 73; 78; 69] ++ X).
  rewrite sub_scan_dead_ff by (repeat constructor; by apply line_dead).
  rewrite sub_scan_none by by apply line_fail_short.
  change (67 :: 79 :: 76 :: ?X) with ([67; 79; 76] ++ X).
  rewrite sub_scan_dead_ff by (repeat constructor; by apply line_dead).
  done.
Qed.

Lemma colon_scan_head T :
  exists X, sub_scan WARNING_LOC_COLON_RE COLON_TPL 0 false (58 :: T) = 58 :: X.
Proof.
  rewrite sub_scan_cons.
  destruct (match_at WARNING_LOC_COLON_RE false (58 :: T)) as [[[|n] caps]|];
    cbn [COLON_TPL expand map concat]; eauto.
Qed.

(** ** The normal form does not keep the numbers *)

Lemma inert_colon n c :
  is_number n -> is_number c ->
  Forall (fun x => is_digit09 x = true \/ x = 58) (n ++ 58 :: c ++ [58]).
Proof.
  intros [_ Hn] [_ Hc]. rewrite Forall_app, Forall_cons, Forall_app. repeat split.
  - eapply Forall_impl; [exact Hn|]. intros ? ?. by left.
  - by right.
  - eapply Forall_impl; [exact Hc|]. intros ? ?. by left.
  - constructor; [by right | constructor].
Qed.

Lemma inert_line n :
  is_number n -> Forall (fun x => is_digit09 x = true \/ x = 58) (n ++ [58]).
Proof.
  intros [_ Hn]. rewrite Forall_app. split.
  - eapply Forall_impl; [exact Hn|]. intros ? ?. by left.
  - constructor; [by right | constructor].
Qed.

Lemma normalize_plain_colon P n c ws body R :
  Forall (fun x => x <> 58) P -> is_number n -> is_number c ->
  Forall (fun x => is_space x = true) ws ->
  marker_word (body ++ [58]) -> body <> [] ->
  Forall (fun x => wordish x = true) body ->
  normalize_plain (diag_line P n (Some c) ws (body ++ [58]) R)
  = plain_head P ++ of_string ":LINE:COL" ++ 58 :: blank ws ++ body
    ++ sub_scan WARNING_LOC_LINE_RE LINE_TPL 0 false
         (58 :: sub_scan WARNING_LOC_COLON_RE COLON_TPL 0 false (plain_tail R)).
Proof.
  intros HP Hn Hc Hws Hmk Hne Hbody.
  destruct (wordish_dead _ Hbody) as (_ & _ & Hb3 & Hb4).
  destruct (blank_dead ws) as [Hw3 Hw4].
  apply head_no_colon in HP.
  unfold normalize_plain.
  replace (diag_line P n (Some c) ws (body ++ [58]) R)
    with (P ++ 58 :: (n ++ 58 :: c ++ [58]) ++ ws ++ body ++ 58 :: R)
    by (unfold diag_line, location; lst).
  rewrite plain_steps by (done || by apply inert_colon).
  unfold re_sub.
  (* the line-and-column pattern *)
  rewrite sub_scan_dead
    by (eapply Forall_impl; [exact HP|]; intros; by apply colon_dead).
  replace (58 :: (n ++ 58 :: c ++ [58]) ++ blank ws ++ body ++ 58 :: plain_tail R)
    with (58 :: n ++ 58 :: c ++ 58 :: blank ws ++ (body ++ [58]) ++ plain_tail R)
    by lst.
  rewrite colon_subst by (done || apply blank_spaces).
  (* the line-only pattern *)
  rewrite sub_scan_dead
    by (eapply Forall_impl; [exact HP|]; intros; by apply line_dead).
  rewrite line_scan_placeholder.
  replace (58 :: blank ws ++ (body ++ [58]) ++
             sub_scan WARNING_LOC_COLON_RE COLON_TPL 0 false (plain_tail R))
    with (58 :: blank ws ++ body ++ 58 ::
             sub_scan WARNING_LOC_COLON_RE COLON_TPL 0 false (plain_tail R))
    by lst.
  rewrite sub_scan_none
    by (apply line_fail_short; by apply after_location_no_digit).
  rewrite sub_scan_dead_ff by done.
  rewrite sub_scan_dead_ff by done.
  lst.
Qed.

Lemma normalize_plain_line P n ws body R :
  Forall (fun x => x <> 58) P -> is_number n ->
  Forall (fun x => is_space x = true) ws ->
  marker_word (body ++ [58]) -> body <> [] ->
  Forall (fun x => wordish x = true) body ->
  normalize_plain (diag_line P n None ws (body ++ [58]) R)
  = plain_head P ++ of_string ":LINE" ++ 58 :: blank ws ++ body ++ 58 ::
      sub_scan WARNING_LOC_LINE_RE LINE_TPL 0 false
        (tail (sub_scan WARNING_LOC_COLON_RE COLON_TPL 0 false (58 :: plain_tail R))).
Proof.
  intros HP Hn Hws Hmk Hne Hbody.
  destruct (wordish_dead _ Hbody) as (_ & _ & Hb3 & Hb4).
  destruct (blank_dead ws) as [Hw3 Hw4].
  destruct (number_dead _ Hn) as [Hn3 Hn4].
  destruct (colon_scan_head (plain_tail R)) as [X HX].
  apply head_no_colon in HP.
  unfold normalize_plain.
  replace (diag_line P n None ws (body ++ [58]) R)
    with (P ++ 58 :: (n ++ [58]) ++ ws ++ body ++ 58 :: R)
    by (unfold diag_line, location; rewrite app_nil_r; lst).
  rewrite plain_steps by (done || by apply inert_line).
  unfold re_sub.
  (* the line-and-column pattern finds nothing at the location *)
  rewrite sub_scan_dead
    by (eapply Forall_impl; [exact HP|]; intros; by apply colon_dead).
  replace (58 :: (n ++ [58]) ++ blank ws ++ body ++ 58 :: plain_tail R)
    with (58 :: n ++ 58 :: blank ws ++ body ++ 58 :: plain_tail R) by lst.
  rewrite sub_scan_none
    by (apply colon_fail_line; [done | by apply after_location_no_digit]).
  rewrite sub_scan_dead_ff by done.
  rewrite sub_scan_none
    by (apply colon_fail_short; by apply after_location_no_digit).
  rewrite sub_scan_dead_ff by done.
  rewrite sub_scan_dead_ff by done.
  rewrite HX. cbn [tail].
  (* the line-only pattern *)
  rewrite sub_scan_dead
    by (eapply Forall_impl; [exact HP|]; intros; by apply line_dead).
  replace (58 :: n ++ 58 :: blank ws ++ body ++ 58 :: X)
    with (58 :: n ++ 58 :: blank ws ++ (body ++ [58]) ++ X) by lst.
  rewrite line_subst by (done || apply blank_spaces).
  lst.
Qed.

(** C9, as amended: two lines whose ANSI-stripped texts are the same
    prefix, a location, a colon, the same blanks, the same marker word and
    the same message, and whose locations are of the same kind (both
    [:line:col] or both [:line]) with numbers written in the digits 0 to 9,
    have the same normal form, provided the prefix has no colon. *)
Theorem normalize_location_independent
    (x y P n n' : list N) (col col' : option (list N)) (ws mk R : list N) :
  ansi_strip x = diag_line P n col ws mk R ->
  ansi_strip y = diag_line P n' col' ws mk R ->
  is_number n -> is_number n' -> same_kind col col' ->
  Forall (fun c => is_space c = true) ws ->
  marker_word mk ->
  Forall (fun c => c <> 58) P ->
  normalize_warning_line x = normalize_warning_line y.
Proof.
  intros Hx Hy Hn Hn' Hk Hws Hmk HP.
  unfold normalize_warning_line. rewrite Hx, Hy.
  destruct (marker_word_split _ Hmk) as (body & -> & Hne & Hbody).
  destruct col as [c|], col' as [c'|]; try done.
  - destruct Hk as [Hc Hc']. by rewrite !normalize_plain_colon.
  - by rewrite !normalize_plain_line.
Qed.

(** ** The matcher against what a pattern matches *)

Lemma star_loop_sound {A} p (k : bool -> list N -> option A) s : forall b v,
  star_loop p k b s = Some v ->
  exists ds rest, s = ds ++ rest /\ Forall (fun x => p x = true) ds
    /\ k (if ds is [] then b else false) rest = Some v.
Proof.
  induction s as [|x t IH]; intros b v H; simpl in H.
  - by exists [], [].
  - destruct (p x) eqn:Hp; [|by exists [], (x :: t)].
    destruct (star_loop p k false t) as [a|] eqn:Hs; [|by exists [], (x :: t)].
    injection H as ->. destruct (IH _ _ Hs) as (ds & rest & -> & Hds & Hk).
    exists (x :: ds), rest. split; [done|]. split; [by constructor|].
    by destruct ds.
Qed.

Lemma exec_sound {A} r : forall c (k : cursor -> option A) v,
  exec r c k = Some v ->
  exists c', matches r (c_bol c) (c_rest c) (c_bol c') (c_rest c') /\ k c' = Some v.
Proof.
  induction r as [| | |p|p|a IHa b IHb|a IHa b IHb|i a IHa]; intros c k v H; simpl in H.
  - exists c. split; [constructor | done].
  - destruct (c_bol c) eqn:Eb; [|done]. exists c. rewrite Eb. split; [constructor | done].
  - destruct (c_rest c) as [|x [|y t]] eqn:Er; [| |done].
    + exists c. rewrite Er. split; [constructor; by left | done].
    + destruct (x =? 10) eqn:Ex; [|done]. apply N.eqb_eq in Ex as ->.
      exists c. rewrite Er. split; [constructor; by right | done].
  - destruct (c_rest c) as [|x t] eqn:Er; [done|].
    destruct (p x) eqn:Hp; [|done].
    exists (Cursor false t (c_caps c)). split; [by constructor | done].
  - apply star_loop_sound in H as (ds & rest & Hs & Hds & Hk).
    exists (Cursor (if ds is [] then c_bol c else false) rest (c_caps c)).
    split; [|done]. rewrite Hs. by constructor.
  - apply IHa in H as (c1 & Ha & H). apply IHb in H as (c2 & Hb & H).
    exists c2. split; [|done]. by econstructor.
  - destruct (exec a c k) as [x|] eqn:Ea.
    + injection H as ->. apply IHa in Ea as (c' & ? & ?).
      exists c'. split; [by apply m_alt_l | done].
    + apply IHb in H as (c' & ? & ?). exists c'. split; [by apply m_alt_r | done].
  - apply IHa in H as (c' & Ha & H).
    eexists (Cursor _ _ _). split; [|exact H]. by constructor.
Qed.

Lemma star_loop_complete {A} p (k : bool -> list N -> option A) ds rest :
  Forall (fun x => p x = true) ds -> forall b,
  is_Some (k (if ds is [] then b else false) rest) ->
  is_Some (star_loop p k b (ds ++ rest)).
Proof.
  induction 1 as [|x ds Hx Hds IH]; intros b Hk.
  - simpl. destruct rest as [|y t]; simpl; [done|].
    destruct (p y); [|done]. by destruct (star_loop p k false t).
  - simpl. rewrite Hx.
    destruct (star_loop p k false (ds ++ rest)) eqn:Hs; [done|].
    exfalso. assert (is_Some (star_loop p k false (ds ++ rest))) as [? Hn].
    { apply IH. by destruct ds. }
    congruence.
Qed.

Lemma exec_complete {A} r b s b' s' :
  matches r b s b' s' ->
  forall (k : cursor -> option A),
  (forall caps, is_Some (k (Cursor b' s' caps))) ->
  forall caps, is_Some (exec r (Cursor b s caps) k).
Proof.
  induction 1 as [b s|s|b s Hs|p b x t Hp|p b ds rest Hds
                  |a c b s b1 s1 b2 s2 _ IHa _ IHc
                  |a c b s b' s' _ IH|a c b s b' s' _ IH|i a b s b' s' _ IH];
    intros k Hk caps; simpl.
  - apply Hk.
  - apply Hk.
  - destruct Hs as [-> | ->]; simpl; apply Hk.
  - rewrite Hp. apply Hk.
  - apply star_loop_complete; [done|]. apply Hk.
  - apply IHa. intros caps'. by apply IHc.
  - destruct (IH k Hk caps) as [v ->]. done.
  - destruct (exec a (Cursor b s caps) k); [done|]. by apply IH.
  - apply (IH (fun c' => k (Cursor (c_bol c') (c_rest c')
             ((i, consumed s (c_rest c')) :: c_caps c')))).
    intros caps'. apply Hk.
Qed.

(** An attempt succeeds exactly where the pattern matches, and a search
    succeeds exactly when the pattern matches at some place of the text. *)
Lemma match_at_matches r b s :
  is_Some (match_at r b s) <-> exists b' s', matches r b s b' s'.
Proof.
  unfold match_at. split.
  - intros [v H]. apply exec_sound in H as (c' & H & _). simpl in H. eauto.
  - intros (b' & s' & H). by eapply exec_complete.
Qed.

Lemma search_from_matches r s : forall b,
  search_from r b s = true
  <-> exists pre t b' s',
        s = pre ++ t /\ matches r (if pre is [] then b else false) t b' s'.
Proof.
  induction s as [|x t IH]; intros b; simpl.
  - destruct (match_at r b []) as [v|] eqn:Hm.
    + split; [intros _ | done].
      destruct (proj1 (match_at_matches r b [])) as (b' & s' & H); [by rewrite Hm|].
      by exists [], [], b', s'.
    + split; [done|]. intros (pre & t & b' & s' & Hs & H).
      symmetry in Hs. apply app_eq_nil in Hs as [-> ->].
      assert (is_Some (match_at r b [])) as [? ?] by (apply match_at_matches; eauto).
      congruence.
  - destruct (match_at r b (x :: t)) as [v|] eqn:Hm.
    + split; [intros _ | done].
      destruct (proj1 (match_at_matches r b (x :: t))) as (b' & s' & H); [by rewrite Hm|].
      by exists [], (x :: t), b', s'.
    + rewrite IH. split.
      * intros (pre & u & b' & s' & -> & H).
        exists (x :: pre), u, b', s'. split; [done|]. by destruct pre.
      * intros (pre & u & b' & s' & Hs & H). destruct pre as [|y pre].
        -- simpl in Hs. subst u.
           assert (is_Some (match_at r b (x :: t))) as [? ?]
             by (apply match_at_matches; eauto).
           congruence.
        -- injection Hs as -> ->. exists pre, u, b', s'. split; [done|].
           by destruct pre.
Qed.

(** ** What the patterns of the program match *)

Lemma matches_seq a c b s b2 s2 :
  matches (Seq a c) b s b2 s2
  <-> exists b1 s1, matches a b s b1 s1 /\ matches c b1 s1 b2 s2.
Proof.
  split.
  - inversion 1; subst. eauto.
  - intros (b1 & s1 & ? & ?). by econstructor.
Qed.

Lemma matches_eps b s b' s' : matches Eps b s b' s' <-> b' = b /\ s' = s.
Proof.
  split.
  - by inversion 1.
  - intros [-> ->]. constructor.
Qed.

Lemma matches_chr p b s b' s' :
  matches (Chr p) b s b' s' <-> exists x, s = x :: s' /\ p x = true /\ b' = false.
Proof.
  split.
  - inversion 1; subst. eauto.
  - intros (x & -> & ? & ->). by constructor.
Qed.

Lemma matches_plus p b s b' s' :
  matches (Plus p) b s b' s'
  <-> exists x ds, s = x :: ds ++ s' /\ p x = true
                   /\ Forall (fun y => p y = true) ds /\ b' = false.
Proof.
  unfold Plus. rewrite matches_seq. split.
  - intros (b1 & s1 & H1 & H2). apply matches_chr in H1 as (x & -> & Hx & ->).
    inversion H2; subst. exists x, ds. repeat split; try done. by destruct ds.
  - intros (x & ds & -> & Hx & Hds & ->). exists false, (ds ++ s'). split.
    + by constructor.
    + replace false with (if ds is [] then false else false) at 2 by (by destruct ds).
      by constructor.
Qed.

Lemma matches_chars ps : forall b s b' s',
  matches (cat (map Chr ps)) b s b' s'
  <-> exists m, s = m ++ s' /\ Forall2 (fun p c => p c = true) ps m
                /\ b' = (if m is [] then b else false).
Proof.
  induction ps as [|p ps IH]; intros b s b' s'.
  - change (cat (map Chr [])) with Eps. rewrite matches_eps. split.
    + intros [-> ->]. exists []. by repeat split; try constructor.
    + intros (m & -> & Hm & ->). apply Forall2_nil_inv_l in Hm as ->. done.
  - change (cat (map Chr (p :: ps))) with (Seq (Chr p) (cat (map Chr ps))).
    rewrite matches_seq. split.
    + intros (b1 & s1 & H1 & H2). apply matches_chr in H1 as (x & -> & Hx & ->).
      apply IH in H2 as (m & -> & Hm & ->). exists (x :: m).
      split; [done|]. split; [by constructor|]. by destruct m.
    + intros (m & -> & Hm & ->).
      apply Forall2_cons_inv_l in Hm as (x & m' & Hx & Hm & ->).
      exists false, (m' ++ s'). split; [by constructor|].
      apply IH. exists m'. split; [done|]. split; [done|]. by destruct m'.
Qed.

Lemma matches_marker_word b s b' s' :
  matches (lit_ci "warning:") b s b' s'
  <-> exists mk, s = mk ++ s' /\ marker_word mk /\ b' = (if mk is [] then b else false).
Proof.
  unfold lit_ci, marker_word.
  rewrite <- (map_map ci_chr Chr). rewrite matches_chars.
  split; intros (mk & ? & H & ?); exists mk; (split; [done|]); (split; [|done]).
  - by apply Forall2_fmap_l in H.
  - by apply Forall2_fmap_l.
Qed.

Lemma matches_colon b s b' s' :
  matches (Chr (ci_chr 58)) b s b' s' <-> s = 58 :: s' /\ b' = false.
Proof.
  rewrite matches_chr. split.
  - intros (x & -> & Hx & ->). by apply ci_colon in Hx as ->.
  - intros [-> ->]. exists 58. by rewrite ci_colon.
Qed.

Lemma matches_suffix r b s b' s' : matches r b s b' s' -> exists u, s = u ++ s'.
Proof.
  induction 1 as [b s|s|b s Hs|p b x t Hp|p b ds rest Hds
                  |a c b s b1 s1 b2 s2 _ [u ->] _ [v ->]
                  |a c b s b' s' _ IH|a c b s b' s' _ IH|i a b s b' s' _ IH];
    try done; try (by exists []).
  - by exists [x].
  - by exists ds.
  - exists (u ++ v). by rewrite app_assoc.
Qed.

Lemma match_at_sound r b s n caps :
  match_at r b s = Some (n, caps) ->
  exists b' u s', s = u ++ s' /\ n = length u /\ matches r b s b' s'.
Proof.
  unfold match_at. intros H. apply exec_sound in H as (c' & H & Hk). simpl in H.
  injection Hk as <- _. destruct (matches_suffix _ _ _ _ _ H) as [u Hu].
  exists (c_bol c'), u, (c_rest c'). split; [done|]. split; [|done].
  rewrite Hu at 1. rewrite length_app. lia.
Qed.

Lemma matches_grp i a b s b' s' : matches (Grp i a) b s b' s' <-> matches a b s b' s'.
Proof.
  split.
  - by inversion 1.
  - by constructor.
Qed.

Lemma matches_star p b s b' s' :
  matches (Star p) b s b' s'
  <-> exists ds, s = ds ++ s' /\ Forall (fun x => p x = true) ds
                 /\ b' = (if ds is [] then b else false).
Proof.
  split.
  - inversion 1; subst. by exists ds.
  - intros (ds & -> & Hds & ->). by constructor.
Qed.

(** * Diagnostics of the usual form *)

Lemma rstrip_keeps (Q : N -> Prop) s : Forall Q s -> Forall Q (rstrip s).
Proof.
  induction 1 as [|c t Hc Ht IH]; simpl; [done|].
  destruct (rstrip t) eqn:Hr.
  - destruct (is_space c); by repeat constructor.
  - by constructor.
Qed.

Lemma lstrip_keeps (Q : N -> Prop) s : Forall Q s -> Forall Q (lstrip s).
Proof.
  induction 1 as [|c t Hc Ht IH]; simpl; [done|].
  destruct (is_space c); [done | by constructor].
Qed.

(** ** Searches that find nothing *)

Lemma search_none r b c t :
  match_at r b (c :: t) = None -> search_from r false t = false ->
  search_from r b (c :: t) = false.
Proof. intros H Ht. cbn [search_from]. by rewrite H. Qed.

Lemma search_nil r b : match_at r b [] = None -> search_from r b [] = false.
Proof. intros H. cbn [search_from]. by rewrite H. Qed.

Lemma search_dead r u v :
  Forall (dead r) u -> (forall b, search_from r b v = false) ->
  forall b, search_from r b (u ++ v) = false.
Proof.
  induction 1 as [|c u Hc _ IH]; intros Hv b; [apply Hv|].
  cbn [app]. apply search_none; [apply Hc | by apply IH].
Qed.

Lemma search_inert r u v :
  Forall (fun c => forall t, match_at r false (c :: t) = None) u ->
  search_from r false v = false -> search_from r false (u ++ v) = false.
Proof.
  induction 1 as [|c u Hc _ IH]; intros Hv; [done|].
  cbn [app]. apply search_none; [apply Hc | by apply IH].
Qed.

Lemma sub_scan_inert r tpl u v :
  Forall (fun c => forall t, match_at r false (c :: t) = None) u ->
  sub_scan r tpl 0 false (u ++ v) = u ++ sub_scan r tpl 0 false v.
Proof.
  induction 1 as [|c u Hc _ IH]; [done|].
  cbn [app]. rewrite sub_scan_none by apply Hc. by rewrite IH.
Qed.

(** ** Runs of blanks *)

Lemma squeeze_run ws : forall X,
  ws <> [] -> Forall (fun c => is_space c = true) ws ->
  match X with [] => True | x :: _ => is_space x = false end ->
  squeeze (ws ++ X) = 32 :: squeeze X.
Proof.
  induction ws as [|c ws IH]; intros X Hne Hws HX; [done|].
  apply Forall_cons in Hws as [Hc Hws]. cbn [app squeeze]. rewrite Hc.
  destruct ws as [|d ws'].
  - cbn [app]. destruct X as [|x X']; [done|]. by rewrite HX.
  - cbn [app]. pose proof Hws as Hws'. apply Forall_cons in Hws' as [Hd _]. rewrite Hd.
    by apply IH.
Qed.

Lemma span_blank (s : list N) :
  exists ws X, s = ws ++ X /\ Forall (fun c => is_space c = true) ws
    /\ match X with [] => True | x :: _ => is_space x = false end.
Proof.
  induction s as [|c t (ws & X & -> & Hws & HX)].
  - by exists [], [].
  - destruct (is_space c) eqn:Hc.
    + exists (c :: ws), X. split; [done|]. split; [by constructor | done].
    + exists [], (c :: ws ++ X). split; [done|]. split; [constructor | done].
Qed.

Lemma ws_scan_squeeze n : forall s b,
  (length s <= n)%nat -> sub_scan WS_RE [TLit (of_string " ")] 0 b s = squeeze s.
Proof.
  induction n as [|n IH]; intros s b Hn.
  - destruct s; [|simpl in Hn; lia]. cbn [sub_scan squeeze]. by rewrite ws_no_empty.
  - destruct s as [|c t]; [cbn [sub_scan squeeze]; by rewrite ws_no_empty|].
    simpl in Hn. destruct (is_space c) eqn:Hc.
    + destruct (span_blank t) as (ws & X & -> & Hws & HX).
      pose proof (ws_scan_run (c :: ws) X b (Forall_cons_2 _ _ _ Hc Hws) HX) as H.
      cbn [app] in H. rewrite H. cbn [blank app].
      rewrite IH by (rewrite length_app in Hn; lia).
      symmetry. apply (squeeze_run (c :: ws) X); [done | by constructor | done].
    + rewrite sub_scan_none by (by apply ws_dead).
      cbn [squeeze]. rewrite Hc. f_equal. apply IH. lia.
Qed.

Lemma squeeze_keeps (Q : N -> Prop) s : Q 32 -> Forall Q s -> Forall Q (squeeze s).
Proof.
  intros H32. induction 1 as [|c t Hc Ht IH]; [done|]. cbn [squeeze].
  destruct (is_space c); [|by constructor].
  destruct t as [|d t']; [by repeat constructor|].
  destruct (is_space d); [done | by constructor].
Qed.

Lemma squeeze_nonblank s : Forall (fun c => is_space c = false) s -> squeeze s = s.
Proof.
  induction 1 as [|c t Hc _ IH]; [done|]. cbn [squeeze]. by rewrite Hc, IH.
Qed.

Lemma squeeze_head c t :
  exists Z, squeeze (c :: t) = (if is_space c then 32 else c) :: Z.
Proof.
  revert c. induction t as [|d t IH]; intros c; cbn [squeeze].
  - destruct (is_space c); by eexists.
  - destruct (is_space c) eqn:Hc; [|by eexists].
    destruct (is_space d) eqn:Hd; [|by eexists].
    destruct (IH d) as [Z HZ]. cbn [squeeze] in HZ. rewrite Hd in HZ. by exists Z.
Qed.

Lemma rstrip_head t y t' : rstrip t = y :: t' -> exists t0, t = y :: t0.
Proof.
  destruct t as [|c t0]; [done|]. simpl.
  destruct (rstrip t0); [destruct (is_space c)|]; intros H; [done| |];
    injection H as -> _; by eexists.
Qed.

Lemma squeeze_nonblank_cons c t : is_space c = false -> squeeze (c :: t) = c :: squeeze t.
Proof. intros Hc. cbn [squeeze]. by rewrite Hc. Qed.

Lemma squeeze_blank_blank c d t :
  is_space c = true -> is_space d = true -> squeeze (c :: d :: t) = squeeze (d :: t).
Proof.
  intros Hc Hd. change (squeeze (c :: d :: t))
    with (if is_space c then if is_space d then squeeze (d :: t) else 32 :: squeeze (d :: t)
          else c :: squeeze (d :: t)).
  by rewrite Hc, Hd.
Qed.

Lemma squeeze_blank_nonblank c d t :
  is_space c = true -> is_space d = false -> squeeze (c :: d :: t) = 32 :: d :: squeeze t.
Proof.
  intros Hc Hd. change (squeeze (c :: d :: t))
    with (if is_space c then if is_space d then squeeze (d :: t) else 32 :: squeeze (d :: t)
          else c :: squeeze (d :: t)).
  by rewrite Hc, Hd, squeeze_nonblank_cons.
Qed.

Lemma squeeze_blank_end c : is_space c = true -> squeeze [c] = [32].
Proof. intros Hc. cbn [squeeze]. by rewrite Hc. Qed.

Lemma rstrip_nonblank_cons c t : is_space c = false -> rstrip (c :: t) = c :: rstrip t.
Proof. intros Hc. exact (rstrip_app_nonspace [] c t Hc). Qed.

Lemma rstrip_squeeze_single s : blanks_single (rstrip (squeeze s)) = true.
Proof.
  induction s as [|c t IH]; [done|].
  destruct (is_space c) eqn:Hc.
  - destruct t as [|d t']; [by rewrite squeeze_blank_end|].
    destruct (is_space d) eqn:Hd; [by rewrite squeeze_blank_blank|].
    rewrite squeeze_blank_nonblank by done.
    rewrite squeeze_nonblank_cons, rstrip_nonblank_cons in IH by done.
    assert (rstrip (32 :: d :: squeeze t') = 32 :: d :: rstrip (squeeze t')) as ->
      by exact (rstrip_app_nonspace [32] d (squeeze t') Hd).
    change (blanks_single (32 :: d :: rstrip (squeeze t')))
      with ((if is_space 32 then (32 =? 32) && negb (is_space d) else true)
            && blanks_single (d :: rstrip (squeeze t'))).
    rewrite IH, Hd. reflexivity.
  - rewrite squeeze_nonblank_cons, rstrip_nonblank_cons by done.
    cbn [blanks_single]. by rewrite Hc.
Qed.

(** ** The pattern [(^|\s)\./] *)

Lemma starts_dotslash_squeeze s :
  starts_dotslash (squeeze s) = true -> starts_dotslash s = true.
Proof.
  destruct s as [|c t]; [done|]. destruct (squeeze_head c t) as [Z HZ].
  destruct (is_space c) eqn:Hc.
  - rewrite HZ. destruct Z; done.
  - cbn [squeeze] in *. rewrite Hc in *. injection HZ as <-.
    destruct t as [|d t']; [done|]. destruct (squeeze_head d t') as [Z' HZ'].
    rewrite HZ'. cbn [starts_dotslash].
    destruct (is_space d) eqn:Hd; [|done].
    intros H. apply andb_true_iff in H as [_ H]. done.
Qed.

Lemma dotslash_in_cons c t :
  dotslash_in (c :: t) = false <-> starts_dotslash (c :: t) = false /\ dotslash_in t = false.
Proof. cbn [dotslash_in]. apply orb_false_iff. Qed.

Lemma dotslash_in_start t : dotslash_in t = false -> starts_dotslash t = false.
Proof. destruct t; [done|]. by intros [? _]%dotslash_in_cons. Qed.

Lemma dotslash_in_squeeze s : dotslash_in s = false -> dotslash_in (squeeze s) = false.
Proof.
  induction s as [|c t IH]; [done|]. intros [Hs Ht]%dotslash_in_cons.
  specialize (IH Ht).
  assert (starts_dotslash (squeeze (c :: t)) = false) as Hq.
  { destruct (starts_dotslash (squeeze (c :: t))) eqn:E; [|done].
    apply starts_dotslash_squeeze in E. congruence. }
  cbn [squeeze] in *. destruct (is_space c) eqn:Hc.
  - destruct t as [|d t']; [done|]. destruct (is_space d); [done|].
    apply dotslash_in_cons. done.
  - apply dotslash_in_cons. done.
Qed.

Lemma dotslash_in_rstrip s : dotslash_in s = false -> dotslash_in (rstrip s) = false.
Proof.
  induction s as [|c t IH]; [done|]. intros [Hs Ht]%dotslash_in_cons.
  specialize (IH Ht). simpl. destruct (rstrip t) as [|y t'] eqn:Hr.
  - destruct (is_space c); [done|]. cbn. by rewrite andb_false_r || done.
  - destruct (rstrip_head t y t' Hr) as [t0 ->]. apply dotslash_in_cons. done.
Qed.

Lemma dotslash_nonblank c t :
  is_space c = false -> match_at DOTSLASH_RE false (c :: t) = None.
Proof.
  intros Hc. unfold match_at, DOTSLASH_RE.
  cbn [cat foldr exec c_bol c_rest c_caps]. by rewrite Hc.
Qed.

Lemma dotslash_fail c t b :
  (b = true -> starts_dotslash (c :: t) = false) ->
  (is_space c = true -> starts_dotslash t = false) ->
  match_at DOTSLASH_RE b (c :: t) = None.
Proof.
  intros Hb Hs. destruct (match_at DOTSLASH_RE b (c :: t)) as [v|] eqn:Hm; [|done].
  exfalso. assert (is_Some (match_at DOTSLASH_RE b (c :: t))) as H by (by rewrite Hm).
  apply match_at_matches in H as (b' & s' & H).
  unfold DOTSLASH_RE in H. cbn [cat foldr] in H.
  apply matches_seq in H as (b1 & s1 & H1 & H).
  apply matches_seq in H as (b2 & s2 & H2 & H).
  apply matches_seq in H as (b3 & s3 & H3 & _).
  apply matches_chr in H2 as (x & -> & Hx & _).
  apply matches_chr in H3 as (y & -> & Hy & _).
  unfold is_chr in Hx, Hy.
  apply matches_grp in H1.
  inversion H1 as [| | | | | |? ? ? ? ? ? Hl|? ? ? ? ? ? Hr|]; subst.
  - inversion Hl; subst. specialize (Hb eq_refl).
    cbn [starts_dotslash] in Hb. by rewrite Hx, Hy in Hb.
  - apply matches_chr in Hr as (z & Hz & Hsp & _). injection Hz as -> ->.
    specialize (Hs Hsp). cbn [starts_dotslash] in Hs. by rewrite Hx, Hy in Hs.
Qed.

Lemma dotslash_match_start t :
  match_at DOTSLASH_RE true (46 :: 47 :: t) = Some (2%nat, [(1%nat, [])]).
Proof.
  unfold match_at, DOTSLASH_RE. cbn [cat foldr exec c_bol c_rest c_caps].
  change (is_chr 46 46) with true. change (is_chr 47 47) with true. cbv iota.
  unfold consumed. rewrite Nat.sub_diag. cbn [take length].
  do 2 f_equal. lia.
Qed.

Lemma dotslash_search_free T :
  dotslash_in T = false -> search_from DOTSLASH_RE false T = false.
Proof.
  induction T as [|c t IH]; intros H.
  - apply search_nil, dotslash_no_empty.
  - apply dotslash_in_cons in H as [Hs Ht].
    apply search_none; [|by apply IH].
    apply dotslash_fail; [done | intros _; by apply dotslash_in_start].
Qed.

Lemma plain_head_path P :
  Forall (fun c => is_space c = false) P -> plain_head P = drop_dotslash P.
Proof.
  intros HP. unfold plain_head, re_sub.
  rewrite (ws_scan_squeeze (length P)) by done. rewrite squeeze_nonblank by done.
  assert (forall t, Forall (fun c => is_space c = false) t ->
            sub_scan DOTSLASH_RE [TRef 1] 0 false t = t) as Hin.
  { intros t Ht. rewrite <- (app_nil_r t) at 1. rewrite sub_scan_inert.
    - cbn [sub_scan]. rewrite dotslash_no_empty. by rewrite app_nil_r.
    - eapply Forall_impl; [exact Ht|]. intros c Hc t'. by apply dotslash_nonblank. }
  unfold drop_dotslash. destruct (starts_dotslash P) eqn:Hs.
  - destruct P as [|c [|d t]]; [done | done |]. cbn [starts_dotslash] in Hs.
    apply andb_true_iff in Hs as [Hc Hd]. apply N.eqb_eq in Hc, Hd. subst c d.
    rewrite sub_scan_cons, dotslash_match_start. cbn [expand map concat group Nat.eqb app].
    cbn [sub_scan drop]. apply Hin.
    apply Forall_cons in HP as [_ HP]. by apply Forall_cons in HP as [_ HP].
  - destruct P as [|c t]; [cbn [sub_scan]; by rewrite dotslash_no_empty|].
    apply Forall_cons in HP as [Hc Ht].
    rewrite sub_scan_none.
    + f_equal. by apply Hin.
    + apply dotslash_fail; [done | by rewrite Hc].
Qed.

Lemma plain_tail_message R :
  dotslash_in R = false -> plain_tail R = rstrip (squeeze R).
Proof.
  intros H. unfold plain_tail. rewrite (ws_scan_squeeze (length R)) by done.
  apply sub_scan_nomatch, dotslash_search_free.
  by apply dotslash_in_rstrip, dotslash_in_squeeze.
Qed.

(** ** The location patterns need a colon after the number *)

Lemma colon_needs_colon b T :
  Forall (fun c => c <> 58) T -> match_at WARNING_LOC_COLON_RE b (58 :: T) = None.
Proof.
  intros HT. destruct (match_at WARNING_LOC_COLON_RE b (58 :: T)) as [v|] eqn:Hm; [|done].
  exfalso.
  assert (is_Some (match_at WARNING_LOC_COLON_RE b (58 :: T))) as H by (by rewrite Hm).
  apply match_at_matches in H as (b' & s' & H).
  unfold WARNING_LOC_COLON_RE in H. cbn [cat foldr] in H.
  apply matches_seq in H as (b1 & s1 & H1 & H).
  apply matches_colon in H1 as [E1 _]. injection E1 as ->.
  apply matches_seq in H as (b2 & s2 & H2 & H).
  apply matches_plus in H2 as (x & ds & -> & _).
  apply matches_seq in H as (b3 & s3 & H3 & _).
  apply matches_grp in H3. cbn [cat foldr] in H3.
  apply matches_seq in H3 as (b4 & s4 & H4 & _).
  apply matches_colon in H4 as [-> _].
  apply Forall_cons in HT as [_ HT]. apply Forall_app in HT as [_ HT].
  by apply Forall_cons in HT as [HT _].
Qed.

Lemma line_needs_colon b T :
  Forall (fun c => c <> 58) T -> match_at WARNING_LOC_LINE_RE b (58 :: T) = None.
Proof.
  intros HT. destruct (match_at WARNING_LOC_LINE_RE b (58 :: T)) as [v|] eqn:Hm; [|done].
  exfalso.
  assert (is_Some (match_at WARNING_LOC_LINE_RE b (58 :: T))) as H by (by rewrite Hm).
  apply match_at_matches in H as (b' & s' & H).
  unfold WARNING_LOC_LINE_RE in H. cbn [cat foldr] in H.
  apply matches_seq in H as (b1 & s1 & H1 & H).
  apply matches_colon in H1 as [E1 _]. injection E1 as ->.
  apply matches_seq in H as (b2 & s2 & H2 & H).
  apply matches_plus in H2 as (x & ds & -> & _).
  apply matches_seq in H as (b3 & s3 & H3 & _).
  apply matches_grp in H3. unfold MARKER in H3. cbn [cat foldr] in H3.
  apply matches_seq in H3 as (b4 & s4 & H4 & H3).
  apply matches_star in H4 as (bl & -> & _).
  apply matches_seq in H3 as (b5 & s5 & H5 & _).
  apply matches_colon in H5 as [-> _].
  apply Forall_cons in HT as [_ HT]. apply Forall_app in HT as [_ HT].
  apply Forall_app in HT as [_ HT]. by apply Forall_cons in HT as [HT _].
Qed.

Lemma sub_scan_all_dead r tpl s b :
  (forall b, match_at r b [] = None) -> Forall (dead r) s -> sub_scan r tpl 0 b s = s.
Proof.
  intros He Hs. pose proof (sub_scan_dead r tpl s [] b Hs) as H.
  rewrite app_nil_r in H. rewrite H. cbn [sub_scan]. rewrite He. by rewrite app_nil_r.
Qed.

(** ** The normal form *)

Lemma message_tail R :
  message_like R ->
  Forall (fun c => c <> 58 /\ c <> ESC) (rstrip (squeeze R))
  /\ dotslash_in (rstrip (squeeze R)) = false
  /\ blanks_single (rstrip (squeeze R)) = true.
Proof.
  intros [HR Hd]. split; [|split].
  - apply rstrip_keeps, squeeze_keeps; [by split | done].
  - by apply dotslash_in_rstrip, dotslash_in_squeeze.
  - apply rstrip_squeeze_single.
Qed.

Lemma normal_form P n col ws body R :
  Forall (fun c => is_space c = false /\ c <> 58 /\ c <> ESC) P ->
  is_number n -> match col with Some c => is_number c | None => True end ->
  Forall (fun c => is_space c = true) ws ->
  marker_word (body ++ [58]) -> body <> [] ->
  Forall (fun c => wordish c = true) body ->
  message_like R ->
  normalize_plain (diag_line P n col ws (body ++ [58]) R)
  = drop_dotslash P ++ placeholder col ++ 58 :: blank ws ++ (body ++ [58])
    ++ rstrip (squeeze R).
Proof.
  intros HP Hn Hcol Hws Hmk Hb0 Hbody HR.
  destruct (message_tail R HR) as (HT & _ & _).
  assert (Forall (fun c => c <> 58) P) as HP58.
  { eapply Forall_impl; [exact HP|]. by intros c (_ & ? & _). }
  assert (Forall (fun c => is_space c = false) P) as HPs.
  { eapply Forall_impl; [exact HP|]. by intros c (? & _). }
  assert (Forall (dead WARNING_LOC_COLON_RE) (rstrip (squeeze R))) as Hdc.
  { eapply Forall_impl; [exact HT|]. intros c [Hc _]. by apply colon_dead. }
  assert (Forall (dead WARNING_LOC_LINE_RE) (rstrip (squeeze R))) as Hdl.
  { eapply Forall_impl; [exact HT|]. intros c [Hc _]. by apply line_dead. }
  assert (Forall (fun c => c <> 58) (rstrip (squeeze R))) as HT58.
  { eapply Forall_impl; [exact HT|]. by intros c [? _]. }
  destruct col as [c|].
  - rewrite normalize_plain_colon by done.
    rewrite plain_head_path by done. rewrite plain_tail_message by apply HR.
    rewrite (sub_scan_all_dead WARNING_LOC_COLON_RE) by (done || apply colon_no_empty).
    rewrite sub_scan_none by (by apply line_needs_colon).
    rewrite (sub_scan_all_dead WARNING_LOC_LINE_RE) by (done || apply line_no_empty).
    cbn [placeholder]. by rewrite <- (app_assoc body).
  - rewrite normalize_plain_line by done.
    rewrite plain_head_path by done. rewrite plain_tail_message by apply HR.
    rewrite sub_scan_none by (by apply colon_needs_colon).
    rewrite (sub_scan_all_dead WARNING_LOC_COLON_RE) by (done || apply colon_no_empty).
    cbn [tail].
    rewrite (sub_scan_all_dead WARNING_LOC_LINE_RE) by (done || apply line_no_empty).
    cbn [placeholder]. by rewrite <- (app_assoc body).
Qed.

(** ** The normal form is settled *)

Lemma search_first r c t :
  match_at r true (c :: t) = None -> search_from r false (c :: t) = false ->
  search_from r true (c :: t) = false.
Proof.
  intros H1 H2. cbn [search_from] in *. rewrite H1.
  by destruct (match_at r false (c :: t)).
Qed.

Lemma blanks_single_nonblank u v :
  Forall (fun c => is_space c = false) u -> blanks_single (u ++ v) = blanks_single v.
Proof.
  induction 1 as [|c u Hc _ IH]; [done|]. cbn [app blanks_single]. by rewrite Hc, IH.
Qed.

Lemma wordish_not_esc c : wordish c = true -> c <> ESC.
Proof. intros H ->. vm_compute in H. discriminate. Qed.

Lemma placeholder_facts col :
  Forall (fun c => is_space c = false /\ c <> ESC) (placeholder col)
  /\ exists Z, placeholder col = 58 :: Z.
Proof.
  destruct col; cbn [placeholder].
  - change (of_string ":LINE:COL") with [58; 76; 73; 78; 69; 58; 67; 79; 76].
    split; [|by eexists]. by repeat (constructor; [split; [reflexivity | discriminate]|]).
  - change (of_string ":LINE") with [58; 76; 73; 78; 69].
    split; [|by eexists]. by repeat (constructor; [split; [reflexivity | discriminate]|]).
Qed.

Section LocationSearch.
Variable r : re.
Hypothesis r_empty : forall b, match_at r b [] = None.
Hypothesis r_dead : forall c, c <> 58 -> dead r c.
Hypothesis r_short : forall b rest,
  match rest with [] => True | x :: _ => is_digit09 x = false end ->
  match_at r b (58 :: rest) = None.
Hypothesis r_needs : forall b T,
  Forall (fun c => c <> 58) T -> match_at r b (58 :: T) = None.

Lemma location_search_free P0 col ws body T :
  Forall (fun c => c <> 58) P0 -> body <> [] ->
  Forall (fun c => wordish c = true) body -> Forall (fun c => c <> 58) T ->
  forall b,
  search_from r b (P0 ++ placeholder col ++ 58 :: blank ws ++ (body ++ [58]) ++ T) = false.
Proof.
  intros HP Hb0 Hbody HT.
  assert (forall b, search_from r b (58 :: blank ws ++ (body ++ [58]) ++ T) = false) as Htail.
  { intros b. apply search_none.
    { apply r_short. rewrite <- app_assoc. by apply after_location_no_digit. }
    apply (search_dead r (blank ws)).
    { destruct ws; cbn [blank]; [constructor|]. constructor; [|constructor].
      by apply r_dead. }
    intros b1. rewrite <- app_assoc. apply (search_dead r body).
    { eapply Forall_impl; [exact Hbody|]. intros c Hc. apply r_dead.
      by destruct (wordish_facts c Hc) as (_ & ? & _). }
    intros b2. cbn [app]. apply search_none; [by apply r_needs|].
    rewrite <- (app_nil_r T). apply (search_dead r T).
    { eapply Forall_impl; [exact HT|]. intros c Hc. by apply r_dead. }
    intros b3. by apply search_nil. }
  apply search_dead.
  { eapply Forall_impl; [exact HP|]. intros c Hc. by apply r_dead. }
  intros b. destruct col; cbn [placeholder].
  - change (of_string ":LINE:COL") with [58; 76; 73; 78; 69; 58; 67; 79; 76]. cbn [app].
    repeat (apply search_none;
            [first [apply r_short; reflexivity | apply r_dead; discriminate]|]).
    apply Htail.
  - change (of_string ":LINE") with [58; 76; 73; 78; 69]. cbn [app].
    repeat (apply search_none;
            [first [apply r_short; reflexivity | apply r_dead; discriminate]|]).
    apply Htail.
Qed.

End LocationSearch.

Lemma dotslash_search_settled P0 col ws body T :
  Forall (fun c => is_space c = false) P0 -> starts_dotslash P0 = false ->
  body <> [] -> Forall (fun c => wordish c = true) body ->
  dotslash_in T = false ->
  search_from DOTSLASH_RE true
    (P0 ++ placeholder col ++ 58 :: blank ws ++ (body ++ [58]) ++ T) = false.
Proof.
  intros HP Hs Hb0 Hbody HT.
  destruct (placeholder_facts col) as (Hph & Z & HZ).
  assert (forall u, Forall (fun c => is_space c = false) u ->
            Forall (fun c => forall t, match_at DOTSLASH_RE false (c :: t) = None) u)
    as Hinert.
  { intros u Hu. eapply Forall_impl; [exact Hu|]. intros c Hc t.
    by apply dotslash_nonblank. }
  assert (search_from DOTSLASH_RE false
            (placeholder col ++ 58 :: blank ws ++ (body ++ [58]) ++ T) = false) as Hrest.
  { apply search_inert.
    { apply Hinert. eapply Forall_impl; [exact Hph|]. by intros c [? _]. }
    apply search_none; [by apply dotslash_nonblank|].
    assert (search_from DOTSLASH_RE false ((body ++ [58]) ++ T) = false) as Hbody'.
    { rewrite <- app_assoc. apply search_inert.
      { apply Hinert. eapply Forall_impl; [exact Hbody|]. intros c Hc.
        by destruct (wordish_facts c Hc) as (? & _). }
      cbn [app]. apply search_none; [by apply dotslash_nonblank|].
      by apply dotslash_search_free. }
    destruct ws as [|w ws']; cbn [blank app]; [exact Hbody'|].
    apply search_none; [|exact Hbody'].
    apply dotslash_fail; [done|]. intros _.
    destruct body as [|x body']; [done|]. apply Forall_cons in Hbody as [Hx _].
    destruct (wordish_facts x Hx) as (_ & _ & _ & H46 & _).
    apply N.eqb_neq in H46. cbn [app starts_dotslash].
    destruct ((body' ++ [58]) ++ T); [done|]. by rewrite H46. }
  destruct P0 as [|c t].
  - cbn [app]. rewrite HZ in Hrest |- *. cbn [app] in Hrest |- *.
    apply search_first; [|exact Hrest].
    apply dotslash_dead; [reflexivity | discriminate | discriminate].
  - apply Forall_cons in HP as [Hc Ht]. cbn [app].
    apply search_first.
    + apply dotslash_fail; [|by rewrite Hc]. intros _.
      destruct t as [|d t']; [|exact Hs].
      cbn [app]. rewrite HZ. cbn [app starts_dotslash]. by rewrite andb_false_r.
    + apply (search_inert DOTSLASH_RE (c :: t)); [|exact Hrest].
      apply Hinert. by constructor.
Qed.

Lemma normal_form_settled P0 col ws body T :
  Forall (fun c => is_space c = false /\ c <> 58 /\ c <> ESC) P0 ->
  starts_dotslash P0 = false ->
  body <> [] -> Forall (fun c => wordish c = true) body ->
  Forall (fun c => c <> 58 /\ c <> ESC) T ->
  dotslash_in T = false -> blanks_single T = true ->
  settled (P0 ++ placeholder col ++ 58 :: blank ws ++ (body ++ [58]) ++ T).
Proof.
  intros HP Hs Hb0 Hbody HT Hd Hbs.
  destruct (placeholder_facts col) as (Hph & _).
  assert (Forall (fun c => is_space c = false) P0) as HPs.
  { eapply Forall_impl; [exact HP|]. by intros c (? & _). }
  assert (Forall (fun c => c <> 58) P0) as HP58.
  { eapply Forall_impl; [exact HP|]. by intros c (_ & ? & _). }
  assert (Forall (fun c => c <> 58) T) as HT58.
  { eapply Forall_impl; [exact HT|]. by intros c [? _]. }
  split; [|split; [|split; [|split]]].
  - unfold re_search.
    rewrite <- (app_nil_r (P0 ++ _)). apply search_dead; [|intros b; apply search_nil, ansi_no_empty].
    apply Forall_forall. intros c Hc. apply ansi_dead.
    apply elem_of_app in Hc as [Hc|Hc].
    { rewrite Forall_forall in HP. by destruct (HP c Hc) as (_ & _ & ?). }
    apply elem_of_app in Hc as [Hc|Hc].
    { rewrite Forall_forall in Hph. by destruct (Hph c Hc) as (_ & ?). }
    apply elem_of_cons in Hc as [->|Hc]; [discriminate|].
    apply elem_of_app in Hc as [Hc|Hc].
    { destruct ws; cbn [blank] in Hc; [by apply elem_of_nil in Hc|].
      apply list_elem_of_singleton in Hc as ->. discriminate. }
    apply elem_of_app in Hc as [Hc|Hc].
    { apply elem_of_app in Hc as [Hc|Hc].
      - rewrite Forall_forall in Hbody. by apply wordish_not_esc, Hbody.
      - apply list_elem_of_singleton in Hc as ->. discriminate. }
    rewrite Forall_forall in HT. by destruct (HT c Hc) as (_ & ?).
  - rewrite blanks_single_nonblank by done.
    rewrite blanks_single_nonblank by (eapply Forall_impl; [exact Hph|]; by intros c [? _]).
    change (58 :: blank ws ++ (body ++ [58]) ++ T)
      with ([58] ++ blank ws ++ (body ++ [58]) ++ T).
    rewrite (blanks_single_nonblank [58]) by (by repeat constructor).
    assert (blanks_single ((body ++ [58]) ++ T) = true) as Hb.
    { rewrite blanks_single_nonblank; [done|]. apply Forall_app. split.
      - eapply Forall_impl; [exact Hbody|]. intros c Hc.
        by destruct (wordish_facts c Hc) as (? & _).
      - by repeat constructor. }
    destruct ws as [|w ws']; cbn [blank app]; [exact Hb|].
    destruct body as [|x body']; [done|]. cbn [app] in Hb |- *.
    pose proof Hbody as Hx. apply Forall_cons in Hx as [Hx _].
    destruct (wordish_facts x Hx) as (Hxs & _).
    cbn [blanks_single] in Hb |- *. rewrite Hxs in Hb |- *.
    change (is_space 32) with true. change (32 =? 32) with true.
    cbn [andb negb] in Hb |- *. exact Hb.
  - by apply dotslash_search_settled.
  - by apply (location_search_free WARNING_LOC_COLON_RE
                colon_no_empty colon_dead colon_fail_short colon_needs_colon).
  - by apply (location_search_free WARNING_LOC_LINE_RE
                line_no_empty line_dead line_fail_short line_needs_colon).
Qed.

Lemma drop_dotslash_keeps (Q : N -> Prop) P : Forall Q P -> Forall Q (drop_dotslash P).
Proof.
  intros H. unfold drop_dotslash. destruct (starts_dotslash P); [|done].
  by apply Forall_drop.
Qed.

(** C8, as amended: take a diagnostic of the usual form, with ANSI
    sequences anywhere in it: a path, the location [:line] or [:line:col] in
    the digits 0 to 9, a colon, blanks, the marker word and a message, where
    the path has no blank and no colon and does not start with [././], and
    the message has no colon and no [./].  Its normal form is the path
    without the [./] it may start with, the placeholder, the colon, one
    blank if there were blanks, the marker word, and the message with its
    runs of blanks as single blanks and none at its end; and this normal
    form is a fixed point: normalising it again changes nothing. *)
Theorem normalize_idempotent_on_diagnostics
    (x P n : list N) (col : option (list N)) (ws mk R : list N) :
  with_ansi x (diag_line P n col ws mk R) ->
  is_number n -> match col with Some c => is_number c | None => True end ->
  Forall (fun c => is_space c = true) ws ->
  marker_word mk ->
  path_like P -> message_like R ->
  normalize_warning_line x
  = drop_dotslash P ++ placeholder col ++ 58 :: blank ws ++ mk ++ rstrip (squeeze R)
  /\ normalize_warning_line (normalize_warning_line x) = normalize_warning_line x.
Proof.
  intros Hx Hn Hcol Hws Hmk [HP HP0] HR. apply ansi_strip_with_ansi in Hx.
  destruct (marker_word_split mk Hmk) as (body & -> & Hb0 & Hbody).
  assert (normalize_warning_line x
          = drop_dotslash P ++ placeholder col ++ 58 :: blank ws ++ (body ++ [58])
            ++ rstrip (squeeze R)) as Hnf.
  { unfold normalize_warning_line. rewrite Hx. by apply normal_form. }
  split; [exact Hnf|]. rewrite Hnf. apply normalize_settled.
  destruct (message_tail R HR) as (HT & Hd & Hbs).
  apply normal_form_settled; try done. by apply drop_dotslash_keeps.
Qed.

(** * Part III: processes and jobs *)

Ltac unM := unfold mbind, M_bind, mret, M_ret, bind, ret, raise, modify in *.

(** ** One command *)

Lemma run_and_log_ok E cmd log cwd w :
  shutdown w = false ->
  exists w',
    run_and_log E cmd log cwd w = (Ok (rc_at E w 0), w')
    /\ shutdown w' = false
    /\ spawned w' = spawned w ++ [Spawn (next_id w) cmd cwd]
    /\ next_id w' = S (next_id w)
    /\ child_procs w' = remove_first (next_id w) (child_procs w ++ [next_id w])
    /\ child_pids w' = child_pids w /\ forked w' = forked w
    /\ signals w' = signals w /\ trace w' = trace w
    /\ (forall p, is_Some (files w !! p) -> is_Some (files w' !! p)).
Proof.
  intros Hs. destruct w as [sh cp pids sp fk sg fs tr nid]. simpl in Hs. subst sh.
  eexists. split.
  { unfold run_and_log, _spawn, _reap, write, rc_at. unM. simpl.
    rewrite Nat.add_0_r. reflexivity. }
  simpl. repeat split; try done.
  intros p Hp. destruct (decide (log = p)) as [->|Hne].
  - rewrite lookup_insert_eq. eauto.
  - by rewrite lookup_insert_ne.
Qed.

Lemma write_ok log text w :
  exists w',
    write log text w = (Ok tt, w')
    /\ shutdown w' = shutdown w /\ spawned w' = spawned w
    /\ next_id w' = next_id w /\ child_procs w' = child_procs w
    /\ child_pids w' = child_pids w /\ forked w' = forked w
    /\ signals w' = signals w /\ trace w' = trace w
    /\ files w' = <[log := default [] (files w !! log) ++ text]> (files w).
Proof. eexists. split; [reflexivity|]. by destruct w. Qed.

Lemma open_w_ok log w :
  exists w',
    open_w log w = (Ok tt, w')
    /\ shutdown w' = shutdown w /\ spawned w' = spawned w
    /\ next_id w' = next_id w /\ child_procs w' = child_procs w
    /\ child_pids w' = child_pids w /\ forked w' = forked w
    /\ signals w' = signals w /\ trace w' = trace w
    /\ files w' = <[log := []]> (files w).
Proof. eexists. split; [reflexivity|]. by destruct w. Qed.

(** A handle that is not in the registry is added and removed again. *)
Lemma remove_first_snoc h l : h ∉ l -> remove_first h (l ++ [h]) = l.
Proof.
  induction l as [|y l IH]; simpl; intros H.
  - by rewrite Nat.eqb_refl.
  - apply not_elem_of_cons in H as [H1 H2].
    apply Nat.eqb_neq in H1. rewrite H1. by rewrite IH.
Qed.

Lemma remove_first_absent h l : h ∉ l -> remove_first h l = l.
Proof.
  induction l as [|y l IH]; simpl; intros H; [done|].
  apply not_elem_of_cons in H as [H1 H2].
  apply Nat.eqb_neq in H1. rewrite H1. by rewrite IH.
Qed.

Lemma remove_first_subset h l x : x ∈ remove_first h l -> x ∈ l.
Proof.
  induction l as [|y l IH]; simpl; [done|].
  destruct (Nat.eqb h y); [by right|].
  intros [->|H]%elem_of_cons; [by left | right; auto].
Qed.

Lemma remove_first_NoDup h l : NoDup l -> NoDup (remove_first h l).
Proof.
  induction 1 as [|y l Hy Hl IH]; simpl; [constructor|].
  destruct (Nat.eqb h y); [done|]. constructor; [|done].
  intros H. by apply remove_first_subset in H.
Qed.

Lemma remove_first_gone h l : NoDup l -> h ∉ remove_first h l.
Proof.
  induction 1 as [|y l Hy Hl IH]; simpl; [apply not_elem_of_nil|].
  destruct (Nat.eqb h y) eqn:E.
  - apply Nat.eqb_eq in E. by subst.
  - apply Nat.eqb_neq in E. by apply not_elem_of_cons.
Qed.

(** ** A sequence of commands *)

Lemma rc_at_S E w w' i : next_id w' = S (next_id w) -> rc_at E w' i = rc_at E w (S i).
Proof. unfold rc_at. intros ->. f_equal. f_equal. lia. Qed.

Lemma run_commands_pass E log cwd cmds : forall w,
  shutdown w = false ->
  (forall i, (i < length cmds)%nat -> rc_at E w i = 0%Z) ->
  exists w' new,
    run_commands E log cwd cmds w = (Ok 0%Z, w')
    /\ shutdown w' = false
    /\ spawned w' = spawned w ++ new /\ map sp_cmd new = cmds
    /\ next_id w' = (next_id w + length cmds)%nat
    /\ (forall p, is_Some (files w !! p) -> is_Some (files w' !! p)).
Proof.
  induction cmds as [|cmd cmds IH]; intros w Hs Hrc.
  - exists w, []. cbn [run_commands]. rewrite app_nil_r, Nat.add_0_r. by repeat split.
  - destruct (write_ok log (cmd_text cmd) w)
      as (w1 & E1 & Hs1 & Hsp1 & Hn1 & _ & _ & _ & _ & _ & Hf1).
    destruct (run_and_log_ok E cmd log cwd w1)
      as (w2 & E2 & Hs2 & Hsp2 & Hn2 & _ & _ & _ & _ & _ & Hf2); [congruence|].
    assert (rc_at E w1 0 = 0%Z) as Hz.
    { unfold rc_at. rewrite Hn1. apply (Hrc 0%nat). simpl. lia. }
    destruct (IH w2) as (w3 & new & E3 & Hs3 & Hsp3 & Hnew & Hn3 & Hf3); [done| |].
    { intros i Hi. rewrite (rc_at_S E w w2) by congruence. apply Hrc. simpl. lia. }
    exists w3, (Spawn (next_id w1) cmd cwd :: new).
    split.
    { cbn [run_commands]. unM. rewrite E1, E2, Hz. exact E3. }
    split; [done|]. split.
    { rewrite Hsp3, Hsp2, Hsp1. by rewrite <- app_assoc. }
    split; [simpl; by rewrite Hnew|]. split; [simpl; lia|].
    intros p Hp. apply Hf3, Hf2. rewrite Hf1.
    destruct (decide (log = p)) as [->|Hne];
      [rewrite lookup_insert_eq; eauto | by rewrite lookup_insert_ne].
Qed.

Lemma run_commands_fail E log cwd cmds : forall w k,
  shutdown w = false -> (k < length cmds)%nat ->
  (forall i, (i < k)%nat -> rc_at E w i = 0%Z) -> rc_at E w k <> 0%Z ->
  exists w' new,
    run_commands E log cwd cmds w = (Ok (rc_at E w k), w')
    /\ shutdown w' = false
    /\ spawned w' = spawned w ++ new /\ map sp_cmd new = take (S k) cmds
    /\ next_id w' = (next_id w + S k)%nat
    /\ (forall p, is_Some (files w !! p) -> is_Some (files w' !! p)).
Proof.
  induction cmds as [|cmd cmds IH]; intros w k Hs Hk Hrc Hbad; [simpl in Hk; lia|].
  destruct (write_ok log (cmd_text cmd) w)
    as (w1 & E1 & Hs1 & Hsp1 & Hn1 & _ & _ & _ & _ & _ & Hf1).
  destruct (run_and_log_ok E cmd log cwd w1)
    as (w2 & E2 & Hs2 & Hsp2 & Hn2 & _ & _ & _ & _ & _ & Hf2); [congruence|].
  assert (rc_at E w1 0 = rc_at E w 0) as Hz.
  { unfold rc_at. by rewrite Hn1. }
  assert (forall p, is_Some (files w !! p) -> is_Some (files w2 !! p)) as Hf.
  { intros p Hp. apply Hf2. rewrite Hf1.
    destruct (decide (log = p)) as [->|Hne];
      [rewrite lookup_insert_eq; eauto | by rewrite lookup_insert_ne]. }
  destruct k as [|k].
  - exists w2, [Spawn (next_id w1) cmd cwd]. split.
    { cbn [run_commands]. unM. rewrite E1, E2, Hz.
      destruct (rc_at E w 0 =? 0)%Z eqn:Ez; [|done].
      apply Z.eqb_eq in Ez. done. }
    split; [done|]. split; [by rewrite Hsp2, Hsp1|].
    split; [done|]. split; [lia | done].
  - destruct (IH w2 k) as (w3 & new & E3 & Hs3 & Hsp3 & Hnew & Hn3 & Hf3);
      [done | simpl in Hk; lia | | |].
    { intros i Hi. rewrite (rc_at_S E w w2) by congruence. apply Hrc. lia. }
    { by rewrite (rc_at_S E w w2) by congruence. }
    exists w3, (Spawn (next_id w1) cmd cwd :: new). split.
    { cbn [run_commands]. unM. rewrite E1, E2, Hz.
      rewrite (Hrc 0%nat) by lia. cbn [Z.eqb].
      rewrite E3. by rewrite (rc_at_S E w w2) by congruence. }
    split; [done|]. split.
    { rewrite Hsp3, Hsp2, Hsp1. by rewrite <- app_assoc. }
    split; [simpl; by rewrite Hnew|]. split; [lia|]. auto.
Qed.

(** ** What a job writes to its log *)

Lemma run_and_log_files E cmd log cwd w :
  shutdown w = false ->
  files (run_and_log E cmd log cwd w).2
  = <[log := default [] (files w !! log) ++ concat (pr_lines (run_of E (next_id w)))]>
      (files w).
Proof.
  intros Hs. destruct w as [sh cp pids sp fk sg fs tr nid]. simpl in Hs. subst sh.
  unfold run_and_log, _spawn, _reap, write. unM. reflexivity.
Qed.

Lemma run_commands_text E log cwd cmds : forall w content,
  shutdown w = false -> files w !! log = Some content ->
  exists rc w',
    run_commands E log cwd cmds w = (Ok rc, w')
    /\ files w' !! log = Some (content ++ commands_text E (next_id w) cmds)
    /\ (forall p, p <> log -> files w' !! p = files w !! p).
Proof.
  induction cmds as [|cmd cmds IH]; intros w content Hs Hc.
  - exists 0%Z, w. split; [done|]. simpl. by rewrite app_nil_r.
  - destruct (write_ok log (cmd_text cmd) w)
      as (w1 & E1 & Hs1 & _ & Hn1 & _ & _ & _ & _ & _ & Hf1).
    destruct (run_and_log_ok E cmd log cwd w1)
      as (w2 & E2 & Hs2 & _ & Hn2 & _); [congruence|].
    assert (files w1 !! log = Some (content ++ cmd_text cmd)) as Hc1.
    { rewrite Hf1, Hc. simpl. by rewrite lookup_insert_eq. }
    assert (rc_at E w1 0 = pr_rc (run_of E (next_id w))) as Hz.
    { unfold rc_at. by rewrite Hn1, Nat.add_0_r. }
    pose proof (run_and_log_files E cmd log cwd w1) as Hf2.
    rewrite E2 in Hf2. cbn [snd] in Hf2. specialize (Hf2 ltac:(congruence)).
    rewrite Hc1, Hn1 in Hf2. simpl in Hf2.
    assert (files w2 !! log
            = Some (content ++ cmd_text cmd ++ concat (pr_lines (run_of E (next_id w)))))
      as Hc2.
    { rewrite Hf2, lookup_insert_eq. by rewrite <- app_assoc. }
    assert (forall p, p <> log -> files w2 !! p = files w !! p) as Ho2.
    { intros p Hp. rewrite Hf2, lookup_insert_ne by done.
      rewrite Hf1. by rewrite lookup_insert_ne. }
    cbn [run_commands commands_text]. unM. rewrite E1, E2, Hz.
    destruct (pr_rc (run_of E (next_id w)) =? 0)%Z eqn:Ez.
    + destruct (IH w2 _ Hs2 Hc2) as (rc & w3 & E3 & Hc3 & Ho3).
      exists rc, w3. split; [done|]. split.
      * rewrite Hc3, Hn2, Hn1. by rewrite <- !app_assoc.
      * intros p Hp. rewrite Ho3 by done. by apply Ho2.
    + exists (pr_rc (run_of E (next_id w))), w2. split; [done|]. split; [|done].
      rewrite Hc2. by rewrite app_nil_r.
Qed.

Lemma job_header_files log header w :
  exists w1 w2, open_w log w = (Ok tt, w1) /\ write log header w1 = (Ok tt, w2)
    /\ shutdown w2 = shutdown w /\ next_id w2 = next_id w
    /\ files w2 !! log = Some header
    /\ (forall p, p <> log -> files w2 !! p = files w !! p).
Proof.
  destruct (open_w_ok log w) as (w1 & E1 & Hs1 & _ & Hn1 & _ & _ & _ & _ & _ & Hf1).
  destruct (write_ok log header w1) as (w2 & E2 & Hs2 & _ & Hn2 & _ & _ & _ & _ & _ & Hf2).
  exists w1, w2. split; [done|]. split; [done|].
  split; [congruence|]. split; [congruence|]. split.
  - rewrite Hf2, lookup_insert_eq, Hf1, lookup_insert_eq. done.
  - intros p Hp. rewrite Hf2, lookup_insert_ne, Hf1, lookup_insert_ne; done.
Qed.

Lemma ran_since_app w w' new :
  spawned w' = spawned w ++ new -> ran_since w w' = map sp_cmd new.
Proof. unfold ran_since. intros ->. by rewrite drop_app_length. Qed.

(** C3: [build_config] runs the five commands in order (clean, configure
    for the named config, disable WERROR, regenerate the configuration,
    build with warnings not fatal).  Whatever the exit codes of the steps:
    if step [k] is the first to return a code that is not 0, that code is the
    result and exactly the first [k + 1] commands were started; if all five
    return 0, the result is 0 and all five were started. *)
Theorem build_config_halts_at_first_failure E log_path kernel_dir config_name w :
  shutdown w = false ->
  build_commands config_name
  = [ ["vng"; "--clean"]; ["make"; config_name];
      ["./scripts/config"; "-d"; "WERROR"]; ["make"; "olddefconfig"];
      ["vng"; "--build"; "--skip-config"; "KCFLAGS=-Wno-error"] ]%string
  /\ (forall k, (k < 5)%nat ->
        (forall i, (i < k)%nat -> rc_at E w i = 0%Z) -> rc_at E w k <> 0%Z ->
        exists w',
          build_config E log_path kernel_dir config_name w = (Ok (rc_at E w k), w')
          /\ ran_since w w' = take (S k) (build_commands config_name))
  /\ ((forall i, (i < 5)%nat -> rc_at E w i = 0%Z) ->
        exists w',
          build_config E log_path kernel_dir config_name w = (Ok 0%Z, w')
          /\ ran_since w w' = build_commands config_name).
Proof.
  intros Hs. split; [reflexivity|].
  destruct (open_w_ok log_path w)
    as (w1 & E1 & Hs1 & Hsp1 & Hn1 & _).
  destruct (write_ok log_path
              (header_text ["build-log mode"; "log=" +:+ log_path;
                            "kernel_dir=" +:+ kernel_dir; "config=" +:+ config_name]%string) w1)
    as (w2 & E2 & Hs2 & Hsp2 & Hn2 & _).
  assert (forall i, rc_at E w2 i = rc_at E w i) as Hrc.
  { intros i. unfold rc_at. by rewrite Hn2, Hn1. }
  split.
  - intros k Hk Hz Hbad.
    destruct (run_commands_fail E log_path kernel_dir (build_commands config_name) w2 k)
      as (w3 & new & E3 & _ & Hsp3 & Hnew & _); [congruence | done | | | ].
    { intros i Hi. rewrite Hrc. by apply Hz. }
    { by rewrite Hrc. }
    exists w3. split.
    + unfold build_config. unM. rewrite E1, E2, E3. by rewrite Hrc.
    + rewrite <- Hnew. apply ran_since_app. congruence.
  - intros Hz.
    destruct (run_commands_pass E log_path kernel_dir (build_commands config_name) w2)
      as (w3 & new & E3 & _ & Hsp3 & Hnew & _); [congruence | | ].
    { intros i Hi. rewrite Hrc. by apply Hz. }
    exists w3. split.
    + unfold build_config. unM. by rewrite E1, E2, E3.
    + rewrite <- Hnew. apply ran_since_app. congruence.
Qed.

(** ** Invariants of the helpers *)

Lemma keeps_ret {A} I (a : A) : keeps I (mret a).
Proof. by intros w Hw. Qed.

Lemma keeps_raise {A} I e : keeps I (@raise A e).
Proof. by intros w Hw. Qed.

Lemma keeps_modify I f : (forall w, I w -> I (f w)) -> keeps I (modify f).
Proof. intros Hf w Hw. by apply Hf. Qed.

Lemma keeps_bind {A B} I (m : M A) (k : A -> M B) :
  keeps I m -> (forall a, keeps I (k a)) -> keeps I (mbind k m).
Proof.
  intros Hm Hk w Hw. unM. specialize (Hm w Hw).
  destruct (m w) as [[a|e] w']; simpl in *; [by apply Hk | done].
Qed.

Section Jobs.
Variables (E : env) (I : world -> Prop).
Hypothesis I_files : forall f w, I w -> I (set_files f w).
Hypothesis I_spawn : forall cmd cwd, keeps I (_spawn cmd cwd).
Hypothesis I_reap : forall h, keeps I (_reap E h).
Hypothesis I_boot : forall k, keeps I (_run_vng_boot E k).
Hypothesis I_sigint : keeps I _sigint_handler.

Lemma keeps_write log text : keeps I (write log text).
Proof. apply keeps_modify. intros w. apply I_files. Qed.

Lemma keeps_open_w log : keeps I (open_w log).
Proof. apply keeps_modify. intros w. apply I_files. Qed.

Lemma keeps_run_and_log cmd log cwd : keeps I (run_and_log E cmd log cwd).
Proof.
  unfold run_and_log. apply keeps_bind; [apply I_spawn|]. intros h.
  apply keeps_bind; [apply keeps_write|]. intros _. apply I_reap.
Qed.

Lemma keeps_run_commands log cwd cmds : keeps I (run_commands E log cwd cmds).
Proof.
  induction cmds as [|cmd cmds IH]; cbn [run_commands]; [apply keeps_ret|].
  apply keeps_bind; [apply keeps_write|]. intros _.
  apply keeps_bind; [apply keeps_run_and_log|]. intros rc.
  destruct (rc =? 0)%Z; [done | apply keeps_ret].
Qed.

Lemma keeps_build_config l k c : keeps I (build_config E l k c).
Proof.
  unfold build_config. apply keeps_bind; [apply keeps_open_w|]. intros _.
  apply keeps_bind; [apply keeps_write|]. intros _. apply keeps_run_commands.
Qed.

Lemma keeps_boot_test l k : keeps I (boot_test E l k).
Proof.
  unfold boot_test. apply keeps_bind; [apply keeps_open_w|]. intros _.
  apply keeps_bind; [apply keeps_write|]. intros _.
  apply keeps_bind; [apply keeps_run_commands|]. intros rc.
  destruct (negb (rc =? 0)%Z); [apply keeps_ret|].
  apply keeps_bind; [apply I_boot|]. intros [boot_rc boot_output].
  apply keeps_bind; [apply keeps_write|]. intros _.
  apply keeps_bind; [apply keeps_write|]. intros _. apply keeps_ret.
Qed.

Lemma keeps_do_op o w : I w -> I (do_op E o w).
Proof.
  destruct o; cbn [do_op].
  - apply I_spawn.
  - apply I_reap.
  - apply keeps_run_and_log.
  - apply keeps_build_config.
  - apply I_boot.
  - apply keeps_boot_test.
  - apply I_sigint.
Qed.

Lemma keeps_do_ops ops : forall w, I w -> I (do_ops E ops w).
Proof.
  unfold do_ops. induction ops as [|o ops IH]; intros w Hw; [done|].
  cbn [foldl]. by apply IH, keeps_do_op.
Qed.

End Jobs.

(** ** The shutdown flag *)

Lemma _spawn_refused cmd cwd w :
  shutdown w = true -> _spawn cmd cwd w = (Raise KeyboardInterrupt, w).
Proof. intros H. unfold _spawn. by rewrite H. Qed.

Lemma _run_vng_boot_refused E k w :
  shutdown w = true -> _run_vng_boot E k w = (Ok (1%Z, []), w).
Proof. intros H. unfold _run_vng_boot. by rewrite H. Qed.

(** C7: once the flag is set, [_spawn] starts nothing and raises
    [KeyboardInterrupt] to its caller, which [run_and_log] passes on, the
    terminal-backed launch of [_run_vng_boot] forks nothing, and after any
    further calls of the helpers the flag is still set and no process was
    started or forked. *)
Theorem shutdown_refuses_launch E w :
  shutdown w = true ->
  (forall cmd cwd, _spawn cmd cwd w = (Raise KeyboardInterrupt, w))
  /\ (forall cmd log cwd, (run_and_log E cmd log cwd w).1 = Raise KeyboardInterrupt)
  /\ (forall k, _run_vng_boot E k w = (Ok (1%Z, []), w))
  /\ (forall ops,
        shutdown (do_ops E ops w) = true
        /\ spawned (do_ops E ops w) = spawned w
        /\ forked (do_ops E ops w) = forked w).
Proof.
  intros Hs. split; [intros; by apply _spawn_refused|].
  split. { intros. unfold run_and_log. unM. by rewrite _spawn_refused. }
  split; [intros; by apply _run_vng_boot_refused|].
  intros ops.
  apply (keeps_do_ops E
           (fun w' => shutdown w' = true /\ spawned w' = spawned w /\ forked w' = forked w));
    [| | | | | done].
  - intros f [] H. exact H.
  - intros cmd cwd w' (H1 & H2 & H3). by rewrite _spawn_refused.
  - intros h [] H. exact H.
  - intros k w' (H1 & H2 & H3). by rewrite _run_vng_boot_refused.
  - intros [] (H1 & H2 & H3). simpl in *. done.
Qed.

(** ** The registry *)

Lemma reg_ok_fresh w : reg_ok w -> next_id w ∉ child_procs w.
Proof.
  intros [_ H] Hin. rewrite Forall_forall in H. apply H in Hin. lia.
Qed.

(** The invariant behind C6: the registry is well formed and the reaped
    handle [h], given out earlier, is not in it. *)
Lemma reaped_stays_out E h ops w :
  reg_ok w -> (h < next_id w)%nat -> h ∉ child_procs w ->
  reg_ok (do_ops E ops w) /\ h ∉ child_procs (do_ops E ops w).
Proof.
  intros H1 H2 H3.
  enough (reg_ok (do_ops E ops w) /\ (h < next_id (do_ops E ops w))%nat
          /\ h ∉ child_procs (do_ops E ops w)) by tauto.
  apply (keeps_do_ops E
           (fun w' => reg_ok w' /\ (h < next_id w')%nat /\ h ∉ child_procs w'));
    [| | | | | done]; clear.
  - intros f [] H. exact H.
  - intros cmd cwd w ([Hn Hf] & Hh & Hout). unfold _spawn.
    destruct (shutdown w); [done|]. simpl. split; [split|split].
    + apply NoDup_app. split; [done|]. split; [|apply NoDup_singleton].
      intros x Hx ->%list_elem_of_singleton.
      rewrite Forall_forall in Hf. apply Hf in Hx. lia.
    + apply Forall_app. split; [|by repeat constructor].
      eapply Forall_impl; [exact Hf|]. simpl. lia.
    + lia.
    + apply not_elem_of_app. split; [done|].
      intros ->%list_elem_of_singleton. lia.
  - intros h' [sh cp pids sp fk sg fs tr nid] ([Hn Hf] & Hh & Hout). simpl in *.
    split; [split|split]; [by apply remove_first_NoDup | | done |].
    + rewrite Forall_forall in *. intros x Hx. by apply Hf, (remove_first_subset h').
    + intros Hx. by apply remove_first_subset in Hx.
  - intros k w ([Hn Hf] & Hh & Hout). unfold _run_vng_boot.
    destruct (shutdown w); [done|].
    destruct (timer_fires _); simpl; (split; [split|split]; [done | | lia | done]);
      (eapply Forall_impl; [exact Hf|]; simpl; lia).
  - intros [sh cp pids sp fk sg fs tr nid] H. exact H.
Qed.

(** C6: the cancellation pass signals exactly the process groups and pids
    that are in the registry when it runs.  [_reap] never raises: it takes
    the handle out of the registry, and leaves the world as it is when the
    handle is not there.  A process reaped before the cancellation, whatever
    the helpers did in between, is not signalled by the pass. *)
Theorem reaped_process_not_signalled E w h ops :
  reg_ok w -> (h < next_id w)%nat ->
  let r := _reap E h w in
  let w2 := do_ops E ops r.2 in
  let c := _sigint_handler w2 in
  r.1 = Ok (pr_rc (run_of E h))
  /\ child_procs r.2 = remove_first h (child_procs w)
  /\ (h ∉ child_procs w -> r.2 = w)
  /\ c.1 = Raise KeyboardInterrupt /\ shutdown c.2 = true
  /\ sent_since w2 c.2
     = map (fun h => KillPg h SIGTERM) (child_procs w2)
       ++ map (fun p => Kill p SIGTERM) (child_pids w2)
  /\ (forall sig, KillPg h sig ∉ sent_since w2 c.2).
Proof.
  intros Hok Hh r w2 c.
  assert (r = (Ok (pr_rc (run_of E h)),
               set_child_procs (remove_first h (child_procs w)) w)) as Er by done.
  assert (sent_since w2 c.2
          = map (fun h => KillPg h SIGTERM) (child_procs w2)
            ++ map (fun p => Kill p SIGTERM) (child_pids w2)) as Es.
  { unfold sent_since, c, _sigint_handler. unM. simpl.
    rewrite <- app_assoc. by rewrite drop_app_length. }
  split; [by rewrite Er|]. split; [rewrite Er; by destruct w|].
  split. { intros Hout. rewrite Er. destruct w. simpl in *. by rewrite remove_first_absent. }
  split; [done|]. split; [done|]. split; [done|].
  intros sig. rewrite Es.
  destruct (reaped_stays_out E h ops r.2) as [_ Hout].
  - rewrite Er. destruct w as [sh cp pids sp fk sg fs tr nid], Hok as [Hn Hf].
    simpl in *. split; [by apply remove_first_NoDup|].
    rewrite Forall_forall in *. intros x Hx. by apply Hf, (remove_first_subset h).
  - rewrite Er. by destruct w.
  - rewrite Er. destruct w as [sh cp pids sp fk sg fs tr nid], Hok as [Hn Hf].
    simpl in *. by apply remove_first_gone.
  - intros [Hin|Hin]%elem_of_app.
    + apply list_elem_of_fmap in Hin as (h' & Heq & Hin). inversion Heq; subst. done.
    + apply list_elem_of_fmap in Hin as (p & Heq & _). inversion Heq.
Qed.

(** ** The boot job *)

Lemma first_uname_rev lines :
  first_uname (rev lines)
  = default [] (last (filter (fun line => re_match UNAME_RE line = true) (strip <$> lines))).
Proof.
  induction lines as [|x lines IH] using rev_ind; [done|].
  rewrite rev_unit, fmap_app, filter_app. cbn [first_uname fmap list_fmap].
  rewrite filter_cons, filter_nil. cbv zeta.
  destruct (re_match UNAME_RE (strip x)) eqn:Ex.
  - rewrite decide_True by done. by rewrite last_snoc.
  - rewrite decide_False by done. by rewrite app_nil_r.
Qed.

Lemma uname_of_last boot_output :
  uname_of boot_output = default [] (last (signature_lines boot_output)).
Proof. unfold uname_of, signature_lines. apply first_uname_rev. Qed.

(** A line that matches the pattern is not empty, so the empty signature
    means that no line matched. *)
Lemma uname_of_empty boot_output :
  uname_of boot_output = [] <-> signature_lines boot_output = [].
Proof.
  rewrite uname_of_last. split; [|by intros ->].
  destruct (signature_lines boot_output) as [|l ls] eqn:E using rev_ind; [done|].
  clear IHls. rewrite last_snoc. simpl. intros ->.
  assert ([] ∈ signature_lines boot_output) as Hin.
  { rewrite E. apply elem_of_app. right. by left. }
  unfold signature_lines in Hin. apply list_elem_of_filter in Hin as [Hm _].
  by vm_compute in Hm.
Qed.

Lemma _run_vng_boot_ok E k w :
  shutdown w = false ->
  exists w',
    _run_vng_boot E k w = (Ok (boot_outcome (boot_of E (next_id w))), w')
    /\ shutdown w' = false
    /\ signals w' = signals w
         ++ (if timer_fires (boot_of E (next_id w)) then [Kill (next_id w) SIGKILL] else [])
    /\ forked w' = forked w ++ [next_id w]
    /\ files w' = files w /\ spawned w' = spawned w /\ trace w' = trace w.
Proof.
  intros Hs. unfold _run_vng_boot, boot_outcome. rewrite Hs.
  destruct (timer_fires _); eexists; (split; [reflexivity|]); by repeat split.
Qed.

(** The build phase of the boot job, when its two commands return 0. *)
Lemma boot_build_ok E log k w :
  shutdown w = false -> rc_at E w 0 = 0%Z -> rc_at E w 1 = 0%Z ->
  exists w1 w2 w3,
    open_w log w = (Ok tt, w1)
    /\ write log (header_text ["boot-check mode"; "log=" +:+ log;
                                "kernel_dir=" +:+ k]%string) w1 = (Ok tt, w2)
    /\ run_commands E log k boot_commands w2 = (Ok 0%Z, w3)
    /\ shutdown w3 = false /\ next_id w3 = (next_id w + 2)%nat
    /\ signals w3 = signals w /\ trace w3 = trace w /\ forked w3 = forked w.
Proof.
  intros Hs H0 H1.
  destruct (open_w_ok log w) as (w1 & E1 & Hs1 & _ & Hn1 & _ & _ & Hk1 & Hg1 & Ht1 & _).
  destruct (write_ok log (header_text ["boot-check mode"; "log=" +:+ log;
                                       "kernel_dir=" +:+ k]%string) w1)
    as (w2 & E2 & Hs2 & _ & Hn2 & _ & _ & Hk2 & Hg2 & Ht2 & _).
  destruct (run_commands_pass E log k boot_commands w2)
    as (w3 & new & E3 & Hs3 & _ & _ & Hn3 & _); [congruence| |].
  { intros i Hi. unfold rc_at in *. rewrite Hn2, Hn1.
    destruct i as [|[|i]]; [by rewrite Nat.add_0_r in * | done | simpl in Hi; lia]. }
  exists w1, w2, w3. split; [done|]. split; [done|]. split; [done|].
  split; [done|]. split; [simpl in Hn3; lia|].
  pose proof (keeps_run_commands E
    (fun w' => signals w' = signals w /\ trace w' = trace w /\ forked w' = forked w)) as Hk.
  assert (forall cmd cwd, keeps (fun w' => signals w' = signals w /\ trace w' = trace w
                                           /\ forked w' = forked w) (_spawn cmd cwd)) as Hsp.
  { intros cmd cwd w' H. unfold _spawn. by destruct (shutdown w'). }
  assert (forall h, keeps (fun w' => signals w' = signals w /\ trace w' = trace w
                                     /\ forked w' = forked w) (_reap E h)) as Hrp.
  { intros h w' H. by destruct w'. }
  specialize (Hk (fun f w' H => ltac:(by destruct w')) Hsp Hrp log k boot_commands w2).
  rewrite E3 in Hk. apply Hk. repeat split; congruence.
Qed.

Lemma boot_test_booted E log k w :
  shutdown w = false -> rc_at E w 0 = 0%Z -> rc_at E w 1 = 0%Z ->
  let pid := (next_id w + 2)%nat in
  let r := boot_outcome (boot_of E pid) in
  exists w' pre,
    boot_test E log k w = (Ok (boot_verdict r), w')
    /\ files w' !! log = Some (pre ++ r.2)
    /\ sent_since w w' = (if timer_fires (boot_of E pid) then [Kill pid SIGKILL] else [])
    /\ forked w' = forked w ++ [pid]
    /\ trace w' = trace w.
Proof.
  intros Hs H0 H1 pid r.
  destruct (boot_build_ok E log k w Hs H0 H1)
    as (wa & wb & w1 & Ea & Eb & E1 & Hs1 & Hn1 & Hg1 & Ht1 & Hf1).
  destruct (_run_vng_boot_ok E k w1 Hs1) as (w2 & E2 & Hs2 & Hg2 & Hf2 & Hfl2 & _ & Ht2).
  rewrite Hn1 in E2, Hg2, Hf2. fold pid in E2, Hg2, Hf2. fold r in E2.
  destruct (write_ok log (of_string ("# cmd: vng -r " +:+ k +:+ " -e 'uname -a'") ++ NL) w2)
    as (w3 & E3 & _ & _ & _ & _ & _ & Hf3 & Hg3 & Ht3 & Hfl3).
  destruct (write_ok log r.2 w3)
    as (w4 & E4 & _ & _ & _ & _ & _ & Hf4 & Hg4 & Ht4 & Hfl4).
  exists w4, (default [] (files w3 !! log)). split.
  { unfold boot_test. unM. rewrite Ea, Eb, E1. cbn [Z.eqb negb].
    rewrite E2. destruct r as [boot_rc boot_output] eqn:Er.
    rewrite E3. simpl in E4. rewrite E4. reflexivity. }
  split; [rewrite Hfl4; by rewrite lookup_insert_eq|].
  split; [|split; [congruence | congruence]].
  unfold sent_since. rewrite Hg4, Hg3, Hg2, Hg1. by rewrite drop_app_length.
Qed.



(** C2: the signature [boot_test] returns is the last line of the transcript
    that matches the pattern, and the empty string when there is none (the
    lines are read without ANSI sequences and outer blanks).  When the boot
    process ended with code 0 and no line matches, the code returned is 1 and
    the signature is empty; in every other case the code is the one of the
    boot process. *)
Theorem boot_test_signature E log k w :
  shutdown w = false -> rc_at E w 0 = 0%Z -> rc_at E w 1 = 0%Z ->
  let r := boot_outcome (boot_of E (next_id w + 2)) in
  let sigs := signature_lines r.2 in
  (forall out, uname_of out = default [] (last (signature_lines out)))
  /\ exists w' rc,
       boot_test E log k w = (Ok (rc, default [] (last sigs)), w')
       /\ (r.1 = 0%Z -> sigs = [] -> rc = 1%Z /\ default [] (last sigs) = [])
       /\ (r.1 <> 0%Z \/ sigs <> [] -> rc = r.1).
Proof.
  intros Hs H0 H1 r sigs. split; [apply uname_of_last|].
  destruct (boot_test_booted E log k w Hs H0 H1) as (w' & pre & E' & _).
  fold r in E'. unfold boot_verdict in E'. rewrite uname_of_last in E'. fold sigs in E'.
  eexists w', _. split; [exact E'|].
  pose proof (uname_of_empty r.2) as Hemp. rewrite uname_of_last in Hemp. fold sigs in Hemp.
  split.
  - intros Hz He. rewrite Hz, He. done.
  - intros [Hnz|Hne].
    + apply Z.eqb_neq in Hnz. by rewrite Hnz.
    + rewrite bool_decide_eq_false_2; [by rewrite andb_false_r|]. by rewrite Hemp.
Qed.

(** ** The orchestrator *)

Lemma insert_keeps_files (fs : gmap string (list N)) log v p :
  is_Some (fs !! p) -> is_Some (<[log := v]> fs !! p).
Proof.
  intros H. destruct (decide (log = p)) as [->|Hne];
    [rewrite lookup_insert_eq; eauto | by rewrite lookup_insert_ne].
Qed.

Lemma run_commands_total E log cwd cmds : forall w,
  shutdown w = false ->
  exists rc w', run_commands E log cwd cmds w = (Ok rc, w')
    /\ shutdown w' = false /\ trace w' = trace w
    /\ (forall p, is_Some (files w !! p) -> is_Some (files w' !! p)).
Proof.
  induction cmds as [|cmd cmds IH]; intros w Hs; [by exists 0%Z, w|].
  destruct (write_ok log (cmd_text cmd) w)
    as (w1 & E1 & Hs1 & _ & _ & _ & _ & _ & _ & Ht1 & Hf1).
  destruct (run_and_log_ok E cmd log cwd w1)
    as (w2 & E2 & Hs2 & _ & _ & _ & _ & _ & _ & Ht2 & Hf2); [congruence|].
  assert (forall p, is_Some (files w !! p) -> is_Some (files w2 !! p)) as Hf.
  { intros p Hp. apply Hf2. rewrite Hf1. by apply insert_keeps_files. }
  destruct (rc_at E w1 0 =? 0)%Z eqn:Ez.
  - destruct (IH w2 Hs2) as (rc & w3 & E3 & Hs3 & Ht3 & Hf3).
    exists rc, w3. split; [cbn [run_commands]; unM; by rewrite E1, E2, Ez|].
    split; [done|]. split; [congruence | auto].
  - exists (rc_at E w1 0), w2. split; [cbn [run_commands]; unM; by rewrite E1, E2, Ez|].
    split; [done|]. split; [congruence | auto].
Qed.

Lemma job_header_ok log header w :
  shutdown w = false ->
  exists w1 w2, open_w log w = (Ok tt, w1) /\ write log header w1 = (Ok tt, w2)
    /\ job_done log w w2.
Proof.
  intros Hs.
  destruct (open_w_ok log w) as (w1 & E1 & Hs1 & _ & _ & _ & _ & _ & _ & Ht1 & Hf1).
  destruct (write_ok log header w1) as (w2 & E2 & Hs2 & _ & _ & _ & _ & _ & _ & Ht2 & Hf2).
  exists w1, w2. split; [done|]. split; [done|]. split; [congruence|].
  split; [congruence|]. split.
  - intros p Hp. rewrite Hf2. apply insert_keeps_files. rewrite Hf1.
    by apply insert_keeps_files.
  - rewrite Hf2, lookup_insert_eq. eauto.
Qed.

Lemma build_config_total E log k c w :
  shutdown w = false ->
  exists rc w', build_config E log k c w = (Ok rc, w') /\ job_done log w w'.
Proof.
  intros Hs.
  destruct (job_header_ok log
              (header_text ["build-log mode"; "log=" +:+ log;
                            "kernel_dir=" +:+ k; "config=" +:+ c]%string) w Hs)
    as (w1 & w2 & E1 & E2 & Hs2 & Ht2 & Hf2 & Hl2).
  destruct (run_commands_total E log k (build_commands c) w2 Hs2)
    as (rc & w3 & E3 & Hs3 & Ht3 & Hf3).
  exists rc, w3. split; [unfold build_config; unM; by rewrite E1, E2, E3|].
  split; [done|]. split; [congruence|]. split; auto.
Qed.

Lemma boot_test_total E log k w :
  shutdown w = false ->
  exists rc uname w', boot_test E log k w = (Ok (rc, uname), w') /\ job_done log w w'.
Proof.
  intros Hs.
  destruct (job_header_ok log
              (header_text ["boot-check mode"; "log=" +:+ log;
                            "kernel_dir=" +:+ k]%string) w Hs)
    as (w1 & w2 & E1 & E2 & Hs2 & Ht2 & Hf2 & Hl2).
  destruct (run_commands_total E log k boot_commands w2 Hs2)
    as (rc & w3 & E3 & Hs3 & Ht3 & Hf3).
  destruct (rc =? 0)%Z eqn:Ez.
  - destruct (_run_vng_boot_ok E k w3 Hs3) as (w4 & E4 & Hs4 & _ & _ & Hf4 & _ & Ht4).
    destruct (boot_outcome (boot_of E (next_id w3))) as [boot_rc boot_output].
    destruct (write_ok log (of_string ("# cmd: vng -r " +:+ k +:+ " -e 'uname -a'") ++ NL) w4)
      as (w5 & E5 & Hs5 & _ & _ & _ & _ & _ & _ & Ht5 & Hf5).
    destruct (write_ok log boot_output w5)
      as (w6 & E6 & Hs6 & _ & _ & _ & _ & _ & _ & Ht6 & Hf6).
    eexists _, _, w6. split.
    { unfold boot_test. unM. rewrite E1, E2, E3, Ez. cbn [negb].
      rewrite E4, E5, E6. reflexivity. }
    split; [congruence|]. split; [congruence|]. split.
    + intros p Hp. rewrite Hf6. apply insert_keeps_files. rewrite Hf5.
      apply insert_keeps_files. rewrite Hf4. auto.
    + rewrite Hf6, lookup_insert_eq. eauto.
  - exists rc, [], w3. split.
    { unfold boot_test. unM. by rewrite E1, E2, E3, Ez. }
    split; [done|]. split; [congruence|]. split; auto.
Qed.

Lemma job_done_trans l1 l2 w w1 w2 :
  job_done l1 w w1 -> job_done l2 w1 w2 -> job_done l2 w w2 /\ is_Some (files w2 !! l1).
Proof.
  intros (H1 & H2 & H3 & H4) (G1 & G2 & G3 & G4).
  split; [|auto]. split; [done|]. split; [congruence|]. split; auto.
Qed.

(** When the pool is left every future holds the value its job returned. *)
Lemma run_pool_ok E P w :
  shutdown w = false ->
  exists r1 r2 r3 r4 rb ub w',
    run_pool E P w
    = (Ok [("baseline-allmodconfig", FutInt r1); ("candidate-allmodconfig", FutInt r2);
           ("baseline-allyesconfig", FutInt r3); ("candidate-allyesconfig", FutInt r4);
           ("boot", FutPair rb ub)]%string, w')
    /\ (boot_test E (boot_log P) (wt_boot P) (submit_builds E P WARN_CONFIGS w).2).1
       = Ok (rb, ub)
    /\ trace w' = trace w
    /\ (forall cfg, cfg ∈ WARN_CONFIGS ->
          is_Some (files w' !! baseline_log P cfg)
          /\ is_Some (files w' !! candidate_log P cfg))
    /\ is_Some (files w' !! boot_log P).
Proof.
  intros Hs.
  destruct (build_config_total E (baseline_log P "allmodconfig")
              (wt_baseline P "allmodconfig") "allmodconfig" w Hs) as (r1 & w1 & E1 & D1).
  destruct (build_config_total E (candidate_log P "allmodconfig")
              (wt_candidate P "allmodconfig") "allmodconfig" w1 (proj1 D1))
    as (r2 & w2 & E2 & D2).
  destruct (build_config_total E (baseline_log P "allyesconfig")
              (wt_baseline P "allyesconfig") "allyesconfig" w2 (proj1 D2))
    as (r3 & w3 & E3 & D3).
  destruct (build_config_total E (candidate_log P "allyesconfig")
              (wt_candidate P "allyesconfig") "allyesconfig" w3 (proj1 D3))
    as (r4 & w4 & E4 & D4).
  destruct (boot_test_total E (boot_log P) (wt_boot P) w4 (proj1 D4))
    as (rb & ub & w5 & E5 & D5).
  assert (submit_builds E P WARN_CONFIGS w
          = (Ok [("baseline-allmodconfig", FutInt r1); ("candidate-allmodconfig", FutInt r2);
                 ("baseline-allyesconfig", FutInt r3); ("candidate-allyesconfig", FutInt r4)]%string,
             w4)) as Eb.
  { unfold WARN_CONFIGS. cbn [submit_builds]. unfold submit. unM.
    by rewrite E1, E2, E3, E4. }
  exists r1, r2, r3, r4, rb, ub, w5. split.
  { unfold run_pool. unM. rewrite Eb. unfold submit. cbv beta iota. by rewrite E5. }
  split; [rewrite Eb; cbn [snd]; by rewrite E5|].
  destruct D1 as (_ & T1 & F1 & L1), D2 as (_ & T2 & F2 & L2),
    D3 as (_ & T3 & F3 & L3), D4 as (_ & T4 & F4 & L4), D5 as (_ & T5 & F5 & L5).
  split; [congruence|]. split; [|done].
  intros cfg Hc. unfold WARN_CONFIGS in Hc.
  apply elem_of_cons in Hc as [->|Hc]; [split; auto 10|].
  apply list_elem_of_singleton in Hc as ->. split; auto 10.
Qed.

(** The loop of [collect] over build futures that hold values. *)
Lemma collect_builds P futures : forall b w,
  Forall (fun lf => lf.1 = "boot"%string \/ exists rc, lf.2 = FutInt rc) futures ->
  exists w' evs,
    collect P futures b w
    = (Ok (b || existsb (fun lf => negb (String.eqb lf.1 "boot") && nonzero lf.2) futures), w')
    /\ files w' = files w /\ trace w' = trace w ++ evs
    /\ Forall build_report_event evs.
Proof.
  induction futures as [|[label fut] futures IH]; intros b w Hf.
  - exists w, []. cbn [collect existsb]. rewrite orb_false_r, app_nil_r. by repeat split.
  - inversion Hf as [|? ? Hhd Htl]; subst. cbn [collect existsb fst snd].
    cbn [fst snd] in Hhd.
    destruct (String.eqb label "boot") eqn:El.
    + cbn [negb andb orb]. by apply IH.
    + destruct Hhd as [Hb|[rc ->]]; [apply String.eqb_neq in El; done|].
      cbn [negb andb result]. unM. destruct (nonzero (FutInt rc)) eqn:En.
      * assert (exists w1 evs1,
          (match log_of_label P label with
           | Some log_path => _show_log_tail log_path
           | None => fun w => (Ok tt, w)
           end) (add_event (EchoBuildFailed label) w) = (Ok tt, w1)
          /\ files w1 = files w /\ trace w1 = trace w ++ evs1
          /\ Forall build_report_event evs1) as (w1 & evs1 & E1 & F1 & T1 & Q1).
        { destruct (log_of_label P label) as [lp|].
          - unfold _show_log_tail. destruct w as [sh cp pids sp fk sg fs tr nid]. simpl.
            destruct (fs !! lp).
            + eexists _, [EchoBuildFailed label; ShowLogTail lp]. split; [reflexivity|].
              simpl. rewrite <- app_assoc. by repeat constructor.
            + eexists _, [EchoBuildFailed label]. split; [reflexivity|].
              by repeat constructor.
          - destruct w. eexists _, [EchoBuildFailed label]. split; [reflexivity|].
            by repeat constructor. }
        destruct (IH true w1 Htl) as (w2 & evs2 & E2 & F2 & T2 & Q2).
        exists w2, (evs1 ++ evs2). unfold echo. unM. rewrite E1, E2.
        rewrite orb_true_r. cbn [orb]. split; [done|]. split; [congruence|].
        split; [rewrite T2, T1; by rewrite app_assoc|]. by apply Forall_app.
      * destruct (IH b (add_event (EchoBuildDone label) w) Htl)
          as (w2 & evs2 & E2 & F2 & T2 & Q2).
        exists w2, (EchoBuildDone label :: evs2). unfold echo. unM. rewrite E2.
        cbn [orb]. split; [done|]. split; [by destruct w|].
        split; [rewrite T2; destruct w; simpl; by rewrite <- app_assoc|].
        by constructor.
Qed.

(** C1: when a build job returned a code that is not 0, [main] ends with
    [sys.exit(2)].  It shows only verdicts of the build jobs, tails of their
    logs and the log directory: no comparison is made and the directory is not
    removed, so the files are those the jobs left, the five logs among them.
    The boot job was not held back by the failed build: its future holds
    what [boot_test] returned, and its log is kept with the others. *)
Theorem main_build_failure E P w :
  let wp := run_pool E P (set_shutdown false w) in
  forall futures, wp.1 = Ok futures ->
  build_failed_in futures ->
  exists w' evs,
    main E P w = (Raise (SystemExit 2), w')
    /\ trace w' = trace w ++ evs /\ Forall build_report_event evs
    /\ (forall cfg, Compared cfg ∉ evs) /\ (forall d, RmTree d ∉ evs)
    /\ files w' = files wp.2
    /\ (forall cfg, cfg ∈ WARN_CONFIGS ->
          is_Some (files w' !! baseline_log P cfg)
          /\ is_Some (files w' !! candidate_log P cfg))
    /\ is_Some (files w' !! boot_log P)
    /\ exists rc uname,
         dict_get "boot" futures = Some (FutPair rc uname)
         /\ (boot_test E (boot_log P) (wt_boot P)
               (submit_builds E P WARN_CONFIGS (set_shutdown false w)).2).1
            = Ok (rc, uname).
Proof.
  intros wp futures Hfut (label & rc & Hin & Hlabel & Hrc).
  destruct (run_pool_ok E P (set_shutdown false w)) as
    (r1 & r2 & r3 & r4 & rb & ub & w1 & E1 & Eb & T1 & L1 & Lb); [by destruct w|].
  unfold wp in *. rewrite E1 in Hfut |- *. cbn [fst snd] in *.
  injection Hfut as <-.
  assert (Forall (fun lf : string * future =>
                    lf.1 = "boot"%string \/ exists rc, lf.2 = FutInt rc)
            [("baseline-allmodconfig", FutInt r1); ("candidate-allmodconfig", FutInt r2);
             ("baseline-allyesconfig", FutInt r3); ("candidate-allyesconfig", FutInt r4);
             ("boot", FutPair rb ub)]%string) as Hshape.
  { do 4 (constructor; [right; by eexists|]). constructor; [by left | constructor]. }
  destruct (collect_builds P _ false w1 Hshape) as (w2 & evs & E2 & F2 & T2 & Q2).
  assert (existsb (fun lf : string * future => negb (String.eqb lf.1 "boot") && nonzero lf.2)
            [("baseline-allmodconfig", FutInt r1); ("candidate-allmodconfig", FutInt r2);
             ("baseline-allyesconfig", FutInt r3); ("candidate-allyesconfig", FutInt r4);
             ("boot", FutPair rb ub)]%string = true) as Hex.
  { apply existsb_exists. exists (label, FutInt rc). split; [by apply list_elem_of_In|].
    simpl. apply String.eqb_neq in Hlabel. rewrite Hlabel. simpl.
    apply Z.eqb_neq in Hrc. by rewrite Hrc. }
  rewrite Hex in E2. cbn [orb] in E2.
  assert (Forall build_report_event (evs ++ [EchoLogs (tmp P)])) as Q.
  { apply Forall_app. split; [done | by repeat constructor]. }
  exists (add_event (EchoLogs (tmp P)) w2), (evs ++ [EchoLogs (tmp P)]).
  split. { unfold main, echo. unM. by rewrite E1, E2. }
  split. { destruct w2, w; simpl in *. rewrite T2, T1. simpl. by rewrite <- app_assoc. }
  split; [done|].
  split. { intros cfg Hc. rewrite Forall_forall in Q. by apply Q in Hc. }
  split. { intros d Hc. rewrite Forall_forall in Q. by apply Q in Hc. }
  assert (files (add_event (EchoLogs (tmp P)) w2) = files w1) as Ef by (by destruct w2).
  split; [done|]. rewrite Ef. split; [done|]. split; [done|].
  exists rb, ub. by split.
Qed.

(** * Part IV: the theorems on concrete runs *)

(** C8 as stated fails: the line [././a.c:1:2: warning: foo] has the shape
    of a diagnostic, its normal form still starts with [./], and a second
    normalisation removes that. *)
Lemma normalize_not_idempotent :
  let x := of_string "././a.c:1:2: warning: foo" in
  is_warning x = true
  /\ normalize_warning_line x = of_string "./a.c:LINE:COL: warning: foo"
  /\ normalize_warning_line (normalize_warning_line x)
     = of_string "a.c:LINE:COL: warning: foo"
  /\ normalize_warning_line (normalize_warning_line x) <> normalize_warning_line x.
Proof. vm_compute. repeat split; discriminate. Qed.

Lemma normalize_idempotent_witness :
  let P := of_string "./drivers/net/foo.c" in
  let R := of_string "    lots   of   space  " in
  let x := ESC :: 91 :: 49 :: 109
           :: diag_line P (of_string "10") (Some (of_string "2")) (of_string "   ")
                (of_string "Warning:") R in
  path_like P /\ message_like R
  /\ normalize_warning_line x
     = of_string "drivers/net/foo.c:LINE:COL: Warning: lots of space"
  /\ normalize_warning_line (normalize_warning_line x) = normalize_warning_line x.
Proof.
  intros P R x.
  assert (path_like P) as HP.
  { split; [|reflexivity]. by repeat (constructor; [by repeat split|]). }
  assert (message_like R) as HR.
  { split; [|reflexivity]. by repeat (constructor; [by repeat split|]). }
  assert (with_ansi x (diag_line P (of_string "10") (Some (of_string "2"))
                         (of_string "   ") (of_string "Warning:") R)) as Hx.
  { apply (wa_seq [49] 109); [by repeat constructor | reflexivity |].
    apply with_ansi_refl. by repeat (constructor; [discriminate|]). }
  assert (is_number (of_string "10")) as Hn by (split; [done | by repeat constructor]).
  assert (is_number (of_string "2")) as Hc by (split; [done | by repeat constructor]).
  assert (Forall (fun c => is_space c = true) (of_string "   ")) as Hws
    by (by repeat constructor).
  assert (marker_word (of_string "Warning:")) as Hmk
    by (unfold marker_word; by repeat constructor).
  split; [exact HP|]. split; [exact HR|].
  exact (normalize_idempotent_on_diagnostics x P (of_string "10") (Some (of_string "2"))
           (of_string "   ") (of_string "Warning:") R Hx Hn Hc Hws Hmk HP HR).
Defined.

(** C9 as stated fails: these two lines have the shape of a diagnostic and
    differ in the line number only, 10 against 11, but the prefix before the
    location ends like a location and a marker, the first pattern matches
    there and takes the colon before the number, and the number stays. *)
Lemma normalize_keeps_line_number :
  let P := of_string "x:1:2:warning" in
  let x := diag_line P (of_string "10") (Some (of_string "5")) (of_string " ")
             (of_string "warning:") (of_string " foo") in
  let y := diag_line P (of_string "11") (Some (of_string "5")) (of_string " ")
             (of_string "warning:") (of_string " foo") in
  x = of_string "x:1:2:warning:10:5: warning: foo"
  /\ is_warning x = true /\ is_warning y = true
  /\ normalize_warning_line x = of_string "x:LINE:COL:warning:10:LINE: warning: foo"
  /\ normalize_warning_line y = of_string "x:LINE:COL:warning:11:LINE: warning: foo"
  /\ normalize_warning_line x <> normalize_warning_line y.
Proof. vm_compute. repeat split; discriminate. Qed.

(** Numbers in other decimal digits than 0 to 9 pass the test of a
    diagnostic and are kept by the normalisation as well. *)
Lemma normalize_keeps_other_digits :
  let x := of_string "a.c:" ++ [1633; 1634] ++ of_string ": warning: foo" in
  let y := of_string "a.c:" ++ [1633; 1635] ++ of_string ": warning: foo" in
  is_warning x = true /\ is_warning y = true
  /\ normalize_warning_line x = x /\ normalize_warning_line y = y.
Proof. vm_compute. by repeat split. Qed.

Lemma normalize_location_witness :
  ansi_strip ex_coloured
  = diag_line (of_string "foo.c") (of_string "10") (Some (of_string "2"))
      (of_string " ") (of_string "warning:") (of_string " unused")
  /\ normalize_warning_line ex_coloured
     = normalize_warning_line (of_string "foo.c:99:44: warning: unused").
Proof.
  split; [vm_compute; reflexivity|].
  apply (normalize_location_independent _ _ (of_string "foo.c")
           (of_string "10") (of_string "99") (Some (of_string "2")) (Some (of_string "44"))
           (of_string " ") (of_string "warning:") (of_string " unused")).
  - vm_compute. reflexivity.
  - vm_compute. reflexivity.
  - split; [discriminate | by repeat constructor].
  - split; [discriminate | by repeat constructor].
  - split; (split; [discriminate | by repeat constructor]).
  - by repeat constructor.
  - unfold marker_word. by repeat constructor.
  - repeat constructor; discriminate.
Defined.

Lemma ex_coloured_with_ansi :
  with_ansi ex_coloured (of_string "foo.c:10:2: warning: unused").
Proof.
  unfold ex_coloured.
  apply (wa_seq [48; 49; 59; 51; 53] 109); [by repeat constructor | reflexivity|].
  vm_compute. do 27 (apply wa_char; [discriminate|]).
  apply (wa_seq [] 109); [constructor | reflexivity | constructor].
Defined.

Lemma ansi_interleaved_witness :
  with_ansi ex_coloured (of_string "foo.c:10:2: warning: unused")
  /\ normalize_warning_line ex_coloured
     ∈ extract_normalized_warnings [of_string "  CC      kernel/fork.o"; ex_coloured].
Proof.
  split; [exact ex_coloured_with_ansi|].
  destruct (ansi_interleaved_warning_extracted _ _ ex_coloured_with_ansi)
    as (_ & _ & _ & H).
  apply H; [vm_compute; reflexivity|]. right. left.
Defined.

(** C1 on a run whose first build job fails at its third command. *)
Lemma main_build_failure_witness :
  build_failed_in
    [("baseline-allmodconfig", FutInt 3); ("candidate-allmodconfig", FutInt 0);
     ("baseline-allyesconfig", FutInt 0); ("candidate-allyesconfig", FutInt 0);
     ("boot", FutPair 0 (of_string ex_uname))]%string
  /\ exists w', main (ex_env 2 (Some 5) ex_uname) ex_paths ex_world
                = (Raise (SystemExit 2), w').
Proof.
  assert (build_failed_in
    [("baseline-allmodconfig", FutInt 3); ("candidate-allmodconfig", FutInt 0);
     ("baseline-allyesconfig", FutInt 0); ("candidate-allyesconfig", FutInt 0);
     ("boot", FutPair 0 (of_string ex_uname))]%string) as H.
  { exists "baseline-allmodconfig"%string, 3%Z. split; [left|]. split; discriminate. }
  split; [exact H|].
  destruct (main_build_failure (ex_env 2 (Some 5) ex_uname) ex_paths ex_world _
              ltac:(vm_compute; reflexivity) H) as (w' & evs & Hm & _).
  by exists w'.
Defined.

(** C2 on a boot that ends with 0 and prints no line of the pattern. *)
Lemma boot_test_signature_witness :
  shutdown ex_world = false
  /\ exists w', boot_test (ex_env 9 (Some 5) "some garbage output") "/l" "/k" ex_world
                = (Ok (1%Z, []), w').
Proof.
  split; [reflexivity|].
  destruct (boot_test_signature (ex_env 9 (Some 5) "some garbage output") "/l" "/k" ex_world
              eq_refl eq_refl eq_refl) as (_ & w' & rc & Hb & Hz & _).
  destruct (Hz eq_refl ltac:(vm_compute; reflexivity)) as [-> Hs].
  rewrite Hs in Hb. by exists w'.
Defined.

(** C3 on the steps [ok; ok; fail; ok; ok]. *)
Lemma build_config_witness :
  shutdown ex_world = false
  /\ exists w',
       build_config (ex_env 2 None "") "/l" "/k" "allmodconfig" ex_world = (Ok 3%Z, w')
       /\ ran_since ex_world w'
          = [["vng"; "--clean"]; ["make"; "allmodconfig"];
             ["./scripts/config"; "-d"; "WERROR"]]%string.
Proof.
  split; [reflexivity|].
  destruct (build_config_halts_at_first_failure (ex_env 2 None "") "/l" "/k" "allmodconfig"
              ex_world eq_refl) as (_ & Hfail & _).
  apply (Hfail 2%nat); [lia | | discriminate].
  intros [|[|i]] Hi; [reflexivity | reflexivity | lia].
Defined.


(** C6 on a registry of two processes of which the first is reaped. *)
Lemma reaped_process_witness :
  let w := World false [0; 1]%nat [] [] [] [] ∅ [] 2 in
  reg_ok w /\ (0 < next_id w)%nat
  /\ forall sig,
       KillPg 0 sig
       ∉ sent_since (do_ops (ex_env 9 None "") [OpSpawn ["make"]%string "/k"] (_reap (ex_env 9 None "") 0 w).2)
           (_sigint_handler
              (do_ops (ex_env 9 None "") [OpSpawn ["make"]%string "/k"]
                 (_reap (ex_env 9 None "") 0 w).2)).2.
Proof.
  intros w.
  assert (reg_ok w) as Hok.
  { split.
    - apply NoDup_cons. split; [|apply NoDup_singleton].
      intros H%list_elem_of_singleton. discriminate.
    - repeat constructor. }
  assert (0 < next_id w)%nat as Hlt by (simpl; lia).
  split; [exact Hok|]. split; [exact Hlt|].
  destruct (reaped_process_not_signalled (ex_env 9 None "") w 0
              [OpSpawn ["make"]%string "/k"] Hok Hlt) as (_ & _ & _ & _ & _ & _ & H).
  exact H.
Defined.

(** C7 on a world whose flag is set. *)
Lemma shutdown_refuses_witness :
  let w := set_shutdown true ex_world in
  shutdown w = true
  /\ _spawn ["vng"; "--clean"]%string "/k" w = (Raise KeyboardInterrupt, w)
  /\ spawned (do_ops (ex_env 9 None "")
                [OpBuildConfig "/l" "/k" "allmodconfig"; OpVngBoot "/k"] w) = [].
Proof.
  intros w. split; [reflexivity|].
  destruct (shutdown_refuses_launch (ex_env 9 None "") w eq_refl) as (H1 & _ & _ & H2).
  split; [apply H1|]. destruct (H2 [OpBuildConfig "/l" "/k" "allmodconfig"; OpVngBoot "/k"])
    as (_ & H & _). exact H.
Defined.

(** * Part V: further properties of the code *)

(** ** Extraction and comparison *)

Lemma extract_records lines :
  extract_normalized_warnings lines = sorted (warning_records lines).
Proof. unfold extract_normalized_warnings. by rewrite warning_set_records. Qed.

Lemma sorted_nil_iff (X : gset (list N)) : sorted X = [] <-> X = ∅.
Proof.
  split.
  - intros H. apply set_eq. intros w. rewrite <- sorted_elem, H.
    split; [by intros ?%elem_of_nil | by intros ?%elem_of_empty].
  - intros ->. apply sorted_empty.
Qed.

Lemma compare_records baseline candidate :
  compare_warnings baseline candidate
  = sorted (warning_records (readlines candidate) ∖ warning_records (readlines baseline)).
Proof.
  unfold compare_warnings. cbv zeta.
  by rewrite !extract_records, !sorted_to_set.
Qed.

(** X1: the list [extract_normalized_warnings] returns is in ascending
    order, holds no string twice, and holds exactly the normal forms of the
    lines that pass the test of the loop. *)
Theorem extract_sorted_records (lines : list (list N)) :
  Sorted str_le (extract_normalized_warnings lines)
  /\ NoDup (extract_normalized_warnings lines)
  /\ (forall x, x ∈ extract_normalized_warnings lines
        <-> exists raw, raw ∈ lines /\ is_warning raw = true
                        /\ x = normalize_warning_line raw).
Proof.
  rewrite extract_records. split; [apply sorted_Sorted|].
  split; [apply sorted_NoDup|].
  intros x. rewrite sorted_elem. apply elem_of_warning_records.
Qed.

(** X2: the result of [extract_normalized_warnings] depends on which lines
    the log holds only, not on their order or on how often each is there. *)
Theorem extract_order_insensitive (lines lines' : list (list N)) :
  (forall raw, raw ∈ lines <-> raw ∈ lines') ->
  extract_normalized_warnings lines = extract_normalized_warnings lines'.
Proof.
  intros H. rewrite !extract_records. f_equal.
  apply set_eq. intros w. rewrite !elem_of_warning_records.
  split; intros (raw & Hin & Hw & ->); exists raw; (split; [by apply H | done]).
Qed.

Lemma extract_order_witness :
  let a := of_string "a.c:1:2: warning: one" ++ [10] in
  let b := of_string "b.c:7: warning: two" ++ [10] in
  extract_normalized_warnings [b; a; b; a]
  = extract_normalized_warnings [a; b].
Proof.
  apply (extract_order_insensitive
           [of_string "b.c:7: warning: two" ++ [10];
            of_string "a.c:1:2: warning: one" ++ [10];
            of_string "b.c:7: warning: two" ++ [10];
            of_string "a.c:1:2: warning: one" ++ [10]]
           [of_string "a.c:1:2: warning: one" ++ [10];
            of_string "b.c:7: warning: two" ++ [10]]).
  intros raw. rewrite !elem_of_cons, !elem_of_nil. tauto.
Defined.

(** X3: [compare_warnings] returns the empty list exactly when every
    line of the candidate log that passes the test has the normal form of
    such a line of the baseline log; a log compared with itself has no new
    warning. *)
Theorem compare_nothing_new (baseline candidate : list N) :
  (compare_warnings baseline candidate = []
   <-> forall raw, raw ∈ readlines candidate -> is_warning raw = true ->
       exists raw', raw' ∈ readlines baseline /\ is_warning raw' = true
                    /\ normalize_warning_line raw' = normalize_warning_line raw)
  /\ compare_warnings baseline baseline = [].
Proof.
  split.
  - rewrite compare_records, sorted_nil_iff. split.
    + intros H raw Hin Hw.
      destruct (decide (normalize_warning_line raw ∈ warning_records (readlines baseline)))
        as [Hb|Hb].
      * apply elem_of_warning_records in Hb as (raw' & ? & ? & ?). by exists raw'.
      * exfalso.
        assert (normalize_warning_line raw
                ∈ warning_records (readlines candidate) ∖ warning_records (readlines baseline)) as Hd.
        { apply elem_of_difference. split; [|done].
          apply elem_of_warning_records. by exists raw. }
        rewrite H in Hd. by apply elem_of_empty in Hd.
    + intros H. apply set_eq. intros w. split; [|by intros ?%elem_of_empty].
      intros [Hc Hb]%elem_of_difference. exfalso. apply Hb.
      apply elem_of_warning_records in Hc as (raw & Hin & Hw & ->).
      destruct (H raw Hin Hw) as (raw' & ? & ? & ?).
      apply elem_of_warning_records. by exists raw'.
  - rewrite compare_records, sorted_nil_iff. apply set_eq. intros w.
    split; [|by intros ?%elem_of_empty].
    by intros [? ?]%elem_of_difference.
Qed.

(** ** What the warning pattern matches *)

(** What [COMPILER_WARNING_RE] matches: a run of characters that are not
    blanks, [:line] or [:line:col] in decimal digits, a colon, at least one
    blank, and the marker word. *)
Lemma matches_compiler_warning b s b' s' :
  matches COMPILER_WARNING_RE b s b' s'
  <-> exists x f n col ws mk,
        s = (x :: f) ++ location n col ++ 58 :: ws ++ mk ++ s'
        /\ Forall (fun c => is_space c = false) (x :: f)
        /\ decimal_number n
        /\ match col with Some c => decimal_number c | None => True end
        /\ ws <> [] /\ Forall (fun c => is_space c = true) ws
        /\ marker_word mk /\ b' = false.
Proof.
  unfold COMPILER_WARNING_RE. cbn [cat foldr].
  split.
  - intros H.
    apply matches_seq in H as (b1 & s1 & H1 & H).
    apply matches_plus in H1 as (x & f & -> & Hx & Hf & ->).
    apply matches_seq in H as (b2 & s2 & H2 & H).
    apply matches_colon in H2 as [-> ->].
    apply matches_seq in H as (b3 & s3 & H3 & H).
    apply matches_plus in H3 as (n0 & n & -> & Hn0 & Hn & ->).
    apply matches_seq in H as (b4 & s4 & H4 & H).
    apply matches_seq in H as (b5 & s5 & H5 & H).
    apply matches_colon in H5 as [-> ->].
    apply matches_seq in H as (b6 & s6 & H6 & H).
    apply matches_plus in H6 as (w0 & ws & -> & Hw0 & Hws & ->).
    apply matches_seq in H as (b7 & s7 & H7 & H).
    apply matches_marker_word in H7 as (mk & -> & Hmk & ->).
    apply matches_eps in H as [-> ->].
    assert (Forall (fun c => is_space c = false) (x :: f)) as Hxf.
    { constructor; [by apply negb_true_iff in Hx|].
      eapply Forall_impl; [exact Hf|]. intros c Hc. by apply negb_true_iff in Hc. }
    unfold Opt in H4. inversion H4 as [| | | | | |a c b0 s0 b0' s0' Hc|a c b0 s0 b0' s0' He|]; subst.
    + cbn [cat foldr] in Hc.
      apply matches_seq in Hc as (c1 & t1 & Hc1 & Hc).
      apply matches_colon in Hc1 as [Hs3 ->].
      apply matches_seq in Hc as (c2 & t2 & Hc2 & Hc).
      apply matches_plus in Hc2 as (d0 & d & -> & Hd0 & Hd & ->).
      apply matches_eps in Hc as [_ <-].
      exists x, f, (n0 :: n), (Some (d0 :: d)), (w0 :: ws), mk.
      split.
      { unfold location. rewrite Hs3. simpl.
        repeat (rewrite <- app_assoc; simpl). done. }
      repeat split; try done; try (by constructor); by destruct mk.
    + apply matches_eps in He as [_ Hs3].
      exists x, f, (n0 :: n), None, (w0 :: ws), mk.
      split.
      { unfold location. rewrite <- Hs3. simpl.
        repeat (rewrite <- app_assoc; simpl). done. }
      repeat split; try done; try (by constructor); by destruct mk.
  - intros (x & f & n & col & ws & mk & -> & Hxf & [Hn0 Hn] & Hcol & Hws0 & Hws & Hmk & ->).
    destruct n as [|n0 n]; [done|]. destruct ws as [|w0 ws]; [done|].
    apply Forall_cons in Hxf as [Hx Hf]. apply Forall_cons in Hn as [Hn0' Hn].
    apply Forall_cons in Hws as [Hw0 Hws].
    apply matches_seq. exists false, (location (n0 :: n) col ++ 58 :: (w0 :: ws) ++ mk ++ s').
    split.
    { apply matches_plus. exists x, f. repeat split; try done.
      - by apply negb_true_iff.
      - eapply Forall_impl; [exact Hf|]. intros c Hc. by apply negb_true_iff. }
    unfold location. simpl.
    apply matches_seq. eexists false, _. split; [by apply matches_colon|].
    apply matches_seq.
    exists false, (match col with Some c => 58 :: c | None => [] end
                   ++ 58 :: w0 :: ws ++ mk ++ s').
    split.
    { apply matches_plus. exists n0, n. rewrite <- app_assoc. done. }
    apply matches_seq.
    exists false, (58 :: w0 :: ws ++ mk ++ s'). split.
    { destruct col as [c|].
      - destruct Hcol as [Hc0 Hc]. destruct c as [|c0 c]; [done|].
        apply Forall_cons in Hc as [Hc0' Hc].
        apply m_alt_l. cbn [cat foldr]. simpl.
        apply matches_seq. eexists false, _. split; [by apply matches_colon|].
        apply matches_seq. exists false, (58 :: w0 :: ws ++ mk ++ s'). split.
        + apply matches_plus. by exists c0, c.
        + by apply matches_eps.
      - apply m_alt_r. by apply matches_eps. }
    apply matches_seq. eexists false, _. split; [by apply matches_colon|].
    apply matches_seq. exists false, (mk ++ s'). split.
    { apply matches_plus. by exists w0, ws. }
    apply matches_seq. exists false, s'. split.
    + apply matches_marker_word. exists mk. split; [done|]. split; [done|].
      by destruct mk.
    + by apply matches_eps.
Qed.

(** What [re.search] finds with [COMPILER_WARNING_RE]. *)
Lemma search_compiler_warning (s : list N) :
  re_search COMPILER_WARNING_RE s = true
  <-> exists P x n col ws mk R,
        s = diag_line (P ++ [x]) n col ws mk R
        /\ is_space x = false
        /\ decimal_number n
        /\ match col with Some c => decimal_number c | None => True end
        /\ ws <> [] /\ Forall (fun c => is_space c = true) ws
        /\ marker_word mk.
Proof.
  unfold re_search. rewrite search_from_matches. split.
  - intros (pre & t & b' & R & Hs & H).
    apply matches_compiler_warning in H
      as (x & f & n & col & ws & mk & -> & Hxf & Hn & Hcol & Hws0 & Hws & Hmk & _).
    destruct (exists_last (l := x :: f)) as (f' & y & Hf); [done|].
    rewrite Hf in Hxf. apply Forall_app in Hxf as [_ Hy].
    apply Forall_cons in Hy as [Hy _].
    exists (pre ++ f'), y, n, col, ws, mk, R. split; [|done].
    rewrite Hs, Hf. unfold diag_line. by rewrite !app_assoc.
  - intros (P & x & n & col & ws & mk & R & Hs & Hx & Hn & Hcol & Hws0 & Hws & Hmk).
    exists P, ([x] ++ location n col ++ 58 :: ws ++ mk ++ R), false, R.
    split; [rewrite Hs; unfold diag_line; by rewrite <- app_assoc|].
    apply matches_compiler_warning. exists x, [], n, col, ws, mk.
    split; [done|]. split; [by repeat constructor|]. done.
Qed.

(** X4: a line passes the test of [extract_normalized_warnings] exactly
    when, without its ANSI sequences, it holds somewhere a character that is
    no blank, then [:line] or [:line:col] in decimal digits, a colon, at least
    one blank and the word [warning:] in any case. *)
Theorem is_warning_iff_diagnostic (raw : list N) :
  is_warning raw = true
  <-> exists P x n col ws mk R,
        ansi_strip raw = diag_line (P ++ [x]) n col ws mk R
        /\ is_space x = false
        /\ decimal_number n
        /\ match col with Some c => decimal_number c | None => True end
        /\ ws <> [] /\ Forall (fun c => is_space c = true) ws
        /\ marker_word mk.
Proof. unfold is_warning. apply search_compiler_warning. Qed.

(** ** Blanks of a normal form *)

Lemma ws_match_inv b s n caps : match_at WS_RE b s = Some (n, caps) -> n <> O.
Proof.
  intros H. apply match_at_sound in H as (b' & u & s' & -> & -> & H).
  apply matches_plus in H as (x & ds & Hs & _). destruct u; [|done].
  simpl in Hs. exfalso.
  assert (length s' = length (x :: ds ++ s')) as Hl by (by rewrite <- Hs).
  simpl in Hl. rewrite length_app in Hl. lia.
Qed.

Lemma ws_match_blank b x t : is_space x = true -> is_Some (match_at WS_RE b (x :: t)).
Proof.
  intros Hx. apply match_at_matches. exists false, t.
  apply matches_plus. by exists x, [].
Qed.

Lemma ws_scan_blanks s : forall k b,
  Forall (fun c => is_space c = true -> c = 32)
    (sub_scan WS_RE [TLit (of_string " ")] k b s).
Proof.
  induction s as [|x t IH]; intros k b.
  - destruct k; [|done]. cbn [sub_scan]. by rewrite ws_no_empty.
  - destruct k as [|k]; [|apply IH].
    rewrite sub_scan_cons. destruct (match_at WS_RE b (x :: t)) as [[n caps]|] eqn:Hm.
    + destruct n as [|n]; [by apply ws_match_inv in Hm|].
      change (expand [TLit (of_string " ")] caps) with [32]. simpl.
      constructor; [done | apply IH].
    + constructor; [|apply IH]. intros Hx.
      destruct (ws_match_blank b x t Hx) as [? ?]. congruence.
Qed.

Lemma linebreak_is_blank c : is_linebreak c = true -> is_space c = true /\ c <> 32.
Proof.
  unfold is_linebreak, is_space, inb. intros H. split.
  - apply not_false_iff_true. intros Hf. bools; lia.
  - intros ->. vm_compute in H. discriminate.
Qed.

Lemma placeholder_blanks (s : string) :
  forallb (fun c => negb (is_space c)) (of_string s) = true ->
  Forall (fun c => is_space c = true -> c = 32) (of_string s).
Proof.
  intros H. apply Forall_forall. intros c Hc Hs.
  rewrite forallb_forall in H. apply list_elem_of_In in Hc.
  apply H in Hc. rewrite Hs in Hc. done.
Qed.

(** X5: in what [normalize_warning_line] returns every blank is the
    character U+0020: tabs, line ends and the other blanks of Unicode are
    gone, so a record is one line. *)
Theorem normalize_blanks_are_spaces (line : list N) :
  Forall (fun c => is_space c = true -> c = 32) (normalize_warning_line line)
  /\ line_free (normalize_warning_line line).
Proof.
  assert (Forall (fun c => is_space c = true -> c = 32) (normalize_warning_line line)) as H.
  { unfold normalize_warning_line, normalize_plain, re_sub. cbv zeta.
    apply sub_scan_keeps.
    { constructor; [by apply placeholder_blanks; vm_compute | by repeat constructor]. }
    apply sub_scan_keeps.
    { constructor; [by apply placeholder_blanks; vm_compute | by repeat constructor]. }
    apply sub_scan_keeps; [by repeat constructor|].
    apply rstrip_keeps, ws_scan_blanks. }
  split; [done|]. unfold line_free.
  eapply Forall_impl; [exact H|]. intros c Hc. cbv beta in Hc.
  destruct (is_linebreak c) eqn:Hl; [|done].
  apply linebreak_is_blank in Hl as [Hs Hn]. by apply Hc in Hs.
Qed.

(** ** The signature of the booted kernel *)

Lemma splitlines_aux_line_free n : forall s cur,
  (length s <= n)%nat -> line_free cur -> Forall line_free (splitlines_aux cur s).
Proof.
  induction n as [|n IH]; intros s cur Hn Hcur.
  - destruct s; [|simpl in Hn; lia]. simpl. destruct cur; [constructor|].
    constructor; [|constructor]. by apply Forall_rev.
  - destruct s as [|c t]; simpl.
    { destruct cur; [constructor|]. constructor; [|constructor]. by apply Forall_rev. }
    simpl in Hn. destruct (is_linebreak c) eqn:Hc.
    + destruct t as [|d t'].
      * constructor; [|constructor]. by apply Forall_rev.
      * destruct ((c =? 13) && (d =? 10)).
        -- constructor; [by apply Forall_rev|]. apply IH; [simpl in Hn; lia | constructor].
        -- constructor; [by apply Forall_rev|]. apply IH; [lia | constructor].
    + apply IH; [lia|]. by constructor.
Qed.

Lemma splitlines_line_free s : Forall line_free (splitlines s).
Proof. apply (splitlines_aux_line_free (length s)); [done | constructor]. Qed.

Lemma rstrip_idem s : rstrip (rstrip s) = rstrip s.
Proof.
  induction s as [|c t IH]; simpl; [done|].
  destruct (rstrip t) as [|y t'] eqn:Hr.
  - destruct (is_space c) eqn:Hc; simpl; [done|]. by rewrite Hc.
  - change (rstrip (c :: y :: t')) with
      (match rstrip (y :: t') with
       | [] => if is_space c then [] else [c]
       | t'' => c :: t''
       end).
    by rewrite IH.
Qed.

Lemma lstrip_head s :
  lstrip s = [] \/ exists c t, lstrip s = c :: t /\ is_space c = false.
Proof.
  induction s as [|c t IH]; simpl; [by left|].
  destruct (is_space c) eqn:Hc; [done|]. right. by exists c, t.
Qed.

Lemma rstrip_cons_nonspace c t : is_space c = false -> rstrip (c :: t) = c :: rstrip t.
Proof. intros Hc. exact (rstrip_app_nonspace [] c t Hc). Qed.

Lemma strip_idem s : strip (strip s) = strip s.
Proof.
  unfold strip. destruct (lstrip_head s) as [-> | (c & t & -> & Hc)]; [done|].
  rewrite (rstrip_cons_nonspace c t Hc).
  change (lstrip (c :: rstrip t)) with (if is_space c then lstrip (rstrip t) else c :: rstrip t).
  rewrite Hc. rewrite (rstrip_cons_nonspace c (rstrip t) Hc). by rewrite rstrip_idem.
Qed.

Lemma strip_line_free s : line_free s -> line_free (strip s).
Proof. intros H. by apply rstrip_keeps, lstrip_keeps. Qed.

Lemma first_uname_cases lines :
  first_uname lines = []
  \/ exists line, line ∈ lines /\ first_uname lines = strip line
                  /\ re_match UNAME_RE (strip line) = true.
Proof.
  induction lines as [|l rest IH]; simpl; [by left|].
  destruct (re_match UNAME_RE (strip l)) eqn:Hm.
  - right. exists l. split; [by left | done].
  - destruct IH as [-> | (line & Hin & -> & ?)]; [by left|].
    right. exists line. split; [by right | done].
Qed.

Lemma matches_lit (w : string) b s b' s' :
  matches (lit w) b s b' s' -> s = of_string w ++ s'.
Proof.
  unfold lit. rewrite <- (map_map is_chr Chr). rewrite matches_chars.
  intros (m & -> & H & _). f_equal. apply Forall2_fmap_l in H.
  symmetry. revert H. generalize (of_string w). intros l H.
  induction H as [|x y l m Hxy _ IH]; [done|].
  unfold is_chr in Hxy. apply N.eqb_eq in Hxy. by subst.
Qed.

(** What [UNAME_RE] matches starts with [Linux] and has [GNU/Linux] at its
    end. *)
Lemma uname_shape u :
  re_match UNAME_RE u = true -> line_free u ->
  exists mid, u = of_string "Linux" ++ mid ++ of_string "GNU/Linux".
Proof.
  unfold re_match. intros H Hu. apply bool_decide_eq_true in H.
  apply match_at_matches in H as (b' & s' & H).
  unfold UNAME_RE in H. cbn [cat foldr] in H.
  apply matches_seq in H as (b1 & s1 & H1 & H). apply matches_lit in H1 as ->.
  do 10 (apply matches_seq in H as (? & ? & [? ->]%matches_suffix & H)).
  apply matches_seq in H as (? & ? & ->%matches_lit & H).
  apply matches_seq in H as (? & ? & He & H).
  apply matches_eps in H as [_ ->].
  inversion He as [| |? ? Hs| | | | | |]; subst.
  destruct Hs as [-> | ->].
  - eexists. f_equal. rewrite app_nil_r, !app_assoc. reflexivity.
  - exfalso. unfold line_free in Hu. rewrite !app_assoc in Hu.
    apply Forall_app in Hu as [_ Hu].
    apply Forall_cons in Hu as [Hu _]. vm_compute in Hu. discriminate.
Qed.

Lemma uname_of_matches (boot_output : list N) :
  uname_of boot_output = []
  \/ (re_match UNAME_RE (uname_of boot_output) = true
      /\ line_free (uname_of boot_output)
      /\ strip (uname_of boot_output) = uname_of boot_output).
Proof.
  unfold uname_of. cbv zeta.
  destruct (first_uname_cases (rev (splitlines (strip (ansi_strip boot_output)))))
    as [-> | (line & Hin & -> & Hm)]; [by left|].
  right.
  assert (line_free (strip line)) as Hf.
  { apply strip_line_free. apply list_elem_of_In, in_rev, list_elem_of_In in Hin.
    pose proof (splitlines_line_free (strip (ansi_strip boot_output))) as Hall.
    rewrite Forall_forall in Hall. by apply Hall. }
  split; [done|]. split; [done|]. apply strip_idem.
Qed.

(** X6: the signature [boot_test] takes from a transcript is empty, or
    it is one line that matches the pattern, without a blank at either end,
    that starts with [Linux] and ends with [GNU/Linux]. *)
Theorem uname_of_clean (boot_output : list N) :
  uname_of boot_output = []
  \/ (re_match UNAME_RE (uname_of boot_output) = true
      /\ line_free (uname_of boot_output)
      /\ strip (uname_of boot_output) = uname_of boot_output
      /\ exists mid, uname_of boot_output
                     = of_string "Linux" ++ mid ++ of_string "GNU/Linux").
Proof.
  destruct (uname_of_matches boot_output) as [H | (Hm & Hf & Hs)]; [by left|].
  right. split; [done|]. split; [done|]. split; [done|]. by apply uname_shape.
Qed.

(** ** The report *)

Lemma of_string_app (a b : string) : of_string (a +:+ b) = of_string a ++ of_string b.
Proof.
  unfold of_string. induction a as [|c a IH]; simpl; [done|]. by rewrite IH.
Qed.

Lemma literal_line_free (s : string) :
  forallb (fun c => negb (is_linebreak c)) (of_string s) = true -> line_free (of_string s).
Proof.
  intros H. apply Forall_forall. intros c Hc.
  rewrite forallb_forall in H. apply list_elem_of_In in Hc.
  apply H in Hc. by apply negb_true_iff in Hc.
Qed.

Lemma uint_line_free d : line_free (of_string (NilEmpty.string_of_uint d)).
Proof. induction d; simpl; by constructor. Qed.

Lemma str_of_nat_line_free n : line_free (str_of_nat n).
Proof.
  unfold str_of_nat, NilZero.string_of_uint.
  destruct (Nat.to_uint n); try apply uint_line_free.
  by apply literal_line_free.
Qed.

Ltac line_free_tac :=
  unfold line_free in *;
  repeat match goal with
  | |- Forall _ (_ ++ _) => apply Forall_app; split
  | |- Forall _ (of_string (_ +:+ _)) => rewrite of_string_app
  | |- Forall _ (str_of_nat _) => apply str_of_nat_line_free
  | |- Forall _ (of_string _) => by (apply literal_line_free; vm_compute)
  | |- Forall _ _ => assumption
  end.

Lemma section_line_free p (cfg : string) ws :
  line_free p -> line_free (of_string cfg) -> Forall line_free ws ->
  Forall line_free (blurb_section p cfg ws).
Proof.
  intros Hp Hc Hws. unfold blurb_section. destruct ws as [|w ws].
  - constructor; [|constructor]. line_free_tac.
  - constructor; [line_free_tac|].
    apply Forall_fmap. eapply Forall_impl; [exact Hws|].
    intros l Hl. unfold compose. line_free_tac.
Qed.

Lemma section_indented p cfg ws :
  filter (fun l => indented l = true) (blurb_section p cfg ws)
  = map (fun w => of_string "    " ++ w) ws.
Proof.
  assert (forall l : list (list N),
            filter (fun l => indented l = true) (map (fun w => of_string "    " ++ w) l)
            = map (fun w => of_string "    " ++ w) l) as Hall.
  { induction l as [|w l IH]; [done|]. cbn [map].
    rewrite filter_cons_True by reflexivity. by rewrite IH. }
  unfold blurb_section. destruct ws as [|w ws].
  - rewrite of_string_app. rewrite filter_cons_False; [done|].
    intros Hi. vm_compute in Hi. discriminate.
  - rewrite !of_string_app. rewrite filter_cons_False; [apply Hall|].
    intros Hi. vm_compute in Hi. discriminate.
Qed.

Lemma section_length p cfg ws : length (blurb_section p cfg ws) = S (length ws).
Proof. unfold blurb_section. destruct ws; simpl; [done|]. by rewrite length_map. Qed.

(** The list of lines, part by part. *)
Lemma blurb_lines_parts p am ay ok u cc :
  blurb_lines p am ay ok u cc
  = [if (1 <? cc)%Z
     then of_string "This patch and those between it and " ++ p
          ++ of_string " were tested by:"
     else of_string "This patch was tested by:"]
    ++ blurb_section p "allmodconfig" am
    ++ blurb_section p "allyesconfig" ay
    ++ (if ok then
          of_string "- Booting defconfig kernel via vng: OK"
          :: (if u is [] then [] else [of_string "  uname -a: " ++ u])
        else [of_string "- Booting defconfig kernel via vng: FAILED"]).
Proof.
  unfold blurb_lines. cbn [foldl fst snd].
  destruct ok; [destruct u|]; by rewrite <- ?app_assoc.
Qed.

Lemma splitlines_aux_line l : forall cur rest,
  line_free l ->
  splitlines_aux cur (l ++ 10 :: rest) = (rev cur ++ l) :: splitlines_aux [] rest.
Proof.
  induction l as [|c l IH]; intros cur rest Hl.
  - rewrite app_nil_r. simpl. by destruct rest.
  - apply Forall_cons in Hl as [Hc Hl]. simpl. rewrite Hc. rewrite IH; [|done].
    simpl. by rewrite <- app_assoc.
Qed.

Lemma splitlines_lines lines :
  Forall line_free lines ->
  splitlines (concat (map (fun l => l ++ NL) lines)) = lines.
Proof.
  unfold splitlines. induction 1 as [|l lines Hl _ IH]; [done|].
  simpl. unfold NL at 1. rewrite <- app_assoc. simpl.
  rewrite splitlines_aux_line; [|done]. simpl. by rewrite IH.
Qed.

Lemma join_tail_NL lines :
  concat (map (fun x => NL ++ x) lines) ++ NL
  = NL ++ concat (map (fun l => l ++ NL) lines).
Proof.
  induction lines as [|x lines IH]; [done|].
  cbn [map concat]. rewrite <- !app_assoc. rewrite IH. done.
Qed.

Lemma join_lines_NL l lines :
  join_lines (l :: lines) ++ NL = concat (map (fun l => l ++ NL) (l :: lines)).
Proof.
  unfold join_lines. cbn [map concat]. rewrite <- !app_assoc. by rewrite join_tail_NL.
Qed.

Lemma blurb_splitlines p am ay ok u cc :
  line_free p -> line_free u -> Forall line_free am -> Forall line_free ay ->
  splitlines (generate_test_blurb p am ay ok u cc) = blurb_lines p am ay ok u cc.
Proof.
  intros Hp Hu Ham Hay. unfold generate_test_blurb.
  assert (Forall line_free (blurb_lines p am ay ok u cc)) as Hall.
  { rewrite blurb_lines_parts.
    apply Forall_app_2; [|apply Forall_app_2; [|apply Forall_app_2]].
    - constructor; [|constructor]. destruct (1 <? cc)%Z; line_free_tac.
    - apply section_line_free; try done. by apply literal_line_free.
    - apply section_line_free; try done. by apply literal_line_free.
    - destruct ok; [destruct u as [|c u']|].
      + constructor; [line_free_tac | constructor].
      + constructor; [line_free_tac|]. constructor; [line_free_tac | constructor].
      + constructor; [line_free_tac | constructor]. }
  destruct (blurb_lines p am ay ok u cc) as [|l lines] eqn:Hb.
  { rewrite blurb_lines_parts in Hb. done. }
  rewrite join_lines_NL. by apply splitlines_lines.
Qed.

(** X7: when none of its arguments holds a line boundary, the warnings
    can be read back from what [generate_test_blurb] returns: its lines that
    start with four blanks are the new warnings, those of allmodconfig first,
    in the order given; there are four more lines, and one more for the
    signature of a kernel that booted; the last line tells the boot result. *)
Theorem blurb_read_back (p : list N) (am ay : list (list N)) (ok : bool)
    (u : list N) (cc : Z) :
  line_free p -> line_free u -> Forall line_free am -> Forall line_free ay ->
  let lines := splitlines (generate_test_blurb p am ay ok u cc) in
  filter (fun l => indented l = true) lines
  = map (fun w => of_string "    " ++ w) (am ++ ay)
  /\ length lines
     = (4 + length am + length ay
        + (if ok && negb (bool_decide (u = [])) then 1 else 0))%nat
  /\ last lines
     = Some (if ok then
               if bool_decide (u = [])
               then of_string "- Booting defconfig kernel via vng: OK"
               else of_string "  uname -a: " ++ u
             else of_string "- Booting defconfig kernel via vng: FAILED").
Proof.
  intros Hp Hu Ham Hay lines. unfold lines.
  rewrite blurb_splitlines by done. rewrite blurb_lines_parts.
  split; [|split].
  - rewrite !filter_app, !section_indented, map_app.
    rewrite filter_cons_False by (by destruct (1 <? cc)%Z).
    rewrite filter_nil. simpl. f_equal.
    rewrite <- (app_nil_r (map _ ay)) at 2. f_equal.
    destruct ok; [destruct u|]; done.
  - rewrite !length_app, !section_length. destruct ok; [destruct u as [|c u']|].
    + rewrite bool_decide_eq_true_2 by done. simpl. lia.
    + rewrite bool_decide_eq_false_2 by done. simpl. lia.
    + simpl. lia.
  - rewrite !app_assoc.
    destruct ok; [destruct u as [|c u']|].
    + rewrite bool_decide_eq_true_2 by done. by rewrite last_app.
    + rewrite bool_decide_eq_false_2 by done. by rewrite last_app.
    + by rewrite last_app.
Qed.

Lemma blurb_read_back_witness :
  filter (fun l => indented l = true)
    (splitlines (generate_test_blurb (of_string "abc123def456")
                   [of_string "a.c:LINE:COL: warning: one"]
                   [of_string "b.c:LINE: warning: two"] true
                   (of_string "Linux h 6.1 #2 SMP x86_64 GNU/Linux") 3))
  = [of_string "    a.c:LINE:COL: warning: one"; of_string "    b.c:LINE: warning: two"].
Proof.
  refine (proj1 (blurb_read_back (of_string "abc123def456")
                   [of_string "a.c:LINE:COL: warning: one"]
                   [of_string "b.c:LINE: warning: two"] true
                   (of_string "Linux h 6.1 #2 SMP x86_64 GNU/Linux") 3 _ _ _ _)).
  - apply literal_line_free. vm_compute. reflexivity.
  - apply literal_line_free. vm_compute. reflexivity.
  - constructor; [|constructor]. apply literal_line_free. vm_compute. reflexivity.
  - constructor; [|constructor]. apply literal_line_free. vm_compute. reflexivity.
Defined.

(** ** The tail of a log *)

Lemma deque_fold n items : forall d,
  (length d <= n)%nat ->
  foldl (deque_append n) d items = drop (length (d ++ items) - n) (d ++ items).
Proof.
  induction items as [|x items IH]; intros d Hd.
  - simpl. rewrite app_nil_r. replace (length d - n)%nat with O by lia. done.
  - simpl. unfold deque_append at 2. cbv zeta.
    rewrite IH.
    2:{ rewrite length_drop, length_app. simpl. lia. }
    rewrite <- drop_app_le by lia.
    rewrite drop_drop. rewrite <- app_assoc. simpl.
    f_equal. rewrite ?length_drop, ?length_app. simpl. rewrite ?length_app. simpl. lia.
Qed.

Lemma rstrip_nil s : rstrip s = [] -> Forall (fun c => is_space c = true) s.
Proof.
  induction s as [|c t IH]; simpl; [done|].
  destruct (rstrip t) eqn:Hr; [|done].
  destruct (is_space c) eqn:Hc; [|done]. intros _. constructor; [done|]. by apply IH.
Qed.

Lemma lstrip_blank s : Forall (fun c => is_space c = true) s -> lstrip s = [].
Proof. induction 1 as [|c t Hc _ IH]; simpl; [done|]. by rewrite Hc. Qed.

Lemma rstrip_nonblank s : strip s <> [] -> rstrip s <> [].
Proof.
  intros H Hr. apply H. unfold strip. by rewrite (lstrip_blank s (rstrip_nil s Hr)).
Qed.

(** X8: the lines [_show_log_tail] prints are the last [n] of the lines
    of the log that are not blank, each without the blanks at its end: at
    most [n] lines, none of them empty. *)
Theorem log_tail_last_lines (n : nat) (text : list N) :
  let shown := rstrip <$> filter (fun l => strip l <> []) (readlines text) in
  log_tail n text = drop (length shown - n) shown
  /\ (length (log_tail n text) <= n)%nat
  /\ Forall (fun l => l <> [] /\ rstrip l = l) (log_tail n text).
Proof.
  intros shown.
  assert (log_tail n text = drop (length shown - n) shown) as Heq.
  { assert (filter (fun l => negb (bool_decide (strip l = []))) (readlines text)
            = filter (fun l => strip l <> []) (readlines text)) as Hf.
    { apply list_filter_iff. intros l.
      rewrite negb_True, bool_decide_spec. done. }
    unfold log_tail. rewrite deque_fold by (simpl; lia). simpl.
    rewrite Hf. done. }
  split; [done|]. rewrite Heq. split; [rewrite length_drop; lia|].
  apply Forall_drop. unfold shown. apply Forall_fmap, Forall_forall.
  intros l [Hl _]%list_elem_of_filter. simpl.
  split; [by apply rstrip_nonblank | apply rstrip_idem].
Qed.

(** ** Complete jobs and the registries *)

Lemma run_and_log_refused E cmd log cwd w :
  shutdown w = true -> run_and_log E cmd log cwd w = (Raise KeyboardInterrupt, w).
Proof. intros H. unfold run_and_log. unM. by rewrite (_spawn_refused cmd cwd w H). Qed.

Section CompleteJobs.
Variables (E : env) (I : world -> Prop).
Hypothesis J_files : forall f w, I w -> I (set_files f w).
Hypothesis J_run : forall cmd log cwd, keeps I (run_and_log E cmd log cwd).
Hypothesis J_boot : forall k, keeps I (_run_vng_boot E k).

Lemma jobs_run_commands log cwd cmds : keeps I (run_commands E log cwd cmds).
Proof.
  induction cmds as [|cmd cmds IH]; cbn [run_commands]; [apply keeps_ret|].
  apply keeps_bind; [by apply keeps_write|]. intros _.
  apply keeps_bind; [apply J_run|]. intros rc.
  destruct (rc =? 0)%Z; [done | apply keeps_ret].
Qed.

Lemma jobs_build_config l k c : keeps I (build_config E l k c).
Proof.
  unfold build_config. apply keeps_bind; [by apply keeps_open_w|]. intros _.
  apply keeps_bind; [by apply keeps_write|]. intros _. apply jobs_run_commands.
Qed.

Lemma jobs_boot_test l k : keeps I (boot_test E l k).
Proof.
  unfold boot_test. apply keeps_bind; [by apply keeps_open_w|]. intros _.
  apply keeps_bind; [by apply keeps_write|]. intros _.
  apply keeps_bind; [apply jobs_run_commands|]. intros rc.
  destruct (negb (rc =? 0)%Z); [apply keeps_ret|].
  apply keeps_bind; [apply J_boot|]. intros [boot_rc boot_output].
  apply keeps_bind; [by apply keeps_write|]. intros _.
  apply keeps_bind; [by apply keeps_write|]. intros _. apply keeps_ret.
Qed.

Lemma jobs_do_ops ops : forall w,
  Forall (fun o => is_job o = true) ops -> I w -> I (do_ops E ops w).
Proof.
  unfold do_ops. induction ops as [|o ops IH]; intros w Hj Hw; [done|].
  apply Forall_cons in Hj as [Ho Hj]. cbn [foldl]. apply IH; [done|].
  destruct o; try done; cbn [do_op].
  - by apply J_run.
  - by apply jobs_build_config.
  - by apply J_boot.
  - by apply jobs_boot_test.
Qed.

End CompleteJobs.

Lemma regs_kept_files w0 f w : regs_kept w0 w -> regs_kept w0 (set_files f w).
Proof. by destruct w. Qed.

Lemma regs_kept_run E w0 cmd log cwd : keeps (regs_kept w0) (run_and_log E cmd log cwd).
Proof.
  intros w (Hok & Hp & Hq & Hs). destruct (shutdown w) eqn:Hsh.
  - rewrite run_and_log_refused by done. cbn [snd].
    split; [done|]. split; [done|]. split; [done | congruence].
  - destruct (run_and_log_ok E cmd log cwd w Hsh)
      as (w' & -> & Hs' & _ & Hn & Hc & Hd & _). cbn [snd].
    pose proof (reg_ok_fresh w (proj1 Hok)) as Hfresh.
    rewrite remove_first_snoc in Hc by done.
    destruct Hok as ((Hn1 & Hf1) & Hn2 & Hf2).
    unfold regs_kept, regs_ok, reg_ok. rewrite Hc, Hd, Hn, Hs'.
    assert (forall l, Forall (fun h => (h < next_id w)%nat) l ->
                      Forall (fun h => (h < S (next_id w))%nat) l) as Hmono.
    { intros l Hl. eapply Forall_impl; [exact Hl|]. intros x Hx. simpl in Hx. lia. }
    split; [|split; [done|split; [done|congruence]]].
    split; [split; [done | by apply Hmono] | split; [done | by apply Hmono]].
Qed.

Lemma regs_kept_boot E w0 k : keeps (regs_kept w0) (_run_vng_boot E k).
Proof.
  intros w (Hok & Hp & Hq & Hs). unfold _run_vng_boot.
  destruct (shutdown w) eqn:Hsh.
  { cbn [snd]. split; [done|]. split; [done|]. split; [done | congruence]. }
  destruct Hok as ((Hn1 & Hf1) & Hn2 & Hf2).
  assert (next_id w ∉ child_pids w) as Hfresh.
  { intros Hin. rewrite Forall_forall in Hf2. apply Hf2 in Hin. lia. }
  assert (forall l, Forall (fun h => (h < next_id w)%nat) l ->
                    Forall (fun h => (h < S (next_id w))%nat) l) as Hmono.
  { intros l Hl. eapply Forall_impl; [exact Hl|]. intros x Hx. simpl in Hx. lia. }
  cbv zeta. destruct (timer_fires (boot_of E (next_id w))); cbn [snd];
    unfold regs_kept, regs_ok, reg_ok;
    cbn [child_procs child_pids shutdown next_id];
    rewrite remove_first_snoc by done;
    (split; [|split; [done|split; [done|congruence]]]);
    (split; [split; [done | by apply Hmono] | split; [done | by apply Hmono]]).
Qed.

(** X9: calls that start a process and wait for it ([run_and_log],
    [build_config], [_run_vng_boot], [boot_test]), when each of them
    returns, leave both registries and the flag as they were before the
    first: no entry is left behind.  An interrupt after any number of such
    calls signals what was tracked before them and nothing else. *)
Theorem jobs_restore_registries (E : env) (ops : list op) (w : world) :
  regs_ok w -> Forall (fun o => is_job o = true) ops ->
  all_return E ops w = true ->
  let w2 := do_ops E ops w in
  regs_kept w w2
  /\ sent_since w2 (_sigint_handler w2).2
     = map (fun h => KillPg h SIGTERM) (child_procs w)
       ++ map (fun p => Kill p SIGTERM) (child_pids w).
Proof.
  intros Hok Hj _ w2.
  assert (regs_kept w w2) as Hk.
  { apply (jobs_do_ops E (regs_kept w) (regs_kept_files w) (regs_kept_run E w)
             (regs_kept_boot E w)); [done|].
    split; [exact Hok|]. by repeat split. }
  split; [done|]. destruct Hk as (_ & <- & <- & _).
  unfold sent_since, _sigint_handler. unM. simpl.
  rewrite <- app_assoc. by rewrite drop_app_length.
Qed.

Lemma jobs_restore_witness :
  let w2 := do_ops (ex_env 2 (Some 5) ex_uname)
              [OpBuildConfig "/l/a.log" "/k" "allmodconfig"; OpBootTest "/l/b.log" "/k"]
              ex_world in
  regs_kept ex_world w2
  /\ sent_since w2 (_sigint_handler w2).2 = [].
Proof.
  apply (jobs_restore_registries (ex_env 2 (Some 5) ex_uname)
           [OpBuildConfig "/l/a.log" "/k" "allmodconfig"; OpBootTest "/l/b.log" "/k"]
           ex_world).
  - repeat split; simpl; constructor.
  - repeat constructor.
  - vm_compute. reflexivity.
Defined.

(** ** Jobs that stop early *)

Lemma quiet_files (w0 : world) f w :
  (forked w = forked w0 /\ signals w = signals w0 /\ child_pids w = child_pids w0) ->
  forked (set_files f w) = forked w0 /\ signals (set_files f w) = signals w0
  /\ child_pids (set_files f w) = child_pids w0.
Proof. by destruct w. Qed.

Lemma quiet_run_commands E (w0 : world) log cwd cmds :
  keeps (fun w => forked w = forked w0 /\ signals w = signals w0
                  /\ child_pids w = child_pids w0)
    (run_commands E log cwd cmds).
Proof.
  apply keeps_run_commands.
  - apply quiet_files.
  - intros cmd cwd' w H. unfold _spawn. by destruct (shutdown w).
  - intros h w H. by destruct w.
Qed.

Lemma job_header_quiet log header w :
  exists w1 w2, open_w log w = (Ok tt, w1) /\ write log header w1 = (Ok tt, w2)
    /\ shutdown w2 = shutdown w /\ next_id w2 = next_id w
    /\ spawned w2 = spawned w
    /\ (forked w2 = forked w /\ signals w2 = signals w /\ child_pids w2 = child_pids w)
    /\ files w2 !! log = Some header
    /\ (forall p, p <> log -> files w2 !! p = files w !! p).
Proof.
  destruct (open_w_ok log w)
    as (w1 & E1 & Hs1 & Hp1 & Hn1 & _ & Hq1 & Hk1 & Hg1 & _ & Hf1).
  destruct (write_ok log header w1)
    as (w2 & E2 & Hs2 & Hp2 & Hn2 & _ & Hq2 & Hk2 & Hg2 & _ & Hf2).
  exists w1, w2. split; [done|]. split; [done|].
  split; [congruence|]. split; [congruence|]. split; [congruence|].
  split; [repeat split; congruence|]. split.
  - rewrite Hf2, lookup_insert_eq, Hf1, lookup_insert_eq. done.
  - intros p Hp. rewrite Hf2, lookup_insert_ne, Hf1, lookup_insert_ne; done.
Qed.

Lemma boot_test_failed_build E log k w i :
  shutdown w = false -> (i < 2)%nat ->
  (forall j, (j < i)%nat -> rc_at E w j = 0%Z) -> rc_at E w i <> 0%Z ->
  exists w',
    boot_test E log k w = (Ok (rc_at E w i, []), w')
    /\ ran_since w w' = take (S i) boot_commands
    /\ forked w' = forked w /\ signals w' = signals w /\ child_pids w' = child_pids w
    /\ files w' !! log
       = Some (boot_header log k ++ commands_text E (next_id w) boot_commands).
Proof.
  intros Hs Hi Hz Hbad.
  destruct (job_header_quiet log (boot_header log k) w)
    as (w1 & w2 & E1 & E2 & Hs2 & Hn2 & Hp2 & Hq2 & Hc2 & Ho2).
  assert (forall j, rc_at E w2 j = rc_at E w j) as Hrc.
  { intros j. unfold rc_at. by rewrite Hn2. }
  destruct (run_commands_fail E log k boot_commands w2 i)
    as (w3 & new & E3 & Hs3 & Hp3 & Hnew & Hn3 & _);
    [congruence | done | | |].
  { intros j Hj. rewrite Hrc. by apply Hz. }
  { by rewrite Hrc. }
  destruct (run_commands_text E log k boot_commands w2 _ ltac:(congruence) Hc2)
    as (rc & w3' & E3' & Hc3 & _).
  rewrite E3 in E3'. injection E3' as _ <-.
  pose proof (quiet_run_commands E w log k boot_commands w2 Hq2) as Hq3.
  rewrite E3 in Hq3. cbn [snd] in Hq3. destruct Hq3 as (Hq3a & Hq3b & Hq3c).
  exists w3. split.
  { unfold boot_test. unM. unfold boot_header in E2. rewrite E1, E2, E3, Hrc.
    apply Z.eqb_neq in Hbad. by rewrite Hbad. }
  split.
  { rewrite (ran_since_app w w3 new); [done|]. by rewrite Hp3, Hp2. }
  split; [done|]. split; [done|]. split; [done|]. by rewrite Hc3, Hn2.
Qed.

(** X11: when one of the two build commands of [boot_test] returns a
    code that is not 0, [boot_test] returns that code with an empty signature
    and never boots: no later command is run, nothing is forked, no signal is
    sent, and the log ends with the output of the failed command. *)
Theorem boot_build_failure_skips_boot (E : env) (log k : string) (w : world) (i : nat) :
  shutdown w = false -> (i < 2)%nat ->
  (forall j, (j < i)%nat -> rc_at E w j = 0%Z) -> rc_at E w i <> 0%Z ->
  exists w',
    boot_test E log k w = (Ok (rc_at E w i, []), w')
    /\ ran_since w w' = take (S i) boot_commands
    /\ forked w' = forked w /\ signals w' = signals w /\ child_pids w' = child_pids w
    /\ files w' !! log
       = Some (boot_header log k ++ commands_text E (next_id w) boot_commands).
Proof. apply boot_test_failed_build. Qed.

Lemma boot_build_failure_witness :
  exists w',
    boot_test (ex_env 1 (Some 5) ex_uname) "/l/b.log" "/k" ex_world = (Ok (3%Z, []), w')
    /\ ran_since ex_world w' = boot_commands
    /\ forked w' = [].
Proof.
  destruct (boot_build_failure_skips_boot (ex_env 1 (Some 5) ex_uname)
              "/l/b.log" "/k" ex_world 1)
    as (w' & H1 & H2 & H3 & _).
  - reflexivity.
  - lia.
  - intros j Hj. assert (j = 0%nat) as -> by lia. reflexivity.
  - vm_compute. discriminate.
  - exists w'. split; [exact H1|]. split; [exact H2 | exact H3].
Defined.

Lemma run_commands_refused E log cwd cmd rest w :
  shutdown w = true ->
  exists w', run_commands E log cwd (cmd :: rest) w = (Raise KeyboardInterrupt, w')
    /\ spawned w' = spawned w /\ forked w' = forked w /\ signals w' = signals w
    /\ files w' = <[log := default [] (files w !! log) ++ cmd_text cmd]> (files w).
Proof.
  intros Hs.
  destruct (write_ok log (cmd_text cmd) w)
    as (w1 & E1 & Hs1 & Hp1 & _ & _ & _ & Hk1 & Hg1 & _ & Hf1).
  exists w1. split.
  { cbn [run_commands]. unM. rewrite E1.
    rewrite run_and_log_refused by congruence. done. }
  by repeat split.
Qed.

Lemma build_config_refused E log k c w :
  shutdown w = true ->
  exists w',
    build_config E log k c w = (Raise KeyboardInterrupt, w')
    /\ spawned w' = spawned w /\ forked w' = forked w /\ signals w' = signals w
    /\ files w' !! log
       = Some (build_header log k c ++ cmd_text ["vng"; "--clean"]%string).
Proof.
  intros Hs.
  destruct (job_header_quiet log (build_header log k c) w)
    as (w1 & w2 & E1 & E2 & Hs2 & Hn2 & Hp2 & (Hk2 & Hg2 & _) & Hc2 & Ho2).
  destruct (run_commands_refused E log k ["vng"; "--clean"]%string
              (tail (build_commands c)) w2)
    as (w3 & E3 & Hp3 & Hk3 & Hg3 & Hf3); [congruence|].
  exists w3. split.
  { unfold build_config. unM. unfold build_header in E2. rewrite E1, E2. exact E3. }
  split; [congruence|]. split; [congruence|]. split; [congruence|].
  rewrite Hf3, lookup_insert_eq, Hc2. done.
Qed.

Lemma boot_test_refused E log k w :
  shutdown w = true ->
  exists w',
    boot_test E log k w = (Raise KeyboardInterrupt, w')
    /\ spawned w' = spawned w /\ forked w' = forked w /\ signals w' = signals w
    /\ files w' !! log
       = Some (boot_header log k ++ cmd_text ["vng"; "--clean"]%string).
Proof.
  intros Hs.
  destruct (job_header_quiet log (boot_header log k) w)
    as (w1 & w2 & E1 & E2 & Hs2 & Hn2 & Hp2 & (Hk2 & Hg2 & _) & Hc2 & Ho2).
  destruct (run_commands_refused E log k ["vng"; "--clean"]%string
              (tail boot_commands) w2)
    as (w3 & E3 & Hp3 & Hk3 & Hg3 & Hf3); [congruence|].
  exists w3. split.
  { unfold boot_test. unM. unfold boot_header in E2. rewrite E1, E2.
    change boot_commands with (["vng"; "--clean"]%string :: tail boot_commands).
    by rewrite E3. }
  split; [congruence|]. split; [congruence|]. split; [congruence|].
  rewrite Hf3, lookup_insert_eq, Hc2. done.
Qed.

(** X12: a job that starts while the flag is set ends with
    [KeyboardInterrupt] at its first command: no process is started, nothing
    is forked, no signal is sent, and its log holds the header and the line
    of that command only. *)
Theorem jobs_refused_after_interrupt (E : env) (log k c : string) (w : world) :
  shutdown w = true ->
  (exists w',
     build_config E log k c w = (Raise KeyboardInterrupt, w')
     /\ spawned w' = spawned w /\ forked w' = forked w /\ signals w' = signals w
     /\ files w' !! log
        = Some (build_header log k c ++ cmd_text ["vng"; "--clean"]%string))
  /\ (exists w',
        boot_test E log k w = (Raise KeyboardInterrupt, w')
        /\ spawned w' = spawned w /\ forked w' = forked w /\ signals w' = signals w
        /\ files w' !! log
           = Some (boot_header log k ++ cmd_text ["vng"; "--clean"]%string)).
Proof.
  intros Hs. split; [by apply build_config_refused | by apply boot_test_refused].
Qed.

Lemma jobs_refused_witness :
  exists w',
    build_config (ex_env 1 (Some 5) ex_uname) "/l/a.log" "/k" "allmodconfig"
      (set_shutdown true ex_world)
    = (Raise KeyboardInterrupt, w')
    /\ spawned w' = [].
Proof.
  destruct (proj1 (jobs_refused_after_interrupt (ex_env 1 (Some 5) ex_uname)
                     "/l/a.log" "/k" "allmodconfig" (set_shutdown true ex_world) eq_refl))
    as (w' & H1 & H2 & _).
  exists w'. split; [exact H1 | exact H2].
Defined.



(** ** The log of a build job *)

(** X10: when [build_config] returns, its log holds the four header
    lines, and for every command that was run its [# cmd:] line and all the
    child printed, in the order of the run, up to the first command that
    failed; what the file held before is gone, and no other file is
    touched. *)
Theorem build_config_log_contents (E : env) (log_path kernel_dir config_name : string)
    (w w' : world) (rc : Z) :
  build_config E log_path kernel_dir config_name w = (Ok rc, w') ->
  files w' !! log_path
  = Some (build_header log_path kernel_dir config_name
          ++ commands_text E (next_id w) (build_commands config_name))
  /\ (forall p, p <> log_path -> files w' !! p = files w !! p).
Proof.
  intros Hb. destruct (shutdown w) eqn:Hs.
  { destruct (build_config_refused E log_path kernel_dir config_name w Hs) as (w0 & H0 & _).
    rewrite H0 in Hb. discriminate. }
  destruct (job_header_files log_path (build_header log_path kernel_dir config_name) w)
    as (w1 & w2 & E1 & E2 & Hs2 & Hn2 & Hc2 & Ho2).
  destruct (run_commands_text E log_path kernel_dir (build_commands config_name) w2 _
              ltac:(congruence) Hc2) as (rc' & w3 & E3 & Hc3 & Ho3).
  assert (build_config E log_path kernel_dir config_name w = (Ok rc', w3)) as Hb'.
  { unfold build_config. unM. unfold build_header in E2. by rewrite E1, E2. }
  rewrite Hb in Hb'. injection Hb' as -> ->.
  split; [by rewrite Hc3, Hn2|].
  intros p Hp. rewrite Ho3 by done. by apply Ho2.
Qed.

Lemma build_config_log_witness :
  exists w',
    build_config (ex_env 1 (Some 5) ex_uname) "/l/a.log" "/k" "allmodconfig" ex_world
    = (Ok 3%Z, w')
    /\ files w' !! "/l/a.log"%string
       = Some (build_header "/l/a.log" "/k" "allmodconfig"
               ++ of_string "# cmd: vng --clean" ++ NL ++ of_string "cc" ++ NL
               ++ of_string "# cmd: make allmodconfig" ++ NL ++ of_string "cc" ++ NL).
Proof.
  eexists. split; [vm_compute; reflexivity|].
  refine (eq_trans
            (proj1 (build_config_log_contents (ex_env 1 (Some 5) ex_uname)
                      "/l/a.log" "/k" "allmodconfig" ex_world _ 3%Z _)) _).
  - vm_compute. reflexivity.
  - vm_compute. reflexivity.
Defined.

(** ** The end of a run *)

Lemma compare_all_ok P w :
  (forall cfg, cfg ∈ WARN_CONFIGS ->
     is_Some (files w !! baseline_log P cfg) /\ is_Some (files w !! candidate_log P cfg)) ->
  compare_all P WARN_CONFIGS w
  = (Ok [("allmodconfig"%string, new_warnings P (files w) "allmodconfig");
         ("allyesconfig"%string, new_warnings P (files w) "allyesconfig")],
     add_event (Compared "allyesconfig") (add_event (Compared "allmodconfig") w)).
Proof.
  intros H.
  destruct (H "allmodconfig"%string) as [[b1 Hb1] [c1 Hc1]]; [by left|].
  destruct (H "allyesconfig"%string) as [[b2 Hb2] [c2 Hc2]]; [right; by left|].
  unfold WARN_CONFIGS. cbn [compare_all]. unfold echo, read_text, new_warnings. unM.
  destruct w as [sh cp pids sp fk sg fs tr nid]. simpl in *.
  do 4 (simpl; rewrite ?Hb1, ?Hc1, ?Hb2, ?Hc2). reflexivity.
Qed.

Lemma collect_passed P (fb : future) w :
  collect P [("baseline-allmodconfig", FutInt 0); ("candidate-allmodconfig", FutInt 0);
             ("baseline-allyesconfig", FutInt 0); ("candidate-allyesconfig", FutInt 0);
             ("boot", fb)]%string false w
  = (Ok false,
     add_event (EchoBuildDone "candidate-allyesconfig")
       (add_event (EchoBuildDone "baseline-allyesconfig")
          (add_event (EchoBuildDone "candidate-allmodconfig")
             (add_event (EchoBuildDone "baseline-allmodconfig") w)))).
Proof. reflexivity. Qed.

(** A run in which the four builds returned 0, from the world the pool
    left. *)
Lemma main_after_builds E P w w1 rb ub :
  run_pool E P (set_shutdown false w)
  = (Ok [("baseline-allmodconfig", FutInt 0); ("candidate-allmodconfig", FutInt 0);
         ("baseline-allyesconfig", FutInt 0); ("candidate-allyesconfig", FutInt 0);
         ("boot", FutPair rb ub)]%string, w1) ->
  trace w1 = trace w ->
  (forall cfg, cfg ∈ WARN_CONFIGS ->
     is_Some (files w1 !! baseline_log P cfg) /\ is_Some (files w1 !! candidate_log P cfg)) ->
  is_Some (files w1 !! boot_log P) ->
  let am := new_warnings P (files w1) "allmodconfig" in
  let ay := new_warnings P (files w1) "allyesconfig" in
  let clean := bool_decide (am = []) && bool_decide (ay = []) && (rb =? 0)%Z in
  exists w',
    main E P w = (Raise (SystemExit (if clean then 0 else 1)), w')
    /\ trace w'
       = trace w
         ++ map EchoBuildDone ["baseline-allmodconfig"; "candidate-allmodconfig";
                               "baseline-allyesconfig"; "candidate-allyesconfig"]%string
         ++ [Compared "allmodconfig"; Compared "allyesconfig"]
         ++ (if (rb =? 0)%Z then [EchoBootOk]
             else [EchoBootFailed; ShowLogTail (boot_log P)])
         ++ [EchoBlurb am ay (rb =? 0)%Z ub;
             if clean then RmTree (tmp P) else EchoLogs (tmp P)]
    /\ files w'
       = (if clean
          then filter (fun kv => String.prefix (tmp P +:+ "/") kv.1 = false) (files w1)
          else files w1).
Proof.
  intros E1 T1 L1 [bl Lb] am ay clean.
  pose proof (collect_passed P (FutPair rb ub) w1) as E2.
  set (w2 := add_event (EchoBuildDone "candidate-allyesconfig")
               (add_event (EchoBuildDone "baseline-allyesconfig")
                  (add_event (EchoBuildDone "candidate-allmodconfig")
                     (add_event (EchoBuildDone "baseline-allmodconfig") w1)))) in *.
  assert (files w2 = files w1) as F2 by (by destruct w1).
  assert (trace w2 = trace w ++ map EchoBuildDone
            ["baseline-allmodconfig"; "candidate-allmodconfig";
             "baseline-allyesconfig"; "candidate-allyesconfig"]%string) as T2.
  { unfold w2. destruct w1. simpl in *. rewrite T1. by rewrite <- !app_assoc. }
  pose proof (compare_all_ok P w2) as E3. rewrite F2 in E3. specialize (E3 L1).
  fold am ay in E3.
  set (w3 := add_event (Compared "allyesconfig") (add_event (Compared "allmodconfig") w2)) in *.
  assert (files w3 = files w1) as F3 by (unfold w3; destruct w2; simpl in *; done).
  assert (trace w3 = trace w2 ++ [Compared "allmodconfig"; Compared "allyesconfig"]) as T3.
  { unfold w3. destruct w2. simpl. by rewrite <- app_assoc. }
  assert (existsb (fun r : string * list (list N) => negb (bool_decide (r.2 = [])))
            [("allmodconfig"%string, am); ("allyesconfig"%string, ay)] || negb (rb =? 0)%Z
          = negb clean) as Hbad.
  { unfold clean. cbn [existsb snd].
    destruct (bool_decide (am = [])), (bool_decide (ay = [])), (rb =? 0)%Z; done. }
  assert (exists w4,
    (if (rb =? 0)%Z then echo EchoBootOk
     else fun w => match echo EchoBootFailed w with
                   | (Ok _, w') => _show_log_tail (boot_log P) w'
                   | (Raise e, w') => (Raise e, w')
                   end) w3 = (Ok tt, w4)
    /\ files w4 = files w1
    /\ trace w4 = trace w3 ++ (if (rb =? 0)%Z then [EchoBootOk]
                               else [EchoBootFailed; ShowLogTail (boot_log P)]))
    as (w4 & E4 & F4 & T4).
  { destruct (rb =? 0)%Z.
    - eexists. split; [reflexivity|]. split; [by destruct w3 | by destruct w3].
    - unfold echo, _show_log_tail, modify.
      assert (files (add_event EchoBootFailed w3) !! boot_log P = Some bl) as ->.
      { replace (files (add_event EchoBootFailed w3)) with (files w3) by (by destruct w3).
        by rewrite F3. }
      eexists. split; [reflexivity|]. split; [by destruct w3|].
      destruct w3. simpl. by rewrite <- app_assoc. }
  set (w5 := add_event (EchoBlurb am ay (rb =? 0)%Z ub) w4).
  exists (if clean
          then add_event (RmTree (tmp P))
                 (set_files (filter (fun kv => String.prefix (tmp P +:+ "/") kv.1 = false)
                               (files w5)) w5)
          else add_event (EchoLogs (tmp P)) w5).
  split.
  { unfold main. unM. rewrite E1, E2. cbv beta iota. rewrite E3.
    cbn [dict_get String.eqb Ascii.eqb Bool.eqb result].
    cbn [dict_get String.eqb Ascii.eqb Bool.eqb default] in *.
    unM. rewrite E4. unfold echo, rmtree. unM. fold w5.
    rewrite Hbad. by destruct clean. }
  assert (files w5 = files w1) as F5 by (unfold w5; destruct w4; simpl in *; done).
  assert (trace w5 = trace w4 ++ [EchoBlurb am ay (rb =? 0)%Z ub]) as T5
    by (unfold w5; by destruct w4).
  split.
  - assert (forall e w0, trace (add_event e w0) = trace w0 ++ [e]) as Ha by (by intros ? []).
    assert (forall f w0, trace (set_files f w0) = trace w0) as Hb by (by intros ? []).
    destruct clean; rewrite Ha, ?Hb, T5, T4, T3, T2; rewrite <- !app_assoc; done.
  - destruct clean.
    + rewrite <- F5. by destruct w5.
    + rewrite <- F5. by destruct w5.
Qed.

(** A run in which a build returned a code that is not 0. *)
Lemma main_after_failure E P w w1 r1 r2 r3 r4 rb ub :
  run_pool E P (set_shutdown false w)
  = (Ok [("baseline-allmodconfig", FutInt r1); ("candidate-allmodconfig", FutInt r2);
         ("baseline-allyesconfig", FutInt r3); ("candidate-allyesconfig", FutInt r4);
         ("boot", FutPair rb ub)]%string, w1) ->
  (r1 =? 0)%Z && (r2 =? 0)%Z && (r3 =? 0)%Z && (r4 =? 0)%Z = false ->
  exists w',
    main E P w = (Raise (SystemExit 2), w')
    /\ last (trace w') = Some (EchoLogs (tmp P))
    /\ files w' = files w1.
Proof.
  intros E1 Hbad.
  assert (Forall (fun lf : string * future =>
                    lf.1 = "boot"%string \/ exists rc, lf.2 = FutInt rc)
            [("baseline-allmodconfig", FutInt r1); ("candidate-allmodconfig", FutInt r2);
             ("baseline-allyesconfig", FutInt r3); ("candidate-allyesconfig", FutInt r4);
             ("boot", FutPair rb ub)]%string) as Hshape.
  { do 4 (constructor; [right; by eexists|]). constructor; [by left | constructor]. }
  destruct (collect_builds P _ false w1 Hshape) as (w2 & evs & E2 & F2 & T2 & _).
  assert (existsb (fun lf : string * future => negb (String.eqb lf.1 "boot") && nonzero lf.2)
            [("baseline-allmodconfig", FutInt r1); ("candidate-allmodconfig", FutInt r2);
             ("baseline-allyesconfig", FutInt r3); ("candidate-allyesconfig", FutInt r4);
             ("boot", FutPair rb ub)]%string = true) as Hex.
  { cbn [existsb fst snd String.eqb Ascii.eqb Bool.eqb negb andb nonzero].
    destruct (r1 =? 0)%Z, (r2 =? 0)%Z, (r3 =? 0)%Z, (r4 =? 0)%Z; done. }
  rewrite Hex in E2. cbn [orb] in E2.
  exists (add_event (EchoLogs (tmp P)) w2). split.
  { unfold main, echo. unM. by rewrite E1, E2. }
  split; [destruct w2; simpl; by rewrite last_snoc|].
  rewrite <- F2. by destruct w2.
Qed.

Lemma builds_passed_zero r1 r2 r3 r4 (fb : future) :
  builds_passed [("baseline-allmodconfig", FutInt r1); ("candidate-allmodconfig", FutInt r2);
                 ("baseline-allyesconfig", FutInt r3); ("candidate-allyesconfig", FutInt r4);
                 ("boot", fb)]%string ->
  r1 = 0%Z /\ r2 = 0%Z /\ r3 = 0%Z /\ r4 = 0%Z.
Proof.
  unfold builds_passed. intros H.
  apply Forall_cons in H as [[H1|H1] H]; [done|]. injection H1 as ->.
  apply Forall_cons in H as [[H2|H2] H]; [done|]. injection H2 as ->.
  apply Forall_cons in H as [[H3|H3] H]; [done|]. injection H3 as ->.
  apply Forall_cons in H as [[H4|H4] H]; [done|]. injection H4 as ->.
  done.
Qed.

(** X14: when every build job returned 0, [main] compares the logs of
    both configurations, reports the boot result and the blurb, and ends with
    [sys.exit(0)] if no configuration has a new warning and the boot job
    returned 0, having removed the log directory; else it ends with
    [sys.exit(1)], names the log directory and leaves every file in place. *)
Theorem main_verdict (E : env) (P : paths) (w : world)
    (futures : list (string * future)) :
  (run_pool E P (set_shutdown false w)).1 = Ok futures ->
  builds_passed futures ->
  let fs := files (run_pool E P (set_shutdown false w)).2 in
  let am := new_warnings P fs "allmodconfig" in
  let ay := new_warnings P fs "allyesconfig" in
  exists rb ub w',
    dict_get "boot" futures = Some (FutPair rb ub)
    /\ let clean := bool_decide (am = []) && bool_decide (ay = []) && (rb =? 0)%Z in
       main E P w = (Raise (SystemExit (if clean then 0 else 1)), w')
       /\ trace w'
          = trace w
            ++ map EchoBuildDone ["baseline-allmodconfig"; "candidate-allmodconfig";
                                  "baseline-allyesconfig"; "candidate-allyesconfig"]%string
            ++ [Compared "allmodconfig"; Compared "allyesconfig"]
            ++ (if (rb =? 0)%Z then [EchoBootOk]
                else [EchoBootFailed; ShowLogTail (boot_log P)])
            ++ [EchoBlurb am ay (rb =? 0)%Z ub;
                if clean then RmTree (tmp P) else EchoLogs (tmp P)]
       /\ files w'
          = (if clean
             then filter (fun kv => String.prefix (tmp P +:+ "/") kv.1 = false) fs
             else fs).
Proof.
  intros Hfut Hpass fs am ay.
  destruct (run_pool_ok E P (set_shutdown false w)) as
    (r1 & r2 & r3 & r4 & rb & ub & w1 & E1 & _ & T1 & L1 & Lb); [by destruct w|].
  subst ay am fs. rewrite E1 in Hfut |- *. cbn [fst snd] in *.
  injection Hfut as <-.
  apply builds_passed_zero in Hpass as (-> & -> & -> & ->).
  destruct (main_after_builds E P w w1 rb ub E1) as (w' & Em & Tm & Fm);
    [by destruct w | done | done |].
  exists rb, ub, w'. split; [done|]. cbv zeta. by repeat split.
Qed.

Lemma main_verdict_witness :
  exists w',
    main (ex_env 100 (Some 5) ex_uname) ex_paths ex_world = (Raise (SystemExit 0), w')
    /\ last (trace w') = Some (RmTree (tmp ex_paths)).
Proof.
  destruct (main_verdict (ex_env 100 (Some 5) ex_uname) ex_paths ex_world
              [("baseline-allmodconfig", FutInt 0); ("candidate-allmodconfig", FutInt 0);
               ("baseline-allyesconfig", FutInt 0); ("candidate-allyesconfig", FutInt 0);
               ("boot", FutPair 0 (of_string ex_uname))]%string)
    as (rb & ub & w' & Hb & Hm & Ht & _).
  - vm_compute. reflexivity.
  - unfold builds_passed. do 4 (constructor; [by right|]). constructor; [by left | constructor].
  - injection Hb as <- <-. exists w'. split.
    + rewrite Hm. vm_compute. reflexivity.
    + rewrite Ht. vm_compute. reflexivity.
Defined.

(** X15: a run of [main] in which no job raised, so that every future
    of the pool holds what its job returned, ends with [sys.exit], with the
    code 0, 1 or 2; the code is 2 exactly when a build job returned a code
    that is not 0.  With the code 0 the last thing done was to remove the
    log directory, and no file under it is left; with another code the last
    thing shown is the log directory, and every file the jobs wrote is still
    there, the five logs among them. *)
Theorem main_exit_code (E : env) (P : paths) (w : world)
    (futures : list (string * future)) :
  (run_pool E P (set_shutdown false w)).1 = Ok futures ->
  Forall (fun lf : string * future =>
            match lf.2 with FutExn _ => False | _ => True end) futures ->
  exists code w',
    main E P w = (Raise (SystemExit code), w')
    /\ (code = 0 \/ code = 1 \/ code = 2)%Z
    /\ (code = 2%Z <-> ~ builds_passed futures)
    /\ last (trace w')
       = Some (if (code =? 0)%Z then RmTree (tmp P) else EchoLogs (tmp P))
    /\ (code = 0%Z ->
          forall p, String.prefix (tmp P +:+ "/") p = true -> files w' !! p = None)
    /\ (code <> 0%Z ->
          files w' = files (run_pool E P (set_shutdown false w)).2
          /\ is_Some (files w' !! boot_log P)
          /\ forall cfg, cfg ∈ WARN_CONFIGS ->
               is_Some (files w' !! baseline_log P cfg)
               /\ is_Some (files w' !! candidate_log P cfg)).
Proof.
  intros Hfut _.
  destruct (run_pool_ok E P (set_shutdown false w)) as
    (r1 & r2 & r3 & r4 & rb & ub & w1 & E1 & _ & T1 & L1 & Lb); [by destruct w|].
  rewrite E1 in Hfut |- *. cbn [fst snd] in *. injection Hfut as <-.
  destruct ((r1 =? 0)%Z && (r2 =? 0)%Z && (r3 =? 0)%Z && (r4 =? 0)%Z) eqn:Hz.
  - apply andb_true_iff in Hz as [Hz H4]. apply andb_true_iff in Hz as [Hz H3].
    apply andb_true_iff in Hz as [H1 H2].
    apply Z.eqb_eq in H1, H2, H3, H4. subst.
    assert (builds_passed
              [("baseline-allmodconfig", FutInt 0); ("candidate-allmodconfig", FutInt 0);
               ("baseline-allyesconfig", FutInt 0); ("candidate-allyesconfig", FutInt 0);
               ("boot", FutPair rb ub)]%string) as Hpass.
    { unfold builds_passed. do 4 (constructor; [by right|]).
      constructor; [by left | constructor]. }
    destruct (main_after_builds E P w w1 rb ub E1) as (w' & Em & Tm & Fm);
      [by destruct w | done | done |].
    cbv zeta in Em, Tm, Fm.
    destruct (bool_decide (new_warnings P (files w1) "allmodconfig" = [])
              && bool_decide (new_warnings P (files w1) "allyesconfig" = [])
              && (rb =? 0)%Z).
    + exists 0%Z, w'. split; [done|]. split; [by left|]. split; [by split|]. split.
      { rewrite Tm, !app_assoc. by rewrite last_app. }
      split; [|done]. intros _ p Hp. rewrite Fm.
      apply map_lookup_filter_None. right. intros x _. cbn [fst]. by rewrite Hp.
    + exists 1%Z, w'. split; [done|]. split; [right; by left|]. split; [by split|]. split.
      { rewrite Tm, !app_assoc. by rewrite last_app. }
      split; [done|]. intros _. rewrite Fm. done.
  - destruct (main_after_failure E P w w1 r1 r2 r3 r4 rb ub E1 Hz) as (w' & Em & Tm & Fm).
    exists 2%Z, w'. split; [done|]. split; [right; by right|]. split.
    { split; [|done]. intros _ Hpass.
      apply builds_passed_zero in Hpass as (-> & -> & -> & ->). by cbn in Hz. }
    split; [done|]. split; [done|]. intros _. rewrite Fm. done.
Qed.

Lemma main_exit_code_witness :
  exists w',
    main (ex_env 2 (Some 5) ex_uname) ex_paths ex_world = (Raise (SystemExit 2), w')
    /\ last (trace w') = Some (EchoLogs (tmp ex_paths)).
Proof.
  destruct (main_exit_code (ex_env 2 (Some 5) ex_uname) ex_paths ex_world
              [("baseline-allmodconfig", FutInt 3); ("candidate-allmodconfig", FutInt 0);
               ("baseline-allyesconfig", FutInt 0); ("candidate-allyesconfig", FutInt 0);
               ("boot", FutPair 0 (of_string ex_uname))]%string)
    as (code & w' & Hm & _ & Hc & Ht & _).
  - vm_compute. reflexivity.
  - by repeat constructor.
  - assert (code = 2%Z) as ->.
    { apply Hc. intros Hp. by apply builds_passed_zero in Hp as (Hp & _). }
    exists w'. split; [exact Hm | exact Ht].
Defined.

(** ** Blanks at the end of a line *)

Lemma blank_rejected_ansi c : is_space c = true -> rejects ANSI_RE c = true.
Proof.
  intros H. unfold ANSI_RE. cbn [cat foldr rejects].
  rewrite !andb_true_iff, !negb_true_iff. repeat split; class.
Qed.

Lemma blank_not_esc c : is_space c = true -> c <> ESC.
Proof. intros H ->. vm_compute in H. discriminate. Qed.

Lemma ansi_strip_blank_tail s bl :
  Forall (fun c => is_space c = true) bl -> ansi_strip (s ++ bl) = ansi_strip s ++ bl.
Proof.
  intros Hbl. destruct bl as [|x bl]; [by rewrite !app_nil_r|].
  unfold ansi_strip, re_sub.
  rewrite (sub_scan_split ANSI_RE [] ansi_no_empty x bl s) by
    (first [apply blank_rejected_ansi; by apply Forall_cons in Hbl as [? _] | lia]).
  f_equal.
  assert (Forall (dead ANSI_RE) (x :: bl)) as Hd.
  { eapply Forall_impl; [exact Hbl|]. intros c Hc. by apply ansi_dead, blank_not_esc. }
  pose proof (sub_scan_dead ANSI_RE [] (x :: bl) [] (if s is [] then true else false) Hd) as H.
  rewrite app_nil_r in H. rewrite H. cbn [sub_scan]. rewrite ansi_no_empty.
  by rewrite app_nil_r.
Qed.

Lemma blank_tail_split (t : list N) :
  exists run, Forall (fun c => is_space c = true) run
    /\ (t = run \/ exists t0 c, t = t0 ++ c :: run /\ is_space c = false).
Proof.
  induction t as [|a t' IH] using rev_ind.
  - exists []. split; [constructor | by left].
  - destruct (is_space a) eqn:Ha.
    + destruct IH as (run & Hrun & [-> | (t0 & c & -> & Hc)]).
      * exists (run ++ [a]). split; [|by left].
        apply Forall_app. split; [done | by repeat constructor].
      * exists (run ++ [a]). split.
        { apply Forall_app. split; [done | by repeat constructor]. }
        right. exists t0, c. split; [|done]. by rewrite <- app_assoc.
    + exists []. split; [constructor|]. right. by exists t', a.
Qed.

Lemma ws_scan_blank_run run b :
  Forall (fun c => is_space c = true) run ->
  sub_scan WS_RE [TLit (of_string " ")] 0 b run = blank run.
Proof.
  intros Hrun.
  pose proof (ws_scan_run run [] b Hrun I) as H. rewrite app_nil_r in H.
  rewrite H. cbn [sub_scan]. rewrite ws_no_empty. by rewrite app_nil_r.
Qed.

Lemma rstrip_blank_run run : rstrip (blank run) = [].
Proof. by destruct run. Qed.

Lemma ws_rstrip_tail t0 c run :
  is_space c = false -> Forall (fun x => is_space x = true) run ->
  rstrip (re_sub WS_RE [TLit (of_string " ")] (t0 ++ c :: run))
  = re_sub WS_RE [TLit (of_string " ")] t0 ++ [c].
Proof.
  intros Hc Hrun. unfold re_sub.
  assert (rejects WS_RE c = true) as Hrej.
  { unfold WS_RE, Plus. cbn [rejects]. by rewrite Hc. }
  rewrite (sub_scan_split WS_RE _ ws_no_empty c run t0 Hrej) by lia.
  rewrite (sub_scan_none WS_RE _ _ c run (ws_dead c Hc _ run)).
  rewrite (ws_scan_blank_run run false Hrun).
  rewrite rstrip_app_nonspace by done. by rewrite rstrip_blank_run.
Qed.

Lemma ws_rstrip_blank run :
  Forall (fun x => is_space x = true) run ->
  rstrip (re_sub WS_RE [TLit (of_string " ")] run) = [].
Proof.
  intros Hrun. unfold re_sub. rewrite ws_scan_blank_run by done.
  apply rstrip_blank_run.
Qed.

Lemma ws_blank_tail t bl :
  Forall (fun c => is_space c = true) bl ->
  rstrip (re_sub WS_RE [TLit (of_string " ")] (t ++ bl))
  = rstrip (re_sub WS_RE [TLit (of_string " ")] t).
Proof.
  intros Hbl. destruct (blank_tail_split t) as (run & Hrun & [-> | (t0 & c & -> & Hc)]).
  - rewrite !ws_rstrip_blank; [done | done | by apply Forall_app].
  - rewrite <- app_assoc. cbn [app].
    rewrite !ws_rstrip_tail; [done | done | done | done | by apply Forall_app].
Qed.

Lemma search_blank_tail s bl :
  Forall (fun c => is_space c = true) bl ->
  re_search COMPILER_WARNING_RE (s ++ bl) = re_search COMPILER_WARNING_RE s.
Proof.
  intros Hbl. apply Bool.eq_iff_eq_true. rewrite !search_compiler_warning. split.
  - intros (P & x & n & col & ws & mk & R & Hs & Hx & Hn & Hcol & Hws0 & Hws & Hmk).
    destruct (marker_word_split mk Hmk) as (body & -> & _ & _).
    assert (exists R', s = diag_line (P ++ [x]) n col ws (body ++ [58]) R') as [R' HR'].
    { unfold diag_line in *.
      assert (s ++ bl
              = (((P ++ [x]) ++ location n col ++ 58 :: ws ++ body) ++ [58]) ++ R) as Hs'.
      { rewrite Hs. repeat (rewrite <- app_assoc; cbn [app]). done. }
      symmetry in Hs'. apply app_eq_app in Hs' as [l [[HD Hl] | [HS HR]]].
      - destruct l as [|z l] using rev_ind.
        + exists []. rewrite app_nil_r in HD. rewrite <- HD.
          repeat (rewrite <- app_assoc; cbn [app]). done.
        + exfalso. rewrite (app_assoc s l [z]) in HD. apply app_inj_tail in HD as [_ Hz].
          rewrite Hl in Hbl. apply Forall_app in Hbl as [Hbl _].
          apply Forall_app in Hbl as [_ Hbl]. apply Forall_cons in Hbl as [Hbl _].
          subst z. vm_compute in Hbl. discriminate.
      - exists l. rewrite HS. repeat (rewrite <- app_assoc; cbn [app]). done. }
    by exists P, x, n, col, ws, (body ++ [58]), R'.
  - intros (P & x & n & col & ws & mk & R & -> & Hx & Hn & Hcol & Hws0 & Hws & Hmk).
    exists P, x, n, col, ws, mk, (R ++ bl). split; [|done].
    unfold diag_line. repeat (rewrite <- app_assoc; cbn [app]). done.
Qed.

(** X16: blanks at the end of a line, such as the line end a line read
    from a log carries, change neither whether the line passes the test nor its
    normal form; so a log gives the same warnings whether or not its lines
    keep their ends. *)
Theorem trailing_blanks_ignored (bl raw : list N) :
  Forall (fun c => is_space c = true) bl ->
  is_warning (raw ++ bl) = is_warning raw
  /\ normalize_warning_line (raw ++ bl) = normalize_warning_line raw
  /\ forall lines,
       extract_normalized_warnings ((fun l => l ++ bl) <$> lines)
       = extract_normalized_warnings lines.
Proof.
  intros Hbl.
  assert (forall r, is_warning (r ++ bl) = is_warning r) as Hw.
  { intros r. unfold is_warning. rewrite ansi_strip_blank_tail by done.
    by apply search_blank_tail. }
  assert (forall r, normalize_warning_line (r ++ bl) = normalize_warning_line r) as Hn.
  { intros r. unfold normalize_warning_line, normalize_plain. cbv zeta.
    rewrite ansi_strip_blank_tail by done. by rewrite ws_blank_tail. }
  split; [apply Hw|]. split; [apply Hn|].
  intros lines. rewrite !extract_records. f_equal.
  apply set_eq. intros x. rewrite !elem_of_warning_records. split.
  - intros (r & Hin & Hr & ->). apply list_elem_of_fmap in Hin as (r0 & -> & Hin).
    exists r0. rewrite Hw in Hr. rewrite Hn. done.
  - intros (r & Hin & Hr & ->). exists (r ++ bl). split.
    + apply list_elem_of_fmap. by exists r.
    + by rewrite Hw, Hn.
Qed.

Lemma trailing_blanks_witness :
  normalize_warning_line (of_string "a.c:1:2: warning: one" ++ [13; 10])
  = normalize_warning_line (of_string "a.c:1:2: warning: one").
Proof.
  refine (proj1 (proj2 (trailing_blanks_ignored [13; 10]
                          (of_string "a.c:1:2: warning: one") _))).
  by repeat constructor.
Defined.

(** X17: ANSI sequences in the transcript of the boot do not change the
    signature [boot_test] finds in it. *)
Theorem uname_through_ansi (raw clean : list N) :
  with_ansi raw clean -> uname_of raw = uname_of clean.
Proof.
  intros H. unfold uname_of. cbv zeta.
  rewrite (ansi_strip_with_ansi raw clean H).
  by rewrite (ansi_strip_plain clean (with_ansi_clean raw clean H)).
Qed.

Lemma uname_through_ansi_witness :
  uname_of ([27; 91; 49; 109] ++ of_string ex_uname ++ [27; 91; 109; 10])
  = of_string ex_uname.
Proof.
  rewrite (uname_through_ansi ([27; 91; 49; 109] ++ of_string ex_uname ++ [27; 91; 109; 10])
             (of_string ex_uname ++ [10])).
  - vm_compute. reflexivity.
  - apply (wa_seq [49] 109); [by repeat constructor | reflexivity |].
    assert (forall s t, Forall (fun c => c <> ESC) s -> with_ansi t [10] ->
                        with_ansi (s ++ t) (s ++ [10])) as Happ.
    { intros s t Hs Ht. induction Hs as [|c s Hc _ IH]; [done|]. by constructor. }
    apply Happ.
    + apply Forall_forall. intros c Hc ->. vm_compute in Hc.
      by repeat (apply elem_of_cons in Hc as [Hc|Hc]; [discriminate|]);
        apply elem_of_nil in Hc.
    + apply (wa_seq [] 109 [10] [10]); [constructor | reflexivity |].
      apply wa_char; [discriminate | constructor].
Defined.

(** ** The report of a failed run *)

Lemma events_added w evs :
  trace (foldl (fun w e => add_event e w) w evs) = trace w ++ evs
  /\ files (foldl (fun w e => add_event e w) w evs) = files w.
Proof.
  revert w. induction evs as [|e evs IH]; intros w; simpl.
  - by rewrite app_nil_r.
  - destruct (IH (add_event e w)) as [-> ->]. destruct w. simpl.
    by rewrite <- app_assoc.
Qed.

Lemma collect_step P label r log rest b w :
  String.eqb label "boot" = false -> log_of_label P label = Some log ->
  is_Some (files w !! log) ->
  collect P ((label, FutInt r) :: rest) b w
  = collect P rest (b || negb (r =? 0)%Z)
      (foldl (fun w e => add_event e w) w (build_report label log r)).
Proof.
  intros Hl Hlog [text Hf]. cbn [collect]. rewrite Hl, Hlog.
  cbn [result nonzero]. unfold build_report. unM. cbn [nonzero].
  destruct (r =? 0)%Z; cbn [negb foldl].
  - rewrite orb_false_r. unfold echo, modify. done.
  - rewrite orb_true_r. unfold echo, _show_log_tail, modify.
    replace (files (add_event (EchoBuildFailed label) w)) with (files w) by (by destruct w).
    by rewrite Hf.
Qed.

(** X18: when a build job returned a code that is not 0, [main] shows
    for each of the four build jobs, in the order of submission, that it is
    done, or that it failed and then the tail of that job's own log; then the
    log directory; and it ends with [sys.exit(2)]. *)
Theorem main_failure_report (E : env) (P : paths) (w : world) (r1 r2 r3 r4 rb : Z)
    (ub : list N) :
  (run_pool E P (set_shutdown false w)).1
  = Ok [("baseline-allmodconfig", FutInt r1); ("candidate-allmodconfig", FutInt r2);
        ("baseline-allyesconfig", FutInt r3); ("candidate-allyesconfig", FutInt r4);
        ("boot", FutPair rb ub)]%string ->
  (r1 =? 0)%Z && (r2 =? 0)%Z && (r3 =? 0)%Z && (r4 =? 0)%Z = false ->
  exists w',
    main E P w = (Raise (SystemExit 2), w')
    /\ trace w'
       = trace w
         ++ build_report "baseline-allmodconfig" (baseline_log P "allmodconfig") r1
         ++ build_report "candidate-allmodconfig" (candidate_log P "allmodconfig") r2
         ++ build_report "baseline-allyesconfig" (baseline_log P "allyesconfig") r3
         ++ build_report "candidate-allyesconfig" (candidate_log P "allyesconfig") r4
         ++ [EchoLogs (tmp P)].
Proof.
  intros Hfut Hbad.
  destruct (run_pool_ok E P (set_shutdown false w)) as
    (q1 & q2 & q3 & q4 & qb & vb & w1 & E1 & _ & T1 & L1 & Lb); [by destruct w|].
  rewrite E1 in Hfut. cbn [fst] in Hfut. injection Hfut as -> -> -> -> -> ->.
  destruct (L1 "allmodconfig"%string) as [Lb1 Lc1]; [by left|].
  destruct (L1 "allyesconfig"%string) as [Lb2 Lc2]; [right; by left|].
  set (a1 := foldl (fun w e => add_event e w) w1
               (build_report "baseline-allmodconfig" (baseline_log P "allmodconfig") r1)).
  set (a2 := foldl (fun w e => add_event e w) a1
               (build_report "candidate-allmodconfig" (candidate_log P "allmodconfig") r2)).
  set (a3 := foldl (fun w e => add_event e w) a2
               (build_report "baseline-allyesconfig" (baseline_log P "allyesconfig") r3)).
  set (a4 := foldl (fun w e => add_event e w) a3
               (build_report "candidate-allyesconfig" (candidate_log P "allyesconfig") r4)).
  destruct (events_added w1
    (build_report "baseline-allmodconfig" (baseline_log P "allmodconfig") r1)) as [Ta1 Fa1].
  destruct (events_added a1
    (build_report "candidate-allmodconfig" (candidate_log P "allmodconfig") r2)) as [Ta2 Fa2].
  destruct (events_added a2
    (build_report "baseline-allyesconfig" (baseline_log P "allyesconfig") r3)) as [Ta3 Fa3].
  destruct (events_added a3
    (build_report "candidate-allyesconfig" (candidate_log P "allyesconfig") r4)) as [Ta4 Fa4].
  fold a1 in Ta1, Fa1. fold a2 in Ta2, Fa2. fold a3 in Ta3, Fa3. fold a4 in Ta4, Fa4.
  assert (collect P
            [("baseline-allmodconfig", FutInt r1); ("candidate-allmodconfig", FutInt r2);
             ("baseline-allyesconfig", FutInt r3); ("candidate-allyesconfig", FutInt r4);
             ("boot", FutPair rb ub)]%string false w1
          = (Ok true, a4)) as E2.
  { rewrite (collect_step P _ r1 (baseline_log P "allmodconfig")) by done.
    fold a1.
    rewrite (collect_step P _ r2 (candidate_log P "allmodconfig"))
      by (first [done | by rewrite Fa1]).
    fold a2.
    rewrite (collect_step P _ r3 (baseline_log P "allyesconfig"))
      by (first [done | by rewrite Fa2, Fa1]).
    fold a3.
    rewrite (collect_step P _ r4 (candidate_log P "allyesconfig"))
      by (first [done | by rewrite Fa3, Fa2, Fa1]).
    fold a4. cbn [collect String.eqb Ascii.eqb Bool.eqb]. unM.
    destruct (r1 =? 0)%Z, (r2 =? 0)%Z, (r3 =? 0)%Z, (r4 =? 0)%Z; done. }
  exists (add_event (EchoLogs (tmp P)) a4). split.
  { unfold main, echo. unM. by rewrite E1, E2. }
  replace (trace (add_event (EchoLogs (tmp P)) a4)) with (trace a4 ++ [EchoLogs (tmp P)])
    by (by destruct a4).
  rewrite Ta4, Ta3, Ta2, Ta1, T1. destruct w. simpl. by rewrite <- !app_assoc.
Qed.

Lemma main_failure_report_witness :
  exists w',
    main (ex_env 2 (Some 5) ex_uname) ex_paths ex_world = (Raise (SystemExit 2), w')
    /\ trace w'
       = [EchoBuildFailed "baseline-allmodconfig";
          ShowLogTail (baseline_log ex_paths "allmodconfig");
          EchoBuildDone "candidate-allmodconfig";
          EchoBuildDone "baseline-allyesconfig";
          EchoBuildDone "candidate-allyesconfig";
          EchoLogs (tmp ex_paths)].
Proof.
  destruct (main_failure_report (ex_env 2 (Some 5) ex_uname) ex_paths ex_world
              3 0 0 0 0 (of_string ex_uname)) as (w' & Hm & Ht).
  - vm_compute. reflexivity.
  - reflexivity.
  - exists w'. split; [exact Hm|]. rewrite Ht. reflexivity.
Defined.

(** ** Worktrees *)

Lemma exit_stack_calls G stack : forall s,
  wt_calls (exit_stack G stack s) = wt_calls s ++ exit_calls G stack
  /\ wt_made (exit_stack G stack s) = wt_made s.
Proof.
  unfold exit_stack, exit_calls. induction stack as [|wt stack IH]; intros s.
  - simpl. by rewrite app_nil_r.
  - cbn [foldl flat_map]. destruct (IH (git_worktree_exit G wt s)) as [-> ->].
    unfold git_worktree_exit. destruct (worktree_remove G wt =? 0)%Z; simpl;
      by rewrite <- !app_assoc.
Qed.

Lemma enter_worktrees_ok G revs : forall stack s,
  Forall (fun p => worktree_add G p.1 p.2 = None) (worktree_dirs G (wt_made s) revs) ->
  enter_worktrees G revs stack s
  = (WtOk (worktree_dirs G (wt_made s) revs).*1,
     rev (worktree_dirs G (wt_made s) revs).*1 ++ stack,
     WtState (wt_calls s ++ enter_calls (worktree_dirs G (wt_made s) revs))
       (wt_made s + length revs)).
Proof.
  induction revs as [|r revs IH]; intros stack s Hok.
  - simpl. rewrite app_nil_r, Nat.add_0_r. by destruct s.
  - cbn [worktree_dirs] in Hok |- *. apply Forall_cons in Hok as [H0 Hok].
    cbn [fst snd] in H0. cbn [enter_worktrees]. unfold git_worktree_enter.
    rewrite H0.
    rewrite (IH _ (WtState (wt_calls s ++ [Mkdtemp (mkdtemp G (wt_made s));
                                          WorktreeAdd (mkdtemp G (wt_made s)) r])
                     (S (wt_made s)))) by done.
    cbn [wt_made wt_calls fmap list_fmap rev length fst]. unfold enter_calls.
    cbn [flat_map fst snd]. f_equal; [f_equal|].
    + rewrite <- app_assoc. done.
    + f_equal; [by rewrite <- app_assoc | lia].
Qed.

Lemma enter_worktrees_fail G pre : forall revs stack s d r post stderr,
  worktree_dirs G (wt_made s) revs = pre ++ (d, r) :: post ->
  Forall (fun p => worktree_add G p.1 p.2 = None) pre ->
  worktree_add G d r = Some stderr ->
  exists s',
    enter_worktrees G revs stack s
    = (WtRaise (ClickException (add_failure_msg r stderr)), rev pre.*1 ++ stack, s')
    /\ wt_calls s' = wt_calls s ++ enter_calls (pre ++ [(d, r)]) ++ [WorktreeRmtree d].
Proof.
  induction pre as [|[d0 r0] pre IH]; intros revs stack s d r post stderr Hwr Hok Hbad.
  - destruct revs as [|r' revs]; [done|]. cbn [worktree_dirs app] in Hwr.
    injection Hwr as <- <- _. eexists. split.
    + cbn [enter_worktrees]. unfold git_worktree_enter. rewrite Hbad. reflexivity.
    + simpl. by rewrite <- app_assoc.
  - destruct revs as [|r' revs]; [done|]. cbn [worktree_dirs app] in Hwr.
    injection Hwr as <- <- Hwr. apply Forall_cons in Hok as [H0 Hok]. cbn [fst snd] in H0.
    destruct (IH revs (mkdtemp G (wt_made s) :: stack)
                (WtState (wt_calls s ++ [Mkdtemp (mkdtemp G (wt_made s));
                                         WorktreeAdd (mkdtemp G (wt_made s)) r'])
                   (S (wt_made s))) d r post stderr Hwr Hok Hbad) as (s' & E & Hc).
    exists s'. split.
    + cbn [enter_worktrees]. unfold git_worktree_enter. rewrite H0, E.
      cbn [fmap list_fmap rev fst]. by rewrite <- app_assoc.
    + rewrite Hc. cbn [wt_calls]. unfold enter_calls. cbn [flat_map app fst snd].
      by rewrite <- !app_assoc.
Qed.

(** X19: the five worktrees are made for the baseline and HEAD in turn
    for each configuration, then for HEAD.  When all are made, the rest of
    the block runs on their directories, and when it ends, by returning or
    by an exception, [git worktree remove --force] is run for every one of
    them, the latest first, and the outcome of the block is kept.  When
    making one fails, its directory is removed with [rmtree], the worktrees
    made before are removed, the latest first, no later one is made, the
    rest of the block does not run, and a [ClickException] names the
    revision. *)
Theorem worktrees_always_removed {A : Type} (G : git_env) (baseline : string)
    (body : list string -> M A) (s : wt_state) (w : world) :
  let wr := worktree_dirs G (wt_made s) (worktree_revs baseline) in
  wr.*2 = [baseline; "HEAD"; baseline; "HEAD"; "HEAD"]%string
  /\ (Forall (fun p => worktree_add G p.1 p.2 = None) wr ->
        exists s',
          with_worktrees G baseline body s w
          = (lift_res (body wr.*1 w).1, s', (body wr.*1 w).2)
          /\ wt_calls s' = wt_calls s ++ enter_calls wr ++ exit_calls G (rev wr.*1))
  /\ (forall pre d r post stderr,
        wr = pre ++ (d, r) :: post ->
        Forall (fun p => worktree_add G p.1 p.2 = None) pre ->
        worktree_add G d r = Some stderr ->
        exists s',
          with_worktrees G baseline body s w
          = (WtRaise (ClickException (add_failure_msg r stderr)), s', w)
          /\ wt_calls s'
             = wt_calls s ++ enter_calls (pre ++ [(d, r)]) ++ [WorktreeRmtree d]
               ++ exit_calls G (rev pre.*1)).
Proof.
  intros wr. split; [reflexivity|]. split.
  - intros Hok. unfold with_worktrees.
    rewrite (enter_worktrees_ok G _ [] s Hok). fold wr. rewrite app_nil_r.
    eexists. split; [reflexivity|].
    destruct (exit_stack_calls G (rev wr.*1)
                (WtState (wt_calls s ++ enter_calls wr)
                   (wt_made s + length (worktree_revs baseline)))) as [-> _].
    cbn [wt_calls]. by rewrite <- app_assoc.
  - intros pre d r post stderr Hwr Hok Hbad. unfold with_worktrees.
    destruct (enter_worktrees_fail G pre (worktree_revs baseline) [] s d r post stderr
                Hwr Hok Hbad) as (s1 & E & Hc).
    rewrite E, app_nil_r. eexists. split; [reflexivity|].
    destruct (exit_stack_calls G (rev pre.*1) s1) as [-> _]. rewrite Hc.
    by rewrite <- !app_assoc.
Qed.

Lemma worktrees_removed_witness :
  exists s',
    with_worktrees ex_git "v0" (fun _ => mret tt) (WtState [] 0) ex_world
    = (WtRaise (ClickException (of_string "failed to create worktree for v0" ++ NL
                                ++ of_string "fatal: invalid reference: v0")),
       s', ex_world)
    /\ wt_calls s'
       = [Mkdtemp "/src/patchlint-0"; WorktreeAdd "/src/patchlint-0" "v0";
          Mkdtemp "/src/patchlint-1"; WorktreeAdd "/src/patchlint-1" "HEAD";
          Mkdtemp "/src/patchlint-2"; WorktreeAdd "/src/patchlint-2" "v0";
          WorktreeRmtree "/src/patchlint-2";
          WorktreeRemove "/src/patchlint-1";
          WorktreeRemove "/src/patchlint-0"; WorktreeWarn "/src/patchlint-0"]%string.
Proof.
  destruct (proj2 (proj2 (worktrees_always_removed ex_git "v0" (fun _ => mret tt)
                            (WtState [] 0) ex_world))
              [("/src/patchlint-0", "v0"); ("/src/patchlint-1", "HEAD")]%string
              "/src/patchlint-2"%string "v0"%string
              [("/src/patchlint-3", "HEAD"); ("/src/patchlint-4", "HEAD")]%string
              (of_string "fatal: invalid reference: v0" ++ NL))
    as (s' & H1 & H2).
  - reflexivity.
  - by repeat constructor.
  - reflexivity.
  - exists s'. split; [rewrite H1; vm_compute; reflexivity | rewrite H2; reflexivity].
Defined.
